(** * Orchestration patterns of the deep-research agent

    A shallow embedding of the coroutines of [parallel_research.py] and
    [deep_research.py]: the leaf searches, the fan-out over
    [asyncio.gather], the deadline wrapper over [asyncio.wait_for], the
    race over [asyncio.wait], the retry loop and the batch loop.

    The remote call [Runner.run] is the only external capability.  It is
    modelled by an oracle that tells, for the n-th invocation and its
    input, how long the call takes (or that it never completes) and
    whether it returns a result or raises, and by a second oracle that
    tells how the invocation reacts when it is cancelled while it runs.
    Coroutines are computations in a state-and-exception monad whose
    state carries a logical clock, the number of oracle invocations, the
    backoff delays slept, the tasks that received a cancellation request
    and the lines printed. *)

From Stdlib Require Import List ZArith Lia Bool String Ascii Arith PeanoNat.
From Stdlib Require Import Permutation Sorted.
Import ListNotations.
Open Scope string_scope.
Open Scope list_scope.

Set Implicit Arguments.

(** ** Python values *)

Module Py.

(** Exception classes that the code tells apart.  [CancelledError] derives
    from [BaseException] only; every other class derives from [Exception]. *)
Inductive exc_class : Type :=
| ValueError
| TimeoutError
| CancelledError
| OtherError (name : string).

Record exn : Type := mkExn { exc_type : exc_class; exc_str : string }.

(** [isinstance(e, Exception)] *)
Definition is_Exception (e : exn) : bool :=
  match exc_type e with
  | CancelledError => false
  | _ => true
  end.

(** [isinstance(e, asyncio.TimeoutError)] *)
Definition is_TimeoutError (e : exn) : bool :=
  match exc_type e with
  | TimeoutError => true
  | _ => false
  end.

Inductive pyval : Type :=
| VNone
| VStr (s : string)
| VInt (z : Z).

(** A dict literal, keys in insertion order. *)
Definition dict : Type := list (string * pyval).

Fixpoint dict_get (d : dict) (k : string) : option pyval :=
  match d with
  | [] => None
  | (k', v) :: d' => if String.eqb k k' then Some v else dict_get d' k
  end.

(** [k in d] *)
Definition dict_has (d : dict) (k : string) : bool :=
  match dict_get d k with Some _ => true | None => false end.

(** [range(start, stop, step)]; a zero step raises [ValueError]. *)
Definition range_len (start stop step : Z) : Z :=
  if (0 <? step)%Z then Z.max 0 ((stop - start + step - 1) / step)
  else Z.max 0 ((start - stop - step - 1) / (- step)).

Definition range3 (start stop step : Z) : exn + list Z :=
  if (step =? 0)%Z
  then inl (mkExn ValueError "range() arg 3 must not be zero")
  else inr (map (fun k => (start + Z.of_nat k * step)%Z)
                (seq 0 (Z.to_nat (range_len start stop step)))).

(** [range(n)] *)
Definition range1 (n : Z) : list nat := seq 0 (Z.to_nat n).

(** Slice bounds are clamped the way Python clamps them. *)
Definition clamp (len k : Z) : Z :=
  if (k <? 0)%Z then Z.max 0 (k + len) else Z.min k len.

(** [l[lo:hi]] *)
Definition slice {A} (l : list A) (lo hi : Z) : list A :=
  let n := Z.of_nat (List.length l) in
  let a := Z.to_nat (clamp n lo) in
  let b := Z.to_nat (clamp n hi) in
  firstn (b - a) (skipn a l).

End Py.
Import Py.

(** ** The external executor *)

Record RunResult : Type := mkRunResult { final_output : string }.

Inductive completion : Type :=
| Returns (r : RunResult)
| Raises (e : exn).

(** What one invocation of [Runner.run] does: [latency = None] is a call
    that never completes. *)
Record behaviour : Type := mkBehaviour {
  latency : option nat;
  result : completion
}.

(** The oracle: what the invocation does, given its ordinal among all the
    invocations made (0-based, [st_calls] below) and its input string.
    Two invocations on the same input may behave differently. *)
Definition Executor : Type := nat -> string -> behaviour.

(** How a call ends once the task that runs it has been cancelled: the
    [CancelledError] thrown into it goes through, or the call catches it
    and returns a value, or another exception comes out. *)
Inductive stop (A : Type) : Type :=
| Cancelled
| Returned (a : A)
| Raised (e : exn).
Arguments Cancelled {A}.
Arguments Returned {A} a.
Arguments Raised {A} e.

(** The reaction of a call to a cancellation: how it ends, and how long
    after the request ([None]: it never ends). *)
Record reaction (A : Type) : Type := mkReaction {
  stop_delay : option nat;
  stop_result : stop A
}.

(** The second oracle: how the invocation of the given ordinal and input
    reacts when it is cancelled while it runs.  What [Runner.run] does
    with a cancellation is not in the hands of the repository. *)
Definition Canceller : Type := nat -> string -> reaction RunResult.

(** ** Coroutines: state, exceptions, divergence *)

Inductive line : Type :=
| PrintResult (i : nat) (query : string) (result_prefix : string)
| PrintWinner (agent_id : pyval) (time : pyval) (result_prefix : string)
| PrintCancelled (count : nat)
| PrintBanner (title : string)
    (* a rule, the title, a rule and an empty line *)
| PrintRacing (num_agents : Z) (query : string)
    (* "Racing {num_agents} agents to answer: '{query}'..." *)
| PrintBlank.
    (* [print()] *)

Record state : Type := mkState {
  st_clock : nat;            (* logical time *)
  st_calls : nat;            (* invocations of the executor so far *)
  st_next_task : nat;        (* next task identifier *)
  st_sleeps : list nat;      (* arguments of [asyncio.sleep], in order *)
  st_cancelled : list nat;   (* tasks on which [cancel()] was called *)
  st_stdout : list line      (* informative lines printed, in order *)
}.

Definition initial_state : state := mkState 0 0 0 [] [] [].

Inductive outcome (A : Type) : Type :=
| Ret (a : A)      (* the coroutine returned [a] *)
| Exc (e : exn)    (* the coroutine raised [e] *)
| Hang.            (* the coroutine never completes *)
Arguments Ret {A} a.
Arguments Exc {A} e.
Arguments Hang {A}.

Definition M (A : Type) : Type := state -> outcome A * state.

Definition ret {A} (a : A) : M A := fun s => (Ret a, s).

Definition bind {A B} (c : M A) (k : A -> M B) : M B :=
  fun s =>
    match c s with
    | (Ret a, s') => k a s'
    | (Exc e, s') => (Exc e, s')
    | (Hang, s') => (Hang, s')
    end.

Definition raise {A} (e : exn) : M A := fun s => (Exc e, s).

Declare Scope coro_scope.
Delimit Scope coro_scope with coro.
Notation "x <- c ;; k" := (bind c (fun x => k))
  (at level 61, c at next level, right associativity) : coro_scope.
Notation "c ;;; k" := (bind c (fun _ => k))
  (at level 61, right associativity) : coro_scope.
Open Scope coro_scope.

(** [try: c except <class> as e: h e] *)
Definition try_except {A} (c : M A) (catches : exn -> bool) (h : exn -> M A)
  : M A :=
  fun s =>
    match c s with
    | (Exc e, s') => if catches e then h e s' else (Exc e, s')
    | r => r
    end.

(** [time.time()] *)
Definition time_time : M nat := fun s => (Ret (st_clock s), s).

Definition set_clock (t : nat) (s : state) : state :=
  mkState t (st_calls s) (st_next_task s) (st_sleeps s) (st_cancelled s)
          (st_stdout s).

(** [await asyncio.sleep(d)] *)
Definition sleep (d : nat) : M unit :=
  fun s => (Ret tt,
            mkState (st_clock s + d) (st_calls s) (st_next_task s)
                    (st_sleeps s ++ [d]) (st_cancelled s) (st_stdout s)).

Definition print (l : line) : M unit :=
  fun s => (Ret tt,
            mkState (st_clock s) (st_calls s) (st_next_task s)
                    (st_sleeps s) (st_cancelled s) (st_stdout s ++ [l])).

(** [await Runner.run(agent, input)]: one invocation of the oracle. *)
Definition Runner_run (ex : Executor) (input : string) : M RunResult :=
  fun s =>
    let b := ex (st_calls s) input in
    let s1 := mkState (st_clock s) (S (st_calls s)) (st_next_task s)
                      (st_sleeps s) (st_cancelled s) (st_stdout s) in
    match latency b with
    | None => (Hang, s1)
    | Some d =>
        (match result b with Returns r => Ret r | Raises e => Exc e end,
         set_clock (st_clock s + d) s1)
    end.

(** ** Tasks *)

Record task (A : Type) : Type := mkTask {
  task_id : nat;
  done_at : option nat;       (* completion time, [None]: never *)
  task_result : outcome A
}.

(** [asyncio.create_task(c)] / [ensure_future(c)]: the coroutine is put in
    flight at the current time.  Its effects on the counters are recorded
    at once; the caller's clock does not advance. *)
Definition create_task {A} (c : M A) : M (task A) :=
  fun s =>
    let id := st_next_task s in
    let s1 := mkState (st_clock s) (st_calls s) (S id) (st_sleeps s)
                      (st_cancelled s) (st_stdout s) in
    let '(r, s2) := c s1 in
    let t := match r with
             | Hang => None
             | _ => Some (st_clock s2)
             end in
    (Ret (mkTask id t r), set_clock (st_clock s) s2).

Fixpoint create_tasks {A} (cs : list (M A)) : M (list (task A)) :=
  match cs with
  | [] => ret []
  | c :: cs' =>
      t <- create_task c ;;
      ts <- create_tasks cs' ;;
      ret (t :: ts)
  end.

(** [task.cancel()]: only requests cancellation. *)
Definition cancel {A} (t : task A) : M unit :=
  fun s => (Ret tt,
            mkState (st_clock s) (st_calls s) (st_next_task s)
                    (st_sleeps s) (st_cancelled s ++ [task_id t])
                    (st_stdout s)).

(** ** The event loop: order of completion *)

(** Indices of the tasks that complete, with their completion times. *)
Fixpoint finishing {A} (i : nat) (ts : list (task A)) : list (nat * nat) :=
  match ts with
  | [] => []
  | t :: ts' =>
      match done_at t with
      | Some d => (i, d) :: finishing (S i) ts'
      | None => finishing (S i) ts'
      end
  end.

Fixpoint insert_by_time (x : nat * nat) (l : list (nat * nat))
  : list (nat * nat) :=
  match l with
  | [] => [x]
  | y :: l' =>
      if (snd x <=? snd y)%nat then x :: l else y :: insert_by_time x l'
  end.

Fixpoint sort_by_time (l : list (nat * nat)) : list (nat * nat) :=
  match l with
  | [] => []
  | x :: l' => insert_by_time x (sort_by_time l')
  end.

(** The order in which the loop sees the tasks complete: by completion
    time, earlier index first among equal times. *)
Definition completion_order {A} (ts : list (task A)) : list (nat * nat) :=
  sort_by_time (finishing 0 ts).

(** Entries of a completion order, compared by time. *)
Definition by_time (x y : nat * nat) : Prop := snd x <= snd y.

(** ** asyncio combinators *)

(** State of the future returned by [asyncio.gather]: the number of
    children seen done, and the result or exception set on the outer
    future together with the time at which it was set. *)
Record gather_state (A : Type) : Type := mkGather {
  nfinished : nat;
  outer : option (outcome (list A) * nat)
}.

(** [[fut.result() for fut in children]] *)
Fixpoint results {A} (children : list (task A)) : outcome (list A) :=
  match children with
  | [] => Ret []
  | c :: cs =>
      match task_result c with
      | Ret a =>
          match results cs with
          | Ret l => Ret (a :: l)
          | r => r
          end
      | Exc e => Exc e
      | Hang => Hang
      end
  end.

(** The callback [gather] attaches to every child ([return_exceptions] is
    false): the first child seen to fail sets its exception on the outer
    future; when the last child is seen done the results are read from
    the children in argument order. *)
Definition done_callback {A} (children : list (task A))
           (g : gather_state A) (x : nat * nat) : gather_state A :=
  let n := S (nfinished g) in
  match outer g with
  | Some _ => mkGather n (outer g)
  | None =>
      match nth_error children (fst x) with
      | Some c =>
          match task_result c with
          | Exc e => mkGather n (Some (Exc e, snd x))
          | _ =>
              if (n =? List.length children)%nat
              then mkGather n (Some (results children, snd x))
              else mkGather n None
          end
      | None => mkGather n None
      end
  end.

(** The child named by an entry of the completion order raised. *)
Definition child_raises {A} (children : list (task A)) (x : nat * nat)
  : bool :=
  match nth_error children (fst x) with
  | Some c => match task_result c with Exc _ => true | _ => false end
  | None => false
  end.

(** [await asyncio.gather] on tasks already in flight. *)
Definition gather_tasks {A} (children : list (task A)) : M (list A) :=
  fun s =>
    match children with
    | [] => (Ret [], s)
    | _ =>
        match outer (fold_left (done_callback children)
                               (completion_order children)
                               (mkGather 0 None)) with
        | Some (r, t) => (r, set_clock (Nat.max (st_clock s) t) s)
        | None => (Hang, s)
        end
    end.

(** [await asyncio.gather] on coroutines: each coroutine is wrapped in a task
    first, in argument order. *)
Definition gather {A} (coros : list (M A)) : M (list A) :=
  ts <- create_tasks coros ;;
  gather_tasks ts.

(** [isinstance(e, asyncio.CancelledError)] *)
Definition is_CancelledError (e : exn) : bool :=
  match exc_type e with
  | CancelledError => true
  | _ => false
  end.

(** What [wait_for] hands back once the task it cancelled has ended:
    [TimeoutError] in place of the cancellation, otherwise what the task
    returned or raised. *)
Definition after_cancel {A} (r : stop A) : outcome A :=
  match r with
  | Cancelled => Exc (mkExn TimeoutError "")
  | Returned a => Ret a
  | Raised e =>
      if is_CancelledError e then Exc (mkExn TimeoutError "") else Exc e
  end.

(** [await asyncio.wait_for(c, timeout)], as [asyncio] has it from
    Python 3.11 on; [on_cancel] tells how [c], started in the given
    state, reacts to a cancellation.

    With no time allowed ([timeout <= 0]) the task made for [c] is
    cancelled before its first step: nothing of [c] is run and
    [TimeoutError] is raised at once.  Otherwise a task that completes
    strictly before the deadline gives its own result or exception.  A
    task still running at the deadline is cancelled, and then awaited:
    the call ends when the task does, with [TimeoutError] if the task
    ended cancelled and with what the task returned or raised if not; it
    never ends if the task never does.

    The identifiers of the task made and cancelled are those of Python
    3.11, where [c] is wrapped in a task of its own; from Python 3.12 on
    [c] runs in the calling task, which is the one cancelled at the
    deadline.  The invocations made, the time taken and the outcome are
    the same. *)
Definition wait_for {A} (c : M A) (on_cancel : state -> reaction A)
           (timeout : Z) : M A :=
  fun s0 =>
    if (timeout <=? 0)%Z
    then
      let id := st_next_task s0 in
      let unstarted : task A :=
        mkTask id (Some (st_clock s0)) (Exc (mkExn CancelledError "")) in
      let '(_, s') :=
        cancel unstarted
               (mkState (st_clock s0) (st_calls s0) (S id) (st_sleeps s0)
                        (st_cancelled s0) (st_stdout s0)) in
      (Exc (mkExn TimeoutError ""), s')
    else
      (t <- create_task c ;;
       fun s =>
         let deadline := (st_clock s + Z.to_nat timeout)%nat in
         let expired :=
           let '(_, s') := cancel t s in
           match stop_delay (on_cancel s0) with
           | Some wait =>
               (after_cancel (stop_result (on_cancel s0)),
                set_clock (deadline + wait) s')
           | None => (Hang, set_clock deadline s')
           end in
         match done_at t with
         | Some d =>
             if (d <? deadline)%nat
             then (task_result t, set_clock (Nat.max (st_clock s) d) s)
             else expired
         | None => expired
         end) s0.

Definition done_by {A} (t0 : nat) (t : task A) : bool :=
  match done_at t with
  | Some d => (d <=? t0)%nat
  | None => false
  end.

(** What [asyncio.wait] does with coroutines depends on the interpreter:
    up to Python 3.10 it wraps them in tasks (with a deprecation
    warning), from Python 3.11 on it refuses them. *)
Inductive python : Type :=
| Python_3_10      (* 3.10 or earlier *)
| Python_3_11.     (* 3.11 or later *)

(** [await asyncio.wait(coros, return_when=FIRST_COMPLETED)] on a
    list of coroutines.

    From Python 3.11 on the call raises [TypeError] before anything is
    started.  Up to Python 3.10 the coroutines are put in a set and
    wrapped in tasks in the order in which the set lists them,
    [set_order]; the call returns at the first completion with the tasks
    done by then, those that complete at that same time included, and
    the others. *)
Definition wait_first_completed {A} (py : python)
           (set_order : list (M A) -> list (M A)) (coros : list (M A))
  : M (list (task A) * list (task A)) :=
  match coros, py with
  | [], Python_3_10 =>
      raise (mkExn ValueError "Set of coroutines/Futures is empty.")
  | [], Python_3_11 =>
      raise (mkExn ValueError "Set of Tasks/Futures is empty.")
  | _, Python_3_11 =>
      raise (mkExn (OtherError "TypeError")
                   "Passing coroutines is forbidden, use tasks explicitly.")
  | _, Python_3_10 =>
      ts <- create_tasks (set_order coros) ;;
      fun s =>
        match completion_order ts with
        | [] => (Hang, s)
        | (_, t0) :: _ =>
            (Ret (filter (done_by t0) ts,
                  filter (fun t => negb (done_by t0 t)) ts),
             set_clock (Nat.max (st_clock s) t0) s)
        end
  end.

(** [t.result()] of a task that is done. *)
Definition task_result_of {A} (t : task A) : M A :=
  fun s => (task_result t, s).

(** [l[0]] *)
Definition first_item {A} (l : list A) : M A :=
  match l with
  | x :: _ => ret x
  | [] => raise (mkExn (OtherError "IndexError") "list index out of range")
  end.

(** [d[k]] *)
Definition getitem (d : dict) (k : string) : M pyval :=
  match dict_get d k with
  | Some v => ret v
  | None => raise (mkExn (OtherError "KeyError") k)
  end.

(** [v[:n]] for a string [v] *)
Definition str_prefix (n : nat) (v : pyval) : M string :=
  match v with
  | VStr s => ret (substring 0 n s)
  | _ => raise (mkExn (OtherError "TypeError") "object is not subscriptable")
  end.

(** [for x in l: body x] *)
Fixpoint for_each {A} (l : list A) (body : A -> M unit) : M unit :=
  match l with
  | [] => ret tt
  | x :: l' => body x ;;; for_each l' body
  end.

(** ** The coroutines of the repository

    Time is counted in ticks of the logical clock, one tick being the
    unit of [asyncio.sleep] and of the deadline of [asyncio.wait_for].
    The banner, the progress line and the elapsed time printed by
    [basic_parallel_searches] carry no data of the results and are left
    out of it: its lines in [st_stdout] are those that report results.
    The race prints all its lines.  The agent
    object built by [create_search_agent] is a constant of the call to
    the executor and is not represented. *)

Record WebSearchItem : Type := mkItem { reason : string; query : string }.

Definition newline : string := String (ascii_of_nat 10) EmptyString.

(** The dicts built by [search_with_timeout]. *)
Definition timeout_success (q : string) (r : RunResult) : dict :=
  [ ("query", VStr q); ("result", VStr (final_output r));
    ("status", VStr "success") ].

Definition timeout_expired (q : string) : dict :=
  [ ("query", VStr q); ("result", VNone); ("status", VStr "timeout") ].

(** The dicts built by [search_with_retry]. *)
Definition retry_success (q : string) (r : RunResult) (attempts : Z) : dict :=
  [ ("query", VStr q); ("result", VStr (final_output r));
    ("attempts", VInt attempts) ].

Definition retry_failure (q : string) (e : exn) (attempts : Z) : dict :=
  [ ("query", VStr q); ("result", VNone); ("error", VStr (exc_str e));
    ("attempts", VInt attempts) ].

(** The dict built by [search_task]. *)
Definition task_report (q : string) (agent_id : Z) (r : RunResult)
           (elapsed : nat) : dict :=
  [ ("agent_id", VInt agent_id); ("query", VStr q);
    ("result", VStr (final_output r)); ("time", VInt (Z.of_nat elapsed)) ].

(** The f-string [input_msg] built by [deep_research.search]. *)
Definition input_msg (item : WebSearchItem) : string :=
  ("Search term: " ++ query item ++ newline
     ++ "Reason for searching: " ++ reason item)%string.

(** The queries of [basic_parallel_searches]. *)
Definition basic_queries : list string :=
  [ "OpenAI Agents SDK features";
    "LangGraph capabilities";
    "Crew AI framework overview" ].

Section Strategies.

Variable ex : Executor.
Variable cx : Canceller.

(** [deep_research.search] *)
Definition search (item : WebSearchItem) : M string :=
  result <- Runner_run ex (input_msg item) ;;
  ret (final_output result).

(** [deep_research.perform_searches], on the list [search_plan.searches] *)
Definition perform_searches (searches : list WebSearchItem)
  : M (list string) :=
  tasks <- create_tasks (map search searches) ;;
  results <- gather_tasks tasks ;;
  ret results.

Definition enumerate {A} (start : nat) (l : list A) : list (nat * A) :=
  combine (seq start (List.length l)) l.

(** [parallel_research.basic_parallel_searches] *)
Definition basic_parallel_searches : M unit :=
  let queries := basic_queries in
  let tasks := map (Runner_run ex) queries in
  results <- gather tasks ;;
  for_each (enumerate 1 (combine queries results))
    (fun iqr =>
       let '(i, (query, result)) := iqr in
       print (PrintResult i query (substring 0 100 (final_output result)))).

(** How the invocation that [Runner_run ex query] makes when started in
    state [s] reacts to a cancellation. *)
Definition Runner_cancelled (query : string) (s : state)
  : reaction RunResult :=
  cx (st_calls s) query.

(** [parallel_research.search_with_timeout] *)
Definition search_with_timeout (query : string) (timeout : Z) : M dict :=
  try_except
    (result <- wait_for (Runner_run ex query) (Runner_cancelled query)
                        timeout ;;
     ret (timeout_success query result))
    is_TimeoutError
    (fun _ => ret (timeout_expired query)).

(** [parallel_research.search_task]; the elapsed time is in clock ticks. *)
Definition search_task (query : string) (agent_id : Z) : M dict :=
  start <- time_time ;;
  result <- Runner_run ex query ;;
  now <- time_time ;;
  let elapsed := (now - start)%nat in
  ret (task_report query agent_id result elapsed).

(** The body of [parallel_research.race_to_answer] for a given query and
    number of agents.  [py] is the interpreter, [set_order] the order in
    which a set of coroutines is listed and [set_list] the order in which
    a set of tasks is listed: [asyncio.wait] makes a set of what it is
    given and returns two sets. *)
Definition race (py : python)
           (set_order : list (M dict) -> list (M dict))
           (set_list : list (task dict) -> list (task dict))
           (query : string) (num_agents : Z) : M unit :=
  print (PrintBanner "Pattern 3: Race Condition - First to Finish") ;;;
  print (PrintRacing num_agents query) ;;;
  let tasks :=
    map (fun i => search_task query (Z.of_nat i + 1)) (range1 num_agents) in
  dp <- wait_first_completed py set_order tasks ;;
  let '(done, pending) := dp in
  first <- first_item (set_list done) ;;
  winner <- task_result_of first ;;
  agent_id <- getitem winner "agent_id" ;;
  time <- getitem winner "time" ;;
  result <- getitem winner "result" ;;
  prefix <- str_prefix 150 result ;;
  print (PrintWinner agent_id time prefix) ;;;
  for_each (set_list pending) cancel ;;;
  print (PrintCancelled (List.length pending)) ;;;
  print PrintBlank.

(** [parallel_research.race_to_answer] *)
Definition race_to_answer (py : python)
           (set_order : list (M dict) -> list (M dict))
           (set_list : list (task dict) -> list (task dict))
  : M unit :=
  race py set_order set_list "What are AI agents?" 3.

(** The loop of [search_with_retry] over the attempts still to run. *)
Fixpoint retry_loop (query : string) (max_retries : Z) (attempts : list nat)
  : M (option dict) :=
  match attempts with
  | [] => ret None
  | attempt :: rest =>
      try_except
        (result <- Runner_run ex query ;;
         ret (Some (retry_success query result (Z.of_nat attempt + 1))))
        is_Exception
        (fun e =>
           if (Z.of_nat attempt =? max_retries - 1)%Z
           then ret (Some (retry_failure query e (Z.of_nat attempt + 1)))
           else sleep (2 ^ attempt) ;;; retry_loop query max_retries rest)
  end.

(** [parallel_research.search_with_retry]; [None] is Python's [None],
    returned when the loop ends without a [return]. *)
Definition search_with_retry (query : string) (max_retries : Z)
  : M (option dict) :=
  retry_loop query max_retries (range1 max_retries).

(** The loop of [batch_parallel_searches] over the batch start indices. *)
Fixpoint batch_loop (queries : list string) (batch_size : Z)
         (starts : list Z) (results : list RunResult)
  : M (list RunResult) :=
  match starts with
  | [] => ret results
  | i :: rest =>
      let batch := slice queries i (i + batch_size) in
      let tasks := map (Runner_run ex) batch in
      batch_results <- gather tasks ;;
      batch_loop queries batch_size rest (results ++ batch_results)
  end.

(** [parallel_research.batch_parallel_searches] *)
Definition batch_parallel_searches (queries : list string) (batch_size : Z)
  : M (list RunResult) :=
  match range3 0 (Z.of_nat (List.length queries)) batch_size with
  | inl e => raise e
  | inr starts => batch_loop queries batch_size starts []
  end.

End Strategies.

(** ** Reading the results as outcomes

    The dicts returned by the retry and deadline wrappers, read in the
    vocabulary of the specification. *)

(** A dict with an ["error"] key reports a failure (this is the test made
    by [parallel_with_error_recovery]). *)
Definition is_failed (d : dict) : bool := dict_has d "error".

Definition attempt_count (d : dict) : option pyval := dict_get d "attempts".

Definition status (d : dict) : option pyval := dict_get d "status".

(** ** Reading the oracle *)

(** The invocation completes by raising an error derived from
    [Exception]. *)
Definition failed (b : behaviour) : bool :=
  match latency b, result b with
  | Some _, Raises e => is_Exception e
  | _, _ => false
  end.

(** The invocation completes by returning a result. *)
Definition succeeded (b : behaviour) : bool :=
  match latency b, result b with
  | Some _, Returns _ => true
  | _, _ => false
  end.

Definition value_of (b : behaviour) : option RunResult :=
  match latency b, result b with
  | Some _, Returns r => Some r
  | _, _ => None
  end.

Definition error_of (b : behaviour) : option exn :=
  match latency b, result b with
  | Some _, Raises e => Some e
  | _, _ => None
  end.

(** What awaiting one invocation gives. *)
Definition outcome_of (b : behaviour) : outcome RunResult :=
  match latency b with
  | None => Hang
  | Some _ =>
      match result b with
      | Returns r => Ret r
      | Raises e => Exc e
      end
  end.

Definition map_outcome {A B} (f : A -> B) (o : outcome A) : outcome B :=
  match o with
  | Ret a => Ret (f a)
  | Exc e => Exc e
  | Hang => Hang
  end.

(** The behaviours of successive invocations, the first one being
    invocation number [c], on the given inputs. *)
Fixpoint behaviours (ex : Executor) (c : nat) (inputs : list string)
  : list behaviour :=
  match inputs with
  | [] => []
  | q :: inputs' => ex c q :: behaviours ex (S c) inputs'
  end.

(** The task of a coroutine that awaits one invocation of behaviour [b]
    and returns [f] of its result, put in flight at time [clock]. *)
Definition leaf_task {B} (f : RunResult -> B) (clock id : nat)
           (b : behaviour) : task B :=
  mkTask id (option_map (Nat.add clock) (latency b))
         (map_outcome f (outcome_of b)).

Fixpoint leaf_tasks {B} (f : RunResult -> B) (clock id : nat)
         (bs : list behaviour) : list (task B) :=
  match bs with
  | [] => []
  | b :: bs' => leaf_task f clock id b :: leaf_tasks f clock (S id) bs'
  end.

(** [c] awaits one invocation on [input] and returns [f] of its result. *)
Definition is_leaf {B} (ex : Executor) (f : RunResult -> B)
           (c : M B) (input : string) : Prop :=
  forall s,
    c s = (map_outcome f (fst (Runner_run ex input s)),
           snd (Runner_run ex input s)).

(** [outs] answers [inputs] position by position: same length, and the
    entry at index [i] is [f] of the value returned by the invocation made
    for input [i], invocation number [c + i]. *)
Definition positional {B} (ex : Executor) (c : nat) (inputs : list string)
           (f : RunResult -> B) (outs : list B) : Prop :=
  List.length outs = List.length inputs
  /\ forall i q, nth_error inputs i = Some q ->
                 exists r, value_of (ex (c + i) q) = Some r
                           /\ nth_error outs i = Some (f r).

(** The line printed by [basic_parallel_searches] for one result. *)
Definition result_line (iqr : nat * (string * RunResult)) : line :=
  let '(i, (q, r)) := iqr in
  PrintResult i q (substring 0 100 (final_output r)).

(** The coroutines of a race among the agents numbered [i + 1] for [i]
    in [agents]; those of [race] are [racers ex query (range1
    num_agents)]. *)
Definition racers (ex : Executor) (q : string) (agents : list nat)
  : list (M dict) :=
  map (fun i => search_task ex q (Z.of_nat i + 1)) agents.

(** The lines [race] prints before it waits. *)
Definition race_banner (q : string) (num_agents : Z) : list line :=
  [ PrintBanner "Pattern 3: Race Condition - First to Finish";
    PrintRacing num_agents q ].

(** The state in which [race] calls [asyncio.wait]: its first two lines
    are printed. *)
Definition racing (q : string) (num_agents : Z) (s : state) : state :=
  mkState (st_clock s) (st_calls s) (st_next_task s) (st_sleeps s)
          (st_cancelled s) (st_stdout s ++ race_banner q num_agents).

(** The task of [search_task query agent_id], put in flight at time
    [clock], whose invocation behaves as [b]. *)
Definition race_task (q : string) (clock id : nat) (agent_id : Z)
           (b : behaviour) : task dict :=
  mkTask id (option_map (Nat.add clock) (latency b))
         (match latency b with
          | None => Hang
          | Some d =>
              match result b with
              | Returns r => Ret (task_report q agent_id r d)
              | Raises e => Exc e
              end
          end).

(** The tasks of a race among the agents numbered [i + 1] for [i] in
    [agents], the first one making invocation number [c]. *)
Fixpoint race_tasks (ex : Executor) (q : string) (clock id c : nat)
         (agents : list nat) : list (task dict) :=
  match agents with
  | [] => []
  | i :: rest =>
      race_task q clock id (Z.of_nat i + 1) (ex c q)
      :: race_tasks ex q clock (S id) (S c) rest
  end.

(** ** Sample executors, used to run the coroutines on concrete inputs *)

Definition returns_after (d : nat) (out : string) : behaviour :=
  mkBehaviour (Some d) (Returns (mkRunResult out)).

Definition raises_after (d : nat) (c : exc_class) (msg : string) : behaviour :=
  mkBehaviour (Some d) (Raises (mkExn c msg)).

(** Latency decreases with the ordinal of the call; the answer echoes the
    input. *)
Definition ex_echo : Executor :=
  fun n q => returns_after (10 - n) (q ++ "!")%string.

(** The first [k] calls fail with an API error, the later ones answer. *)
Definition ex_fail_first (k : nat) : Executor :=
  fun n q =>
    if (n <? k)%nat then raises_after 1 (OtherError "APIError") "boom"
    else returns_after 5 (q ++ "!")%string.

(** Only call [k] fails, after one tick, with an error of class [c]. *)
Definition ex_fail_at (k : nat) (c : exc_class) : Executor :=
  fun n q =>
    if (n =? k)%nat then raises_after 1 c "boom"
    else returns_after (10 - n) (q ++ "!")%string.

(** Every call answers after the same time. *)
Definition ex_tie : Executor := fun _ q => returns_after 3 (q ++ "!")%string.

(** A cancelled invocation lets the cancellation through [wait] ticks
    after the request. *)
Definition stops_after (wait : nat) : Canceller :=
  fun _ _ => mkReaction (Some wait) Cancelled.

(** A cancelled invocation ignores the request and never ends. *)
Definition never_stops : Canceller :=
  fun _ _ => mkReaction None Cancelled.

(** A cancelled invocation catches the cancellation and answers two
    ticks later. *)
Definition answers_anyway : Canceller :=
  fun _ q => mkReaction (Some 2) (Returned (mkRunResult (q ++ "?")%string)).


(** A set listed in the order in which it was filled. *)
Definition in_list_order {A} (l : list A) : list A := l.

(** ** Reading the time taken *)

(** The time one invocation takes before it returns or raises; an
    invocation that never completes counts for nothing. *)
Definition duration (b : behaviour) : nat :=
  match latency b with
  | Some d => d
  | None => 0
  end.

(** The behaviours of [k] successive invocations on the same input [q],
    the first one being invocation number [c]: the attempts of a retry. *)
Definition attempts_on (ex : Executor) (c : nat) (q : string) (k : nat)
  : list behaviour :=
  behaviours ex c (repeat q k).

(** The first [k] calls fail after one tick, call [k] never completes. *)
Definition ex_fail_then_hang (k : nat) : Executor :=
  fun n q =>
    if (n <? k)%nat then raises_after 1 (OtherError "APIError") "boom"
    else if (n =? k)%nat then mkBehaviour None (Returns (mkRunResult ""))
    else returns_after 5 (q ++ "!")%string.

(** ** [asyncio.gather] with [return_exceptions=True] *)

(** [[fut.exception() or fut.result() for fut in children]]: what the
    future of [gather] is given as its result once every child is done,
    an exception raised by a child standing in the list as a value. *)
Fixpoint results_or_exceptions {A} (children : list (task A))
  : outcome (list (exn + A)) :=
  match children with
  | [] => Ret []
  | c :: cs =>
      match task_result c, results_or_exceptions cs with
      | Ret a, Ret l => Ret (inr a :: l)
      | Exc e, Ret l => Ret (inl e :: l)
      | Hang, _ => Hang
      | _, r => r
      end
  end.

(** The callback [gather] attaches to every child when
    [return_exceptions] is true: no child sets an exception on the outer
    future; when the last child is seen done the results and exceptions
    are read from the children in argument order. *)
Definition done_callback_all {A} (children : list (task A))
           (g : gather_state (exn + A)) (x : nat * nat)
  : gather_state (exn + A) :=
  let n := S (nfinished g) in
  match outer g with
  | Some _ => mkGather n (outer g)
  | None =>
      if (n =? List.length children)%nat
      then mkGather n (Some (results_or_exceptions children, snd x))
      else mkGather n None
  end.

(** [await asyncio.gather(return_exceptions=True)] on tasks in flight. *)
Definition gather_all_tasks {A} (children : list (task A))
  : M (list (exn + A)) :=
  fun s =>
    match children with
    | [] => (Ret [], s)
    | _ =>
        match outer (fold_left (done_callback_all children)
                               (completion_order children)
                               (mkGather 0 None)) with
        | Some (r, t) => (r, set_clock (Nat.max (st_clock s) t) s)
        | None => (Hang, s)
        end
    end.

(** [await asyncio.gather( *coros, return_exceptions=True)] *)
Definition gather_all {A} (coros : list (M A)) : M (list (exn + A)) :=
  ts <- create_tasks coros ;;
  gather_all_tasks ts.

(** ** Drivers: what they print

    The demonstration drivers return nothing: what they obtained is
    printed.  Their lines are kept on a transcript carried beside the
    state of the coroutines; a driver is a computation on both. *)

Inductive report : Type :=
| SayStatus (success : bool) (query status : pyval)
    (* "{icon} {query}: {status}", the icon telling success from timeout *)
| SayError (message : string)
    (* "Error: {result}" *)
| SayFailed (query attempts : pyval)
    (* "{query}: Failed after {attempts} attempts" *)
| SaySuccess (query attempts : pyval)
    (* "{query}: Success on attempt {attempts}" *)
| SayAnswer (query result : string)
    (* "Query: {query}", then the result *)
| SayBanner (title : string)
    (* a rule, the title, a rule and an empty line *)
| SayExecuting (count : nat) (how : string)
    (* "Executing {count} searches {how}..." *)
| SayResults
    (* an empty line, then "Results:" *)
| SayBlank.
    (* [print()] *)

Record console : Type := mkConsole {
  co_state : state;
  co_reports : list report
}.

Definition Script (A : Type) : Type := console -> outcome A * console.

(** A coroutine awaited by a driver. *)
Definition run {A} (c : M A) : Script A :=
  fun w =>
    let '(r, s') := c (co_state w) in
    (r, mkConsole s' (co_reports w)).

Definition say (l : report) : Script unit :=
  fun w => (Ret tt, mkConsole (co_state w) (co_reports w ++ [l])).

Definition and_then {A B} (c : Script A) (k : A -> Script B) : Script B :=
  fun w =>
    match c w with
    | (Ret a, w') => k a w'
    | (Exc e, w') => (Exc e, w')
    | (Hang, w') => (Hang, w')
    end.

Declare Scope script_scope.
Delimit Scope script_scope with script.
Notation "x <- c ;; k" := (and_then c (fun x => k))
  (at level 61, c at next level, right associativity) : script_scope.
Notation "c ;;; k" := (and_then c (fun _ => k))
  (at level 61, right associativity) : script_scope.

(** [for x in l: body x] in a driver *)
Fixpoint each {A} (l : list A) (body : A -> Script unit) : Script unit :=
  match l with
  | [] => fun w => (Ret tt, w)
  | x :: l' => and_then (body x) (fun _ => each l' body)
  end.

(** [a == b] on the values found in the dicts *)
Definition pyval_eqb (a b : pyval) : bool :=
  match a, b with
  | VNone, VNone => true
  | VStr x, VStr y => String.eqb x y
  | VInt x, VInt y => Z.eqb x y
  | _, _ => false
  end.

Definition not_iterable (type_name : string) : exn :=
  mkExn (OtherError "TypeError")
        ("argument of type '" ++ type_name ++ "' is not iterable").

(** The queries of [parallel_with_timeouts] and of
    [parallel_with_error_recovery]. *)
Definition timeout_queries : list string :=
  [ "AI agent frameworks comparison";
    "Machine learning trends 2025";
    "LLM deployment best practices" ].

Definition recovery_queries : list string :=
  [ "AI safety considerations";
    "Prompt engineering techniques";
    "RAG implementation patterns" ].

(** Retries that run side by side make their invocations in an order
    that depends on the latencies and on the event loop: the invocations
    of one retry are not consecutive among all the invocations made.
    What concurrent retries obtain is therefore given retry by retry:
    [view] is the executor as one retry sees it, the invocations of that
    retry being numbered from 0.  [st_calls] still counts the
    invocations of all the retries. *)
Definition own_calls {A} (view : Executor) (c : Executor -> M A) : M A :=
  fun s => c (fun n input => view (n - st_calls s) input) s.
    (* [c] makes no invocation numbered below [st_calls s] *)

Section Drivers.

Variable ex : Executor.
Variable cx : Canceller.

(** The executor as the retry of each query sees it, the queries being
    numbered from 0. *)
Variable replies : nat -> Executor.

(** The line printed by [parallel_with_timeouts] for one result. *)
Definition report_status (result : dict) : Script unit :=
  (status <- run (getitem result "status") ;;
   let success := pyval_eqb status (VStr "success") in
   query <- run (getitem result "query") ;;
   status <- run (getitem result "status") ;;
   say (SayStatus success query status))%script.

(** The body of [parallel_research.parallel_with_timeouts] for given
    queries and deadline; the deadline named in the progress line is
    part of its text. *)
Definition with_timeouts (queries : list string) (timeout : Z)
  : Script unit :=
  (say (SayBanner "Pattern 2: Parallel Searches with Timeouts") ;;;
   say (SayExecuting (List.length queries) "with 30s timeout") ;;;
   let tasks := map (fun query => search_with_timeout ex cx query timeout)
                    queries in
   results <- run (gather tasks) ;;
   say SayResults ;;;
   each results report_status ;;;
   say SayBlank)%script.

(** [parallel_research.parallel_with_timeouts] *)
Definition parallel_with_timeouts : Script unit :=
  with_timeouts timeout_queries 30.

(** The line printed by [parallel_with_error_recovery] for one result:
    an exception instance, [None] or a dict.  The test [in] raises on a
    value that is no container. *)
Definition report_recovery (result : exn + option dict) : Script unit :=
  match result with
  | inl e =>
      if is_Exception e then say (SayError (exc_str e))
      else run (raise (not_iterable "CancelledError"))
  | inr None => run (raise (not_iterable "NoneType"))
  | inr (Some d) =>
      if dict_has d "error"
      then (query <- run (getitem d "query") ;;
            attempts <- run (getitem d "attempts") ;;
            say (SayFailed query attempts))%script
      else (query <- run (getitem d "query") ;;
            attempts <- run (getitem d "attempts") ;;
            say (SaySuccess query attempts))%script
  end.

(** The body of [parallel_research.parallel_with_error_recovery] for
    given queries and number of attempts. *)
Definition with_error_recovery (queries : list string) (max_retries : Z)
  : Script unit :=
  (say (SayBanner "Pattern 4: Parallel Searches with Error Recovery") ;;;
   say (SayExecuting (List.length queries) "with retry logic") ;;;
   let tasks :=
     map (fun iq =>
            own_calls (replies (fst iq))
                      (fun ex => search_with_retry ex (snd iq) max_retries))
         (enumerate 0 queries) in
   results <- run (gather_all tasks) ;;
   say SayResults ;;;
   each results report_recovery ;;;
   say SayBlank)%script.

(** [parallel_research.parallel_with_error_recovery] *)
Definition parallel_with_error_recovery : Script unit :=
  with_error_recovery recovery_queries 3.

End Drivers.

(** ** The research workflow of [deep_research.py]

    The planner and the writer are agents with a structured output
    ([output_type]): the value their run ends with is a plan or a report
    and not a string.  Their invocations are counted with those of the
    search agent.  The functions of the workflow return what they
    obtained; their progress lines are left out as those of [search]
    are, and so is the [trace] context of [conduct_research], which
    records the run and lets exceptions through. *)

Record WebSearchPlan : Type := mkPlan { searches : list WebSearchItem }.

Record ReportData : Type := mkReport {
  short_summary : string;
  markdown_report : string;
  follow_up_questions : list string
}.

(** What one invocation of an agent of output type [A] does. *)
Record reply (A : Type) : Type := mkReply {
  reply_latency : option nat;
  reply_result : exn + A
}.

(** An agent of output type [A], told as [Executor] is: by the ordinal of
    the invocation among all those made and by its input. *)
Definition Agent (A : Type) : Type := nat -> string -> reply A.

(** [(await Runner.run(agent, input)).final_output] *)
Definition Runner_run_as {A} (agent : Agent A) (input : string) : M A :=
  fun s =>
    let b := agent (st_calls s) input in
    let s1 := mkState (st_clock s) (S (st_calls s)) (st_next_task s)
                      (st_sleeps s) (st_cancelled s) (st_stdout s) in
    match reply_latency b with
    | None => (Hang, s1)
    | Some d =>
        (match reply_result b with inr a => Ret a | inl e => Exc e end,
         set_clock (st_clock s + d) s1)
    end.

(** Reading a reply: the value the invocation completes with, the error
    it completes with, the time it takes. *)
Definition reply_value {A} (b : reply A) : option A :=
  match reply_latency b, reply_result b with
  | Some _, inr a => Some a
  | _, _ => None
  end.

Definition reply_error {A} (b : reply A) : option exn :=
  match reply_latency b, reply_result b with
  | Some _, inl e => Some e
  | _, _ => None
  end.

Definition reply_duration {A} (b : reply A) : nat :=
  match reply_latency b with
  | Some d => d
  | None => 0
  end.

Section Workflow.

Variable planner_agent : Agent WebSearchPlan.
Variable search_agent : Executor.
Variable writer_agent : Agent ReportData.
Variable email_agent : Executor.

(** [str(l)] for a list of strings, as the f-string of [write_report]
    formats it. *)
Variable str_of_list : list string -> string.

(** [deep_research.plan_searches] *)
Definition plan_searches (query : string) : M WebSearchPlan :=
  plan <- Runner_run_as planner_agent ("Query: " ++ query)%string ;;
  ret plan.

(** The f-string [input_msg] built by [write_report]. *)
Definition report_request (query : string) (search_results : list string)
  : string :=
  ("Original query: " ++ query ++ newline
     ++ "Summarized search results: " ++ str_of_list search_results)%string.

(** [deep_research.write_report] *)
Definition write_report (query : string) (search_results : list string)
  : M ReportData :=
  report <- Runner_run_as writer_agent (report_request query search_results) ;;
  ret report.

(** [deep_research.email_report] *)
Definition email_report (report : ReportData) : M unit :=
  result <- Runner_run email_agent (markdown_report report) ;;
  ret tt.

(** [deep_research.conduct_research] *)
Definition conduct_research (query : string) : M ReportData :=
  search_plan <- plan_searches query ;;
  search_results <- perform_searches search_agent (searches search_plan) ;;
  report <- write_report query search_results ;;
  email_report report ;;;
  ret report.

End Workflow.

(** ** One search after the other: [simple_search.py]

    The agent is built for a search context size; what it does may depend
    on it.  [simple_search] returns what it obtained, its banner is left
    out. *)

(** The queries of [multiple_searches]. *)
Definition simple_queries : list string :=
  [ "Latest AI Agent frameworks in 2025";
    "OpenAI Agents SDK vs LangGraph comparison";
    "Best practices for production AI agents" ].

Section SimpleSearch.

Variable create_search_agent : string -> Executor.

(** [simple_search.simple_search] *)
Definition simple_search (query context_size : string) : M string :=
  let search_agent := create_search_agent context_size in
  result <- Runner_run search_agent query ;;
  ret (final_output result).

(** The body of [simple_search.multiple_searches] for given queries. *)
Definition search_each (queries : list string) : Script unit :=
  each queries
       (fun query =>
          (result <- run (simple_search query "low") ;;
           say (SayAnswer query result))%script).

(** [simple_search.multiple_searches] *)
Definition multiple_searches : Script unit := search_each simple_queries.

End SimpleSearch.

(** The answers printed for the queries one after the other, the first
    invocation being number [c], up to the first one that does not
    return. *)
Fixpoint answer_lines (ex : Executor) (c : nat) (queries : list string)
  : list report :=
  match queries with
  | [] => []
  | q :: rest =>
      match value_of (ex c q) with
      | Some r => SayAnswer q (final_output r) :: answer_lines ex (S c) rest
      | None => []
      end
  end.

(** Sample agents: a planner that answers after two ticks with the plan
    given, a writer that answers after four ticks with a report whose
    text is its input. *)
Definition planner_of (plan : WebSearchPlan) : Agent WebSearchPlan :=
  fun _ _ => mkReply (Some 2) (inr plan).

Definition writer_copy : Agent ReportData :=
  fun _ input => mkReply (Some 4) (inr (mkReport "done" input ["next?"])).

Definition failing_agent (A : Type) : Agent A :=
  fun _ _ => mkReply (Some 1) (inl (mkExn (OtherError "APIError") "boom")).

Definition comma_list (l : list string) : string := String.concat ", " l.

Definition two_searches : WebSearchPlan :=
  mkPlan [mkItem "why" "a"; mkItem "why" "b"].

(** What [ex_echo] answers to the two searches of [two_searches], and the
    report [writer_copy] then writes for the query ["q"]. *)
Definition two_results : list RunResult :=
  map (fun item => mkRunResult (input_msg item ++ "!")%string)
      (searches two_searches).

Definition copied_report : ReportData :=
  mkReport "done"
           (report_request comma_list "q" (map final_output two_results))
           ["next?"].

(** ** Reading the deadline wrapper *)

(** The lines [parallel_with_timeouts] prints before it waits. *)
Definition timeouts_banner (queries : list string) : list report :=
  [ SayBanner "Pattern 2: Parallel Searches with Timeouts";
    SayExecuting (List.length queries) "with 30s timeout" ].

(** The invocation completes strictly before [limit] ticks have passed. *)
Definition in_time (limit : nat) (b : behaviour) : bool :=
  match latency b with
  | Some d => (d <? limit)%nat
  | None => false
  end.

(** What [search_with_timeout] makes of an invocation that completed in
    time. *)
Definition early_outcome (q : string) (b : behaviour) : outcome dict :=
  match result b with
  | Returns r => Ret (timeout_success q r)
  | Raises e => if is_TimeoutError e then Ret (timeout_expired q) else Exc e
  end.

(** What it makes of an invocation cancelled at the deadline, once that
    invocation has ended. *)
Definition late_outcome (q : string) (c : reaction RunResult)
  : outcome dict :=
  match stop_result c with
  | Cancelled => Ret (timeout_expired q)
  | Returned r => Ret (timeout_success q r)
  | Raised e =>
      if is_CancelledError e || is_TimeoutError e
      then Ret (timeout_expired q)
      else Exc e
  end.

(** The task of [search_with_timeout query timeout] for a deadline of
    [limit >= 1] ticks, put in flight at time [clock], whose invocation
    behaves as [b] and reacts to a cancellation as [c]. *)
Definition timeout_task (q : string) (limit clock id : nat) (b : behaviour)
           (c : reaction RunResult) : task dict :=
  if in_time limit b
  then mkTask id (Some (clock + duration b)) (early_outcome q b)
  else match stop_delay c with
       | Some wait =>
           mkTask id (Some (clock + limit + wait)) (late_outcome q c)
       | None => mkTask id None Hang
       end.

(** The tasks of [parallel_with_timeouts]: one per query, each taking two
    task identifiers (its own and that of the call it awaits), the first
    one making invocation number [c]. *)
Fixpoint timeout_tasks (ex : Executor) (cx : Canceller)
         (limit clock id c : nat) (queries : list string)
  : list (task dict) :=
  match queries with
  | [] => []
  | q :: rest =>
      timeout_task q limit clock id (ex c q) (cx c q)
      :: timeout_tasks ex cx limit clock (S (S id)) (S c) rest
  end.

(** The invocation gave an answer: it returned in time, or it was
    cancelled at the deadline and returned all the same. *)
Definition answered (limit : nat) (b : behaviour) (c : reaction RunResult)
  : bool :=
  if in_time limit b
  then match result b with Returns _ => true | Raises _ => false end
  else match stop_result c with Returned _ => true | _ => false end.

(** The status lines for queries whose invocations are numbered from [c]
    on: success for an invocation that gave an answer, timeout
    otherwise. *)
Definition status_line (limit : nat) (b : behaviour)
           (c : reaction RunResult) (q : string) : report :=
  if answered limit b c
  then SayStatus true (VStr q) (VStr "success")
  else SayStatus false (VStr q) (VStr "timeout").

Fixpoint status_lines (ex : Executor) (cx : Canceller) (limit c : nat)
         (queries : list string) : list report :=
  match queries with
  | [] => []
  | q :: rest =>
      status_line limit (ex c q) (cx c q) q
      :: status_lines ex cx limit (S c) rest
  end.

(** ** Reading the error-recovery driver *)

(** The lines [parallel_with_error_recovery] prints before it waits. *)
Definition recovery_banner (queries : list string) : list report :=
  [ SayBanner "Pattern 4: Parallel Searches with Error Recovery";
    SayExecuting (List.length queries) "with retry logic" ].

(** The retry of the [i]-th query [q] of the driver, for [iq = (i, q)]. *)
Definition recovery_task (replies : nat -> Executor) (max_retries : Z)
           (iq : nat * string) : M (option dict) :=
  own_calls (replies (fst iq))
            (fun ex => search_with_retry ex (snd iq) max_retries).

(** The first of [n] attempts that the executor, as a retry sees it,
    answers. *)
Definition first_answer (view : Executor) (q : string) (n : nat)
  : option nat :=
  find (fun k => succeeded (view k q)) (seq 0 n).

(** The line for the [i]-th query [q] when every attempt completes and
    fails with an error derived from [Exception] until one is answered:
    success on the first attempt answered, counted from 1, or failure
    after [max_retries] attempts. *)
Definition recovery_line (replies : nat -> Executor) (max_retries : Z)
           (iq : nat * string) : report :=
  match first_answer (replies (fst iq)) (snd iq) (Z.to_nat max_retries) with
  | Some k => SaySuccess (VStr (snd iq)) (VInt (Z.of_nat k + 1))
  | None => SayFailed (VStr (snd iq)) (VInt max_retries)
  end.

(** What the retry of the [i]-th query [q] gives in that case. *)
Definition retried (replies : nat -> Executor) (max_retries : Z)
           (iq : nat * string) (o : outcome (option dict)) : Prop :=
  match first_answer (replies (fst iq)) (snd iq) (Z.to_nat max_retries) with
  | Some k =>
      exists r, o = Ret (Some (retry_success (snd iq) r (Z.of_nat k + 1)))
  | None => exists e, o = Ret (Some (retry_failure (snd iq) e max_retries))
  end.

(** The first retry fails twice before it is answered, the second one is
    answered at once, the third one fails every time. *)
Definition sample_replies : nat -> Executor :=
  fun i k q =>
    match i with
    | 0 => if (k <? 2)%nat then raises_after 1 (OtherError "APIError") "boom"
           else returns_after 5 (q ++ "!")%string
    | 1 => returns_after 5 (q ++ "!")%string
    | _ => raises_after 1 (OtherError "APIError") "boom"
    end.

(** The first invocation of the first retry is cancelled; everything
    else is answered. *)
Definition cancelled_first : nat -> Executor :=
  fun i k q =>
    match i, k with
    | 0, 0 => raises_after 1 CancelledError "boom"
    | _, _ => returns_after 5 (q ++ "!")%string
    end.

(** A line of the error-recovery driver that reports an exception
    found among the results. *)
Definition is_error_line (l : report) : bool :=
  match l with
  | SayError _ => true
  | _ => false
  end.

(** What a task left in the list of [gather]: its value, or the exception
    it raised. *)
Definition collected {A} (r : exn + A) : outcome A :=
  match r with
  | inl e => Exc e
  | inr a => Ret a
  end.

(** The state after one invocation that completes in [d] ticks. *)
Definition after_call (d : nat) (s : state) : state :=
  mkState (st_clock s + d) (S (st_calls s)) (st_next_task s)
          (st_sleeps s) (st_cancelled s) (st_stdout s).

Unset Implicit Arguments.

(** * Properties *)

(** ** The retry loop *)

Section Retry.

Variable ex : Executor.
Variable q : string.
Variable max_retries : Z.

Lemma failed_inv b :
  failed b = true ->
  exists d e, b = mkBehaviour (Some d) (Raises e) /\ is_Exception e = true.
Proof.
  destruct b as [[d|] [r|e]]; simpl; try discriminate.
  intros H. now exists d, e.
Qed.

Lemma succeeded_inv b :
  succeeded b = true ->
  exists d r, b = mkBehaviour (Some d) (Returns r).
Proof.
  destruct b as [[d|] [r|e]]; simpl; try discriminate.
  intros _. now exists d, r.
Qed.

(** One failed attempt that is not the last: sleep, then go on. *)
Lemma retry_loop_step_failed a rest s :
  failed (ex (st_calls s) q) = true ->
  Z.of_nat a <> (max_retries - 1)%Z ->
  exists s',
    retry_loop ex q max_retries (a :: rest) s
      = retry_loop ex q max_retries rest s'
    /\ st_calls s' = S (st_calls s)
    /\ st_sleeps s' = st_sleeps s ++ [2 ^ a]
    /\ st_cancelled s' = st_cancelled s
    /\ st_stdout s' = st_stdout s
    /\ st_next_task s' = st_next_task s.
Proof.
  intros Hf Hne.
  destruct (failed_inv _ Hf) as (d & e & Hb & He).
  eexists. split.
  - cbn [retry_loop]. unfold try_except at 1, bind at 1, Runner_run.
    rewrite Hb. cbn [latency result]. rewrite He.
    destruct (Z.eqb_spec (Z.of_nat a) (max_retries - 1)); [contradiction|].
    unfold bind at 1, sleep. reflexivity.
  - cbn. repeat split; reflexivity.
Qed.

(** A run of failed attempts, none of them the last. *)
Lemma retry_loop_failures n : forall a rest s,
  (forall j, j < n -> failed (ex (st_calls s + j) q) = true) ->
  (forall j, j < n -> Z.of_nat (a + j) <> (max_retries - 1)%Z) ->
  exists s',
    retry_loop ex q max_retries (seq a n ++ rest) s
      = retry_loop ex q max_retries rest s'
    /\ st_calls s' = st_calls s + n
    /\ st_sleeps s' = st_sleeps s ++ map (Nat.pow 2) (seq a n)
    /\ st_cancelled s' = st_cancelled s
    /\ st_stdout s' = st_stdout s
    /\ st_next_task s' = st_next_task s.
Proof.
  induction n as [|n IH]; intros a rest s Hf Hne.
  - exists s. cbn. rewrite app_nil_r, Nat.add_0_r. repeat split; reflexivity.
  - destruct (retry_loop_step_failed a (seq (S a) n ++ rest) s)
      as (s1 & E1 & C1 & S1 & X1 & O1 & T1).
    + specialize (Hf 0). rewrite Nat.add_0_r in Hf. apply Hf. lia.
    + specialize (Hne 0). rewrite Nat.add_0_r in Hne. apply Hne. lia.
    + destruct (IH (S a) rest s1) as (s2 & E2 & C2 & S2 & X2 & O2 & T2).
      * intros j Hj. rewrite C1.
        replace (S (st_calls s) + j) with (st_calls s + S j) by lia.
        apply Hf. lia.
      * intros j Hj. replace (S a + j) with (a + S j) by lia.
        apply Hne. lia.
      * exists s2. cbn [seq app]. rewrite E1, E2.
        split; [reflexivity|].
        rewrite C2, C1, S2, S1, X2, X1, O2, O1, T2, T1.
        cbn [map]. rewrite <- app_assoc. cbn [app].
        repeat split; try reflexivity; lia.
Qed.

(** The attempt that succeeds ends the loop. *)
Lemma retry_loop_step_succeeded a rest s r :
  value_of (ex (st_calls s) q) = Some r ->
  exists s',
    retry_loop ex q max_retries (a :: rest) s
      = (Ret (Some (retry_success q r (Z.of_nat a + 1))), s')
    /\ st_calls s' = S (st_calls s)
    /\ st_sleeps s' = st_sleeps s.
Proof.
  intros Hv. unfold value_of in Hv.
  destruct (ex (st_calls s) q) as [[d|] [r'|e]] eqn:Hb;
    cbn in Hv; try discriminate.
  injection Hv as ->.
  eexists. split.
  - cbn [retry_loop]. unfold try_except, bind, Runner_run.
    rewrite Hb. cbn. reflexivity.
  - cbn. split; reflexivity.
Qed.

(** The last attempt, when it fails, ends the loop with the error. *)
Lemma retry_loop_step_last a rest s e :
  failed (ex (st_calls s) q) = true ->
  error_of (ex (st_calls s) q) = Some e ->
  Z.of_nat a = (max_retries - 1)%Z ->
  exists s',
    retry_loop ex q max_retries (a :: rest) s
      = (Ret (Some (retry_failure q e (Z.of_nat a + 1))), s')
    /\ st_calls s' = S (st_calls s)
    /\ st_sleeps s' = st_sleeps s.
Proof.
  intros Hf He Ha.
  destruct (failed_inv _ Hf) as (d & e' & Hb & Hc).
  rewrite Hb in He. cbn in He. injection He as ->.
  eexists. split.
  - cbn [retry_loop]. unfold try_except, bind, Runner_run.
    rewrite Hb. cbn [latency result]. rewrite Hc.
    rewrite (proj2 (Z.eqb_eq _ _) Ha). reflexivity.
  - cbn. split; reflexivity.
Qed.

(** An attempt that raises outside [Exception] ends the loop by raising. *)
Lemma retry_loop_step_uncaught a rest s e :
  error_of (ex (st_calls s) q) = Some e ->
  is_Exception e = false ->
  exists s',
    retry_loop ex q max_retries (a :: rest) s = (Exc e, s')
    /\ st_calls s' = S (st_calls s)
    /\ st_sleeps s' = st_sleeps s.
Proof.
  intros He Hc. unfold error_of in He.
  destruct (ex (st_calls s) q) as [[d|] [r'|e']] eqn:Hb;
    cbn in He; try discriminate.
  injection He as ->.
  eexists. split.
  - cbn [retry_loop]. unfold try_except, bind, Runner_run.
    rewrite Hb. cbn [latency result]. rewrite Hc. reflexivity.
  - cbn. split; reflexivity.
Qed.

(** Whatever the executor does, the attempts made and the delays slept
    go together: one sleep of [2 ^ attempt] after every attempt but the
    last one made. *)
Lemma retry_loop_delays n : forall a s,
  n = 0 \/ Z.of_nat (a + n) = max_retries ->
  exists m,
    st_calls (snd (retry_loop ex q max_retries (seq a n) s)) = st_calls s + m
    /\ (1 <= n -> 1 <= m)
    /\ m <= n
    /\ st_sleeps (snd (retry_loop ex q max_retries (seq a n) s))
       = st_sleeps s ++ map (Nat.pow 2) (seq a (m - 1)).
Proof.
  induction n as [|n IH]; intros a s Hn.
  - exists 0. cbn. rewrite app_nil_r. repeat split; lia.
  - destruct Hn as [Hn|Hn]; [discriminate|].
    remember (retry_loop ex q max_retries (seq a (S n)) s) as R eqn:HR.
    cbn [seq retry_loop] in HR. unfold try_except, bind, Runner_run in HR.
    destruct (ex (st_calls s) q) as [[d|] [r|e]];
      cbn [latency result] in HR.
    + subst R. exists 1. cbn. rewrite app_nil_r. repeat split; lia.
    + destruct (is_Exception e).
      * destruct (Z.eqb_spec (Z.of_nat a) (max_retries - 1)) as [Hl|Hl].
        -- subst R. exists 1. cbn. rewrite app_nil_r. repeat split; lia.
        -- unfold sleep in HR.
           match type of HR with
           | _ = retry_loop ex q max_retries (seq (S a) n) ?s1 =>
               destruct (IH (S a) s1) as (m & Hc & Hm & Hle & Hs)
           end.
           { right. lia. }
           assert (1 <= n) by lia.
           exists (S m). subst R. rewrite Hc, Hs.
           unfold set_clock. cbn [st_calls st_sleeps].
           repeat split; try lia.
           rewrite <- app_assoc. cbn [app].
           replace (S m - 1) with (S (m - 1)) by lia.
           cbn [seq map]. reflexivity.
      * subst R. exists 1. cbn. rewrite app_nil_r. repeat split; lia.
    + subst R. exists 1. cbn. rewrite app_nil_r. repeat split; lia.
    + subst R. exists 1. cbn. rewrite app_nil_r. repeat split; lia.
Qed.

End Retry.

(** *** Outcome of the retry loop *)

Lemma range1_split (n k : nat) :
  k < n -> seq 0 n = seq 0 k ++ k :: seq (S k) (n - S k).
Proof.
  intros Hk. replace n with (k + S (n - S k)) at 1 by lia.
  rewrite seq_app. reflexivity.
Qed.

(** C5: with [max_retries >= 1], when every attempt fails the call returns
    the failure dict carrying the last error and [attempts = max_retries],
    after exactly [max_retries] invocations; when attempt [k+1] is the
    first to succeed the call returns the success dict with
    [attempts = k+1] after exactly [k+1] invocations. *)
Theorem search_with_retry_outcome
        (ex : Executor) (q : string) (max_retries : Z) (s : state) :
  (1 <= max_retries)%Z ->
  ((forall j, j < Z.to_nat max_retries ->
              failed (ex (st_calls s + j) q) = true) ->
   forall e,
     error_of (ex (st_calls s + (Z.to_nat max_retries - 1)) q) = Some e ->
     exists s',
       search_with_retry ex q max_retries s
         = (Ret (Some (retry_failure q e max_retries)), s')
       /\ is_failed (retry_failure q e max_retries) = true
       /\ attempt_count (retry_failure q e max_retries)
          = Some (VInt max_retries)
       /\ st_calls s' = st_calls s + Z.to_nat max_retries)
  /\
  (forall k r,
     k < Z.to_nat max_retries ->
     (forall j, j < k -> failed (ex (st_calls s + j) q) = true) ->
     value_of (ex (st_calls s + k) q) = Some r ->
     exists s',
       search_with_retry ex q max_retries s
         = (Ret (Some (retry_success q r (Z.of_nat k + 1))), s')
       /\ is_failed (retry_success q r (Z.of_nat k + 1)) = false
       /\ attempt_count (retry_success q r (Z.of_nat k + 1))
          = Some (VInt (Z.of_nat k + 1))
       /\ st_calls s' = st_calls s + k + 1).
Proof.
  intros Hmax. unfold search_with_retry, range1.
  set (n := Z.to_nat max_retries).
  assert (Hn : Z.of_nat n = max_retries) by (subst n; lia).
  split.
  - intros Hall e He.
    rewrite (@range1_split n (n - 1)) by lia.
    destruct (@retry_loop_failures ex q max_retries (n - 1) 0
                ((n - 1) :: seq (S (n - 1)) (n - S (n - 1))) s)
      as (s1 & E1 & C1 & _).
    { intros j Hj. apply Hall. lia. }
    { intros j Hj. cbn. lia. }
    rewrite <- C1 in He.
    destruct (@retry_loop_step_last ex q max_retries (n - 1)
                (seq (S (n - 1)) (n - S (n - 1))) s1 e)
      as (s2 & E2 & C2 & _); trivial.
    { rewrite C1. apply Hall. lia. }
    { lia. }
    exists s2. rewrite E1, E2.
    replace (Z.of_nat (n - 1) + 1)%Z with max_retries by lia.
    repeat split; try reflexivity. lia.
  - intros k r Hk Hpre Hv.
    rewrite (@range1_split n k) by lia.
    destruct (@retry_loop_failures ex q max_retries k 0
                (k :: seq (S k) (n - S k)) s)
      as (s1 & E1 & C1 & _).
    { exact Hpre. }
    { intros j Hj. cbn. lia. }
    rewrite <- C1 in Hv.
    destruct (@retry_loop_step_succeeded ex q max_retries k
                (seq (S k) (n - S k)) s1 r Hv)
      as (s2 & E2 & C2 & _).
    exists s2. rewrite E1, E2.
    repeat split; try reflexivity. lia.
Qed.

(** The executor that fails twice then answers: three attempts allowed
    give a success on attempt 3, two give a failure with [attempts = 2]. *)
Lemma search_with_retry_outcome_witness :
  (exists s',
     search_with_retry (ex_fail_first 2) "q" 3 initial_state
       = (Ret (Some (retry_success "q" (mkRunResult "q!") 3)), s')
     /\ is_failed (retry_success "q" (mkRunResult "q!") 3) = false
     /\ attempt_count (retry_success "q" (mkRunResult "q!") 3)
        = Some (VInt 3)
     /\ st_calls s' = 3)
  /\
  (exists s',
     search_with_retry (ex_fail_first 2) "q" 2 initial_state
       = (Ret (Some (retry_failure "q"
                       (mkExn (OtherError "APIError") "boom") 2)), s')
     /\ is_failed (retry_failure "q"
                     (mkExn (OtherError "APIError") "boom") 2) = true
     /\ attempt_count (retry_failure "q"
                         (mkExn (OtherError "APIError") "boom") 2)
        = Some (VInt 2)
     /\ st_calls s' = 2).
Proof.
  split.
  - apply (proj2 (search_with_retry_outcome (ex_fail_first 2) "q" 3
                    initial_state ltac:(lia)) 2 (mkRunResult "q!")).
    + simpl. lia.
    + intros j Hj. destruct j as [|[|j]]; [reflexivity|reflexivity|lia].
    + reflexivity.
  - apply (proj1 (search_with_retry_outcome (ex_fail_first 2) "q" 2
                    initial_state ltac:(lia))).
    + intros j Hj. change (Z.to_nat 2) with 2 in Hj.
      destruct j as [|[|j]]; [reflexivity|reflexivity|lia].
    + reflexivity.
Defined.

(** *** What is retried *)

Lemma error_of_failed b e :
  error_of b = Some e -> is_Exception e = true -> failed b = true.
Proof.
  destruct b as [[d|] [r|e']]; cbn; try discriminate.
  intros [= ->]. trivial.
Qed.

Lemma is_TimeoutError_is_Exception e :
  is_TimeoutError e = true -> is_Exception e = true.
Proof.
  unfold is_TimeoutError, is_Exception.
  destruct (exc_type e); trivial; discriminate.
Qed.

(** C6 (amended): after [k] failed attempts, an attempt that raises outside
    [Exception] (a cancellation) is not retried: the error leaves the call
    as a raised exception after [k+1] invocations.  An attempt that raises
    a timeout error is retried like any other failure: unless it was the
    last one allowed, the backoff delays [1, 2, .., 2^k] are slept and at
    least one further invocation is made. *)
Theorem search_with_retry_retries_timeouts
        (ex : Executor) (q : string) (max_retries : Z) (s : state)
        (k : nat) (e : exn) :
  k < Z.to_nat max_retries ->
  (forall j, j < k -> failed (ex (st_calls s + j) q) = true) ->
  error_of (ex (st_calls s + k) q) = Some e ->
  (is_Exception e = false ->
   exists s',
     search_with_retry ex q max_retries s = (Exc e, s')
     /\ st_calls s' = st_calls s + k + 1)
  /\
  (is_TimeoutError e = true ->
   S k < Z.to_nat max_retries ->
   st_calls s + k + 2
     <= st_calls (snd (search_with_retry ex q max_retries s))
   /\ exists later,
       st_sleeps (snd (search_with_retry ex q max_retries s))
       = st_sleeps s ++ map (Nat.pow 2) (seq 0 (S k)) ++ later).
Proof.
  intros Hk Hpre He. unfold search_with_retry, range1.
  set (n := Z.to_nat max_retries) in *.
  assert (Hn : Z.of_nat n = max_retries) by (subst n; lia).
  split.
  - intros Hc.
    rewrite (range1_split n k) by lia.
    destruct (retry_loop_failures ex q max_retries k 0
                (k :: seq (S k) (n - S k)) s)
      as (s1 & E1 & C1 & _).
    { exact Hpre. }
    { intros j Hj. cbn. lia. }
    rewrite <- C1 in He.
    destruct (retry_loop_step_uncaught ex q max_retries k
                (seq (S k) (n - S k)) s1 e He Hc)
      as (s2 & E2 & C2 & _).
    exists s2. rewrite E1, E2. split; [reflexivity|lia].
  - intros Ht Hmore.
    replace (seq 0 n) with (seq 0 (S k) ++ seq (S k) (n - S k)).
    2:{ rewrite <- seq_app. f_equal. lia. }
    destruct (retry_loop_failures ex q max_retries (S k) 0
                (seq (S k) (n - S k)) s)
      as (s1 & E1 & C1 & S1 & _).
    { intros j Hj. destruct (Nat.eq_dec j k) as [->|Hne].
      - apply (error_of_failed _ e He).
        now apply is_TimeoutError_is_Exception.
      - apply Hpre. lia. }
    { intros j Hj. cbn [Nat.add]. lia. }
    rewrite E1.
    destruct (retry_loop_delays ex q max_retries (n - S k) (S k) s1)
      as (m & Hc & Hm & _ & Hs).
    { right. lia. }
    rewrite Hc, Hs, S1. split.
    + assert (1 <= m) by (apply Hm; lia). lia.
    + eexists. rewrite <- app_assoc. reflexivity.
Qed.

Lemma search_with_retry_retries_timeouts_witness :
  (exists s',
     search_with_retry (ex_fail_at 0 CancelledError) "q" 3 initial_state
       = (Exc (mkExn CancelledError "boom"), s')
     /\ st_calls s' = 0 + 0 + 1)
  /\
  (0 + 0 + 2
     <= st_calls (snd (search_with_retry (ex_fail_at 0 TimeoutError) "q" 3
                                         initial_state))
   /\ exists later,
       st_sleeps (snd (search_with_retry (ex_fail_at 0 TimeoutError) "q" 3
                                         initial_state))
       = [] ++ map (Nat.pow 2) (seq 0 1) ++ later).
Proof.
  split.
  - apply (proj1 (search_with_retry_retries_timeouts
                    (ex_fail_at 0 CancelledError) "q" 3 initial_state 0
                    (mkExn CancelledError "boom")
                    ltac:(simpl; lia) ltac:(intros j Hj; lia)
                    ltac:(reflexivity))).
    reflexivity.
  - apply (proj2 (search_with_retry_retries_timeouts
                    (ex_fail_at 0 TimeoutError) "q" 3 initial_state 0
                    (mkExn TimeoutError "boom")
                    ltac:(simpl; lia) ltac:(intros j Hj; lia)
                    ltac:(reflexivity))).
    + reflexivity.
    + simpl. lia.
Defined.

(** C6 as stated fails: the first attempt raises a timeout error, yet a
    second attempt is made and the outcome returned carries
    [attempts = 2]. *)
Lemma search_with_retry_timeout_counterexample :
  exists d s',
    error_of (ex_fail_at 0 TimeoutError 0 "q")
      = Some (mkExn TimeoutError "boom")
    /\ search_with_retry (ex_fail_at 0 TimeoutError) "q" 3 initial_state
       = (Ret (Some d), s')
    /\ attempt_count d = Some (VInt 2)
    /\ attempt_count d <> Some (VInt 1)
    /\ st_calls s' = 2
    /\ st_sleeps s' = [1].
Proof.
  eexists. eexists. repeat split; try reflexivity. discriminate.
Qed.

(** *** Backoff *)

Lemma backoff_delays k :
  map (fun i => 1 * 2 ^ (i - 1)) (seq 1 k) = map (Nat.pow 2) (seq 0 k).
Proof.
  rewrite <- seq_shift, map_map. apply map_ext. intros i.
  cbn [Nat.sub]. rewrite Nat.sub_0_r. lia.
Qed.

Section Backoff.

Variable ex : Executor.
Variable q : string.
Variable max_retries : Z.

(** A failed attempt that is not the last leaves the loop about to
    sleep: the invocation is over, the delay not yet begun. *)
Lemma retry_loop_failed_then_sleep a rest s :
  failed (ex (st_calls s) q) = true ->
  Z.of_nat a <> (max_retries - 1)%Z ->
  exists s1,
    retry_loop ex q max_retries (a :: rest) s
      = (sleep (2 ^ a) ;;; retry_loop ex q max_retries rest) s1
    /\ st_calls s1 = S (st_calls s)
    /\ st_sleeps s1 = st_sleeps s
    /\ st_clock s1 = st_clock s + duration (ex (st_calls s) q).
Proof.
  intros Hf Hne.
  destruct (failed_inv _ Hf) as (d & e & Hb & He).
  eexists. split.
  - cbn [retry_loop]. unfold try_except at 1, bind at 1, Runner_run.
    rewrite Hb. cbn [latency result]. rewrite He.
    destruct (Z.eqb_spec (Z.of_nat a) (max_retries - 1)); [contradiction|].
    reflexivity.
  - rewrite Hb. cbn. repeat split; reflexivity.
Qed.

Lemma attempts_on_last k : forall c,
  list_sum (map duration (attempts_on ex c q (S k)))
  = list_sum (map duration (attempts_on ex c q k)) + duration (ex (c + k) q).
Proof.
  induction k as [|k IH]; intros c.
  - unfold attempts_on, list_sum. cbn [repeat behaviours map fold_right].
    replace (c + 0) with c by lia. lia.
  - change (attempts_on ex c q (S (S k)))
      with (ex c q :: attempts_on ex (S c) q (S k)).
    change (attempts_on ex c q (S k))
      with (ex c q :: attempts_on ex (S c) q k).
    cbn [map].
    change (list_sum (duration (ex c q)
                      :: map duration (attempts_on ex (S c) q (S k))))
      with (duration (ex c q)
            + list_sum (map duration (attempts_on ex (S c) q (S k)))).
    change (list_sum (duration (ex c q)
                      :: map duration (attempts_on ex (S c) q k)))
      with (duration (ex c q)
            + list_sum (map duration (attempts_on ex (S c) q k))).
    rewrite IH.
    replace (S c + k) with (c + S k) by lia. lia.
Qed.

(** A run of failed attempts, none of them the last, with the time it
    takes: the invocations and the delays, one after the other. *)
Lemma retry_loop_failures_clock n : forall a rest s,
  (forall j, j < n -> failed (ex (st_calls s + j) q) = true) ->
  (forall j, j < n -> Z.of_nat (a + j) <> (max_retries - 1)%Z) ->
  exists s',
    retry_loop ex q max_retries (seq a n ++ rest) s
      = retry_loop ex q max_retries rest s'
    /\ st_calls s' = st_calls s + n
    /\ st_sleeps s' = st_sleeps s ++ map (Nat.pow 2) (seq a n)
    /\ st_clock s'
       = st_clock s
         + list_sum (map duration (attempts_on ex (st_calls s) q n))
         + list_sum (map (Nat.pow 2) (seq a n)).
Proof.
  induction n as [|n IH]; intros a rest s Hf Hne.
  - exists s. cbn. rewrite app_nil_r, !Nat.add_0_r. repeat split; reflexivity.
  - destruct (retry_loop_failed_then_sleep a (seq (S a) n ++ rest) s)
      as (s1 & E1 & C1 & S1 & K1).
    + specialize (Hf 0). rewrite Nat.add_0_r in Hf. apply Hf. lia.
    + specialize (Hne 0). rewrite Nat.add_0_r in Hne. apply Hne. lia.
    + unfold bind at 1, sleep in E1.
      match type of E1 with
      | _ = retry_loop _ _ _ _ ?s2 =>
          destruct (IH (S a) rest s2) as (s3 & E3 & C3 & S3 & K3)
      end.
      * intros j Hj. cbn [st_calls]. rewrite C1.
        replace (S (st_calls s) + j) with (st_calls s + S j) by lia.
        apply Hf. lia.
      * intros j Hj. replace (S a + j) with (a + S j) by lia.
        apply Hne. lia.
      * cbn [st_calls st_sleeps st_clock] in C3, S3, K3.
        exists s3. cbn [seq app]. rewrite E1, E3.
        split; [reflexivity|].
        rewrite C3, S3, K3, C1, S1, K1.
        change (attempts_on ex (st_calls s) q (S n))
          with (ex (st_calls s) q :: attempts_on ex (S (st_calls s)) q n).
        unfold list_sum. cbn [map fold_right].
        rewrite <- app_assoc. cbn [app].
        repeat split; try reflexivity; lia.
Qed.

(** The loop only adds to the invocation count and to the clock. *)
Lemma retry_loop_grows l : forall s,
  st_calls s <= st_calls (snd (retry_loop ex q max_retries l s))
  /\ st_clock s <= st_clock (snd (retry_loop ex q max_retries l s)).
Proof.
  induction l as [|a l IH]; intros s.
  - cbn. split; lia.
  - remember (retry_loop ex q max_retries (a :: l) s) as R eqn:HR.
    cbn [retry_loop] in HR. unfold try_except, bind, Runner_run in HR.
    destruct (ex (st_calls s) q) as [[d|] [r|e]];
      cbn [latency result] in HR.
    + subst R. cbn. split; lia.
    + destruct (is_Exception e).
      * destruct (Z.eqb (Z.of_nat a) (max_retries - 1)).
        -- subst R. cbn. split; lia.
        -- unfold sleep in HR.
           match type of HR with
           | _ = retry_loop _ _ _ _ ?s1 => destruct (IH s1) as (Hc & Hk)
           end.
           rewrite <- HR in Hc, Hk. cbn in Hc, Hk. split; lia.
      * subst R. cbn. split; lia.
    + subst R. cbn. split; lia.
    + subst R. cbn. split; lia.
Qed.

(** The loop makes its first attempt, whatever follows. *)
Lemma retry_loop_first_attempt a rest s :
  S (st_calls s) <= st_calls (snd (retry_loop ex q max_retries (a :: rest) s))
  /\ st_clock s + duration (ex (st_calls s) q)
     <= st_clock (snd (retry_loop ex q max_retries (a :: rest) s)).
Proof.
  remember (retry_loop ex q max_retries (a :: rest) s) as R eqn:HR.
  cbn [retry_loop] in HR. unfold try_except, bind, Runner_run in HR.
  unfold duration.
  destruct (ex (st_calls s) q) as [[d|] [r|e]];
    cbn [latency result] in HR |- *.
  - subst R. cbn. split; lia.
  - destruct (is_Exception e).
    + destruct (Z.eqb (Z.of_nat a) (max_retries - 1)).
      * subst R. cbn. split; lia.
      * unfold sleep in HR.
        match type of HR with
        | _ = retry_loop _ _ _ _ ?s1 =>
            destruct (retry_loop_grows rest s1) as (Hc & Hk)
        end.
        rewrite <- HR in Hc, Hk. cbn in Hc, Hk. split; lia.
    + subst R. cbn. split; lia.
  - subst R. cbn. split; lia.
  - subst R. cbn. split; lia.
Qed.

End Backoff.

(** C7: the delay between attempt [i] and attempt [i+1] of
    [search_with_retry] (attempts counted from 1, [i < max_retries]) is
    [1 * 2^(i-1)].  When the first [i] attempts fail, the run reaches a
    state [s_i] in which attempt [i] has just failed: [i] invocations
    made, the earlier delays [1, 2, .., 2^(i-2)] slept, the time spent
    being the time of the [i] invocations and of these delays.  From
    there the run sleeps [1 * 2^(i-1)] and then goes on with attempt
    [i+1], which is made, after the delay.  In the whole run the delays
    slept are [1, 2, 4, ..], one after each attempt made but the last:
    base delay 1, nothing added, no cap, and no delay after the attempt
    that ends the run. *)
Theorem search_with_retry_backoff
        (ex : Executor) (q : string) (max_retries : Z) (s : state) (i : nat) :
  1 <= i -> (Z.of_nat i < max_retries)%Z ->
  (forall j, j < i -> failed (ex (st_calls s + j) q) = true) ->
  let delay := fun k => 1 * 2 ^ (k - 1) in
  let R := search_with_retry ex q max_retries s in
  exists s_i,
    st_calls s_i = st_calls s + i
    /\ st_sleeps s_i = st_sleeps s ++ map delay (seq 1 (i - 1))
    /\ st_clock s_i
       = st_clock s
         + list_sum (map duration (attempts_on ex (st_calls s) q i))
         + list_sum (map delay (seq 1 (i - 1)))
    /\ R = (sleep (delay i) ;;;
            retry_loop ex q max_retries (seq i (Z.to_nat max_retries - i)))
             s_i
    /\ st_calls s + i + 1 <= st_calls (snd R)
    /\ st_clock s_i + delay i + duration (ex (st_calls s + i) q)
       <= st_clock (snd R)
    /\ st_sleeps (snd R)
       = st_sleeps s
         ++ map delay (seq 1 (st_calls (snd R) - st_calls s - 1)).
Proof.
  intros Hi Hmax Hf. cbv zeta.
  destruct i as [|k]; [lia|]. clear Hi.
  set (n := Z.to_nat max_retries).
  assert (Hn : S k < n) by (unfold n; lia).
  assert (Hlast : st_sleeps (snd (search_with_retry ex q max_retries s))
                  = st_sleeps s
                    ++ map (fun i => 1 * 2 ^ (i - 1))
                         (seq 1 (st_calls (snd (search_with_retry
                                                  ex q max_retries s))
                                 - st_calls s - 1))).
  { unfold search_with_retry, range1.
    destruct (retry_loop_delays ex q max_retries (Z.to_nat max_retries) 0 s)
      as (m & Hc & _ & _ & Hs).
    { right. lia. }
    rewrite Hs, Hc, backoff_delays. do 3 f_equal. lia. }
  unfold search_with_retry, range1 in *. fold n in Hlast |- *.
  rewrite (range1_split n k) in * by lia.
  destruct (retry_loop_failures_clock ex q max_retries k 0
              (k :: seq (S k) (n - S k)) s)
    as (s1 & E1 & C1 & S1 & K1).
  { intros j Hj. apply Hf. lia. }
  { intros j Hj. lia. }
  destruct (retry_loop_failed_then_sleep ex q max_retries k
              (seq (S k) (n - S k)) s1)
    as (s2 & E2 & C2 & S2 & K2).
  { rewrite C1. apply Hf. lia. }
  { lia. }
  exists s2.
  rewrite E1, E2 in *.
  replace (1 * 2 ^ (S k - 1)) with (2 ^ k)
    by (cbn [Nat.sub]; rewrite Nat.sub_0_r; lia).
  replace (S k - 1) with k by lia.
  rewrite backoff_delays.
  split; [lia|]. split; [congruence|].
  split.
  { rewrite K2, K1, C1, attempts_on_last. lia. }
  split; [reflexivity|].
  assert (Esleep : forall rest,
             (sleep (2 ^ k) ;;; retry_loop ex q max_retries rest) s2
             = retry_loop ex q max_retries rest
                 (mkState (st_clock s2 + 2 ^ k) (st_calls s2)
                          (st_next_task s2) (st_sleeps s2 ++ [2 ^ k])
                          (st_cancelled s2) (st_stdout s2)))
    by reflexivity.
  rewrite Esleep in Hlast |- *.
  destruct (n - S k) as [|m] eqn:Em; [lia|]. cbn [seq] in Hlast |- *.
  match goal with
  | |- context [retry_loop ex q max_retries (S k :: ?rest) ?s3] =>
      destruct (retry_loop_first_attempt ex q max_retries (S k) rest s3)
        as (Hc & Hk)
  end.
  cbn [st_calls st_clock] in Hc, Hk.
  split; [lia|]. split.
  - replace (st_calls s + S k) with (st_calls s2) by lia. exact Hk.
  - exact Hlast.
Qed.

Lemma search_with_retry_backoff_witness :
  (exists s_i,
    st_calls s_i = 0 + 2
    /\ st_sleeps s_i = [] ++ map (fun k => 1 * 2 ^ (k - 1)) (seq 1 (2 - 1))
    /\ st_clock s_i
       = 0 + list_sum (map duration (attempts_on (ex_fail_first 4) 0 "q" 2))
         + list_sum (map (fun k => 1 * 2 ^ (k - 1)) (seq 1 (2 - 1)))
    /\ search_with_retry (ex_fail_first 4) "q" 5 initial_state
       = (sleep (1 * 2 ^ (2 - 1)) ;;;
          retry_loop (ex_fail_first 4) "q" 5 (seq 2 (Z.to_nat 5 - 2))) s_i
    /\ 0 + 2 + 1
       <= st_calls (snd (search_with_retry (ex_fail_first 4) "q" 5
                                           initial_state))
    /\ st_clock s_i + 1 * 2 ^ (2 - 1)
       + duration (ex_fail_first 4 (0 + 2) "q")
       <= st_clock (snd (search_with_retry (ex_fail_first 4) "q" 5
                                           initial_state))
    /\ st_sleeps (snd (search_with_retry (ex_fail_first 4) "q" 5
                                         initial_state))
       = [] ++ map (fun k => 1 * 2 ^ (k - 1))
                 (seq 1 (st_calls (snd (search_with_retry
                                          (ex_fail_first 4) "q" 5
                                          initial_state)) - 0 - 1))).
Proof.
  apply (search_with_retry_backoff (ex_fail_first 4) "q" 5 initial_state 2).
  - lia.
  - lia.
  - intros j Hj.
    destruct j as [|[|j]]; [reflexivity|reflexivity|lia].
Defined.

(** Four failures in a row with five attempts allowed: the delays are
    1, 2, 4 and 8. *)
Example search_with_retry_backoff_run :
  st_sleeps (snd (search_with_retry (ex_fail_first 4) "q" 5 initial_state))
  = [1; 2; 4; 8].
Proof. reflexivity. Qed.

(** *** No attempt allowed *)

(** C10: with [max_retries <= 0] the loop body never runs: the call
    returns [None] and leaves the state as it was, so the executor is
    not invoked and nothing is raised. *)
Theorem search_with_retry_no_attempt
        (ex : Executor) (q : string) (max_retries : Z) (s : state) :
  (max_retries <= 0)%Z ->
  search_with_retry ex q max_retries s = (Ret None, s).
Proof.
  intros H. unfold search_with_retry, range1.
  replace (Z.to_nat max_retries) with 0 by lia. reflexivity.
Qed.

Lemma search_with_retry_no_attempt_witness :
  search_with_retry ex_echo "q" 0 initial_state = (Ret None, initial_state).
Proof.
  apply (search_with_retry_no_attempt ex_echo "q" 0 initial_state).
  lia.
Defined.

(** ** The leaf searches *)

(** C3 (amended): a leaf search invokes the executor exactly once and
    hands back what the executor gave: its value when it returned, and
    when it raised the same exception, raised out of the call.  Nothing
    is caught and no failure value is built. *)
Theorem leaf_search_propagates
        (ex : Executor) (item : WebSearchItem) (q : string) (agent_id : Z)
        (s : state) :
  ((forall e, error_of (ex (st_calls s) (input_msg item)) = Some e ->
              fst (search ex item s) = Exc e)
   /\ (forall r, value_of (ex (st_calls s) (input_msg item)) = Some r ->
                 fst (search ex item s) = Ret (final_output r))
   /\ st_calls (snd (search ex item s)) = S (st_calls s))
  /\
  ((forall e, error_of (ex (st_calls s) q) = Some e ->
              fst (search_task ex q agent_id s) = Exc e)
   /\ (forall d r, ex (st_calls s) q = mkBehaviour (Some d) (Returns r) ->
                   fst (search_task ex q agent_id s)
                   = Ret (task_report q agent_id r d))
   /\ st_calls (snd (search_task ex q agent_id s)) = S (st_calls s)).
Proof.
  split.
  - unfold search, bind, Runner_run, ret, error_of, value_of.
    destruct (ex (st_calls s) (input_msg item)) as [[d|] [r|e]];
      cbn; repeat split; intros; congruence.
  - unfold search_task, bind, Runner_run, time_time, ret, error_of.
    cbn [fst snd st_calls st_clock].
    destruct (ex (st_calls s) q) as [[d|] [r|e]];
      cbn; repeat split; intros; try congruence.
    match goal with H : _ = _ |- _ => injection H as <- <- end.
    do 3 f_equal. lia.
Qed.

Lemma leaf_search_propagates_witness :
  fst (search (ex_fail_at 0 (OtherError "APIError"))
              (mkItem "why" "what") initial_state)
  = Exc (mkExn (OtherError "APIError") "boom")
  /\ fst (search_task ex_echo "q" 1 initial_state)
     = Ret (task_report "q" 1 (mkRunResult "q!") 10).
Proof.
  split.
  - apply (proj1 (proj1 (leaf_search_propagates
                           (ex_fail_at 0 (OtherError "APIError"))
                           (mkItem "why" "what") "q" 1 initial_state))).
    reflexivity.
  - apply (proj1 (proj2 (proj2 (leaf_search_propagates
                                  ex_echo (mkItem "why" "what") "q" 1
                                  initial_state)))).
    reflexivity.
Defined.

(** C3 as stated fails: when the executor raises, both leaf searches
    raise; no failure value is returned. *)
Lemma leaf_search_counterexample :
  fst (search (ex_fail_at 0 (OtherError "APIError"))
              (mkItem "why" "what") initial_state)
  = Exc (mkExn (OtherError "APIError") "boom")
  /\ fst (search_task (ex_fail_at 0 (OtherError "APIError")) "q" 1
                      initial_state)
     = Exc (mkExn (OtherError "APIError") "boom")
  /\ (forall v, fst (search (ex_fail_at 0 (OtherError "APIError"))
                            (mkItem "why" "what") initial_state)
                <> Ret v).
Proof.
  repeat split. intros v. discriminate.
Qed.

(** ** The deadline wrapper *)

Ltac run_wait_for :=
  unfold search_with_timeout, wait_for, try_except, bind, create_task,
    Runner_run, Runner_cancelled, cancel, ret, set_clock, after_cancel;
  cbv beta;
  cbn [st_clock st_calls st_next_task st_sleeps st_cancelled st_stdout].

(** C8 (amended): what [search_with_timeout] returns depends on the
    deadline, on the executor and on how the executor reacts to a
    cancellation.  With no time allowed ([timeout <= 0]) it returns the
    timeout dict at once and nothing is invoked.  With [timeout > 0],
    when the executor has not completed strictly before the deadline, a
    cancellation request is sent and the call then waits for the
    invocation to end: it never returns if the invocation never ends;
    otherwise it ends when the invocation does, with the timeout dict if
    the invocation ended cancelled (or raised a timeout error), with the
    success dict if the invocation returned a value all the same, and by
    raising if the invocation raised another error.  When the executor
    returns before the deadline the call returns the success dict with
    its value.  An error the executor raises before the deadline is not
    returned as an outcome: it is raised out of the call, except a
    timeout error of the executor's own, which is reported by the
    timeout dict although the deadline has not passed and no
    cancellation is sent. *)
Theorem search_with_timeout_outcome
        (ex : Executor) (cx : Canceller) (q : string) (timeout : Z)
        (s : state) :
  let b := ex (st_calls s) q in
  let c := cx (st_calls s) q in
  let limit := Z.to_nat timeout in
  let R := search_with_timeout ex cx q timeout s in
  ((timeout <= 0)%Z ->
   fst R = Ret (timeout_expired q)
   /\ st_calls (snd R) = st_calls s
   /\ st_clock (snd R) = st_clock s
   /\ exists id, st_cancelled (snd R) = st_cancelled s ++ [id])
  /\
  ((0 < timeout)%Z ->
   (forall d, latency b = Some d -> limit <= d) ->
   st_calls (snd R) = S (st_calls s)
   /\ (exists id, st_cancelled (snd R) = st_cancelled s ++ [id])
   /\ (stop_delay c = None -> fst R = Hang)
   /\ (forall wait,
         stop_delay c = Some wait ->
         st_clock (snd R) = st_clock s + limit + wait
         /\ (stop_result c = Cancelled ->
             fst R = Ret (timeout_expired q)
             /\ status (timeout_expired q) = Some (VStr "timeout"))
         /\ (forall r, stop_result c = Returned r ->
                       fst R = Ret (timeout_success q r))
         /\ (forall e, stop_result c = Raised e ->
                       fst R = if is_CancelledError e || is_TimeoutError e
                               then Ret (timeout_expired q)
                               else Exc e)))
  /\
  (forall d r,
     b = mkBehaviour (Some d) (Returns r) -> d < limit ->
     exists s',
       R = (Ret (timeout_success q r), s')
       /\ status (timeout_success q r) = Some (VStr "success")
       /\ st_cancelled s' = st_cancelled s
       /\ st_clock s' = st_clock s + d
       /\ st_calls s' = S (st_calls s))
  /\
  (forall d e,
     b = mkBehaviour (Some d) (Raises e) -> d < limit ->
     (is_TimeoutError e = false -> fst R = Exc e)
     /\
     (is_TimeoutError e = true ->
      exists s',
        R = (Ret (timeout_expired q), s')
        /\ st_cancelled s' = st_cancelled s
        /\ st_clock s' = st_clock s + d)).
Proof.
  cbv zeta. split; [|split; [|split]].
  - intros Hle. run_wait_for.
    rewrite (proj2 (Z.leb_le _ _) Hle). cbn.
    repeat split. eexists. reflexivity.
  - intros Hpos Hlate. run_wait_for.
    rewrite (proj2 (Z.leb_gt _ _) Hpos).
    assert (Hrun : forall d, latency (ex (st_calls s) q) = Some d ->
                             (st_clock s + d <? st_clock s + Z.to_nat timeout)%nat
                             = false).
    { intros d Hd. apply Nat.ltb_ge. specialize (Hlate d Hd). lia. }
    destruct (ex (st_calls s) q) as [[d|] [r|e]]; cbn [latency result] in *;
      cbn [done_at task_result task_id st_clock st_calls st_next_task
           st_sleeps st_cancelled st_stdout];
      rewrite ?(Hrun d eq_refl);
      destruct (cx (st_calls s) q) as [[wait|] [|r'|[[| | |name] msg]]];
      cbn [stop_delay stop_result is_CancelledError exc_type];
      (split; [reflexivity|]);
      (split; [eexists; reflexivity|]);
      (split; [intros H; try discriminate H; reflexivity|]);
      intros wait' H; try discriminate H; injection H as <-;
      (split; [cbn; lia|]);
      (split; [intros H; try discriminate H; split; reflexivity|]);
      (split; [intros r0 H; try discriminate H; injection H as <-;
               reflexivity|]);
      intros e0 H; try discriminate H; injection H as <-;
      reflexivity.
  - intros d r Hb Hlt. run_wait_for.
    destruct (Z.leb_spec timeout 0) as [Hle|Hpos]; [lia|].
    rewrite Hb. cbn [latency result].
    cbn [done_at task_result task_id st_clock st_calls st_next_task
         st_sleeps st_cancelled st_stdout].
    rewrite (proj2 (Nat.ltb_lt _ _)) by lia.
    eexists. split; [reflexivity|]. cbn. repeat split; lia.
  - intros d e Hb Hlt. run_wait_for.
    destruct (Z.leb_spec timeout 0) as [Hle|Hpos]; [lia|].
    rewrite Hb. cbn [latency result].
    cbn [done_at task_result task_id st_clock st_calls st_next_task
         st_sleeps st_cancelled st_stdout].
    rewrite (proj2 (Nat.ltb_lt _ _)) by lia.
    split; intros Hc; rewrite Hc.
    + reflexivity.
    + eexists. split; [reflexivity|]. cbn. repeat split; lia.
Qed.

(** With no time allowed nothing is invoked.  A call of latency 10 under
    a deadline of 10 is cancelled: when it ends three ticks after the
    request the timeout dict is returned at time 13; when it never ends
    the wrapper never returns; when it answers all the same, two ticks
    later, its answer is returned.  Under a deadline of 30 the call
    succeeds; an executor that raises its own timeout error after one
    tick is reported as timed out at time 1. *)
Lemma search_with_timeout_outcome_witness :
  (fst (search_with_timeout ex_echo (stops_after 3) "q" 0 initial_state)
   = Ret (timeout_expired "q")
   /\ st_calls (snd (search_with_timeout ex_echo (stops_after 3) "q" 0
                                         initial_state)) = 0)
  /\
  (st_clock (snd (search_with_timeout ex_echo (stops_after 3) "q" 10
                                      initial_state))
   = 0 + Z.to_nat 10 + 3
   /\ fst (search_with_timeout ex_echo (stops_after 3) "q" 10 initial_state)
      = Ret (timeout_expired "q"))
  /\
  fst (search_with_timeout ex_echo never_stops "q" 10 initial_state) = Hang
  /\
  fst (search_with_timeout ex_echo answers_anyway "q" 10 initial_state)
  = Ret (timeout_success "q" (mkRunResult "q?"))
  /\
  (exists s',
     search_with_timeout ex_echo (stops_after 3) "q" 30 initial_state
       = (Ret (timeout_success "q" (mkRunResult "q!")), s')
     /\ status (timeout_success "q" (mkRunResult "q!"))
        = Some (VStr "success")
     /\ st_cancelled s' = []
     /\ st_clock s' = 0 + 10
     /\ st_calls s' = 1)
  /\
  (exists s',
     search_with_timeout (ex_fail_at 0 TimeoutError) (stops_after 3) "q" 30
                         initial_state
       = (Ret (timeout_expired "q"), s')
     /\ st_cancelled s' = []
     /\ st_clock s' = 0 + 1).
Proof.
  assert (Hlate : forall d, latency (ex_echo 0 "q") = Some d ->
                            Z.to_nat 10 <= d).
  { intros d [= <-]. simpl. lia. }
  split; [|split; [|split; [|split; [|split]]]].
  - destruct (proj1 (search_with_timeout_outcome
                       ex_echo (stops_after 3) "q" 0 initial_state))
      as (H1 & H2 & _); [lia|]. split; assumption.
  - destruct (proj1 (proj2 (search_with_timeout_outcome
                              ex_echo (stops_after 3) "q" 10 initial_state))
                ltac:(lia) Hlate) as (_ & _ & _ & H).
    destruct (H 3 eq_refl) as (H1 & H2 & _).
    split; [exact H1|]. apply H2. reflexivity.
  - destruct (proj1 (proj2 (search_with_timeout_outcome
                              ex_echo never_stops "q" 10 initial_state))
                ltac:(lia) Hlate) as (_ & _ & H & _).
    apply H. reflexivity.
  - destruct (proj1 (proj2 (search_with_timeout_outcome
                              ex_echo answers_anyway "q" 10 initial_state))
                ltac:(lia) Hlate) as (_ & _ & _ & H).
    destruct (H 2 eq_refl) as (_ & _ & H3 & _).
    apply H3. reflexivity.
  - apply (proj1 (proj2 (proj2 (search_with_timeout_outcome
                                  ex_echo (stops_after 3) "q" 30
                                  initial_state)))
             10 (mkRunResult "q!")).
    + reflexivity.
    + simpl. lia.
  - apply (proj2 (proj2 (proj2 (search_with_timeout_outcome
                                  (ex_fail_at 0 TimeoutError)
                                  (stops_after 3) "q" 30 initial_state)))
             1 (mkExn TimeoutError "boom")).
    + reflexivity.
    + simpl. lia.
    + reflexivity.
Defined.

(** C8 as stated fails when the executor completes before the deadline by
    raising: an API error after one tick, deadline 30, leaves the call as
    a raised exception and no outcome is returned; a timeout error of the
    executor's own after one tick is reported as a timeout at time 1,
    which is not what the task did.  It also fails when the executor does
    not complete within the deadline: an invocation that never ends once
    cancelled leaves the call waiting for ever, and one that answers all
    the same has its answer returned as a success. *)
Lemma search_with_timeout_counterexample :
  latency (ex_fail_at 0 (OtherError "APIError") 0 "q") = Some 1
  /\ fst (search_with_timeout (ex_fail_at 0 (OtherError "APIError"))
                              (stops_after 0) "q" 30 initial_state)
     = Exc (mkExn (OtherError "APIError") "boom")
  /\ (forall d,
        fst (search_with_timeout (ex_fail_at 0 (OtherError "APIError"))
                                 (stops_after 0) "q" 30 initial_state)
        <> Ret d)
  /\ latency (ex_fail_at 0 TimeoutError 0 "q") = Some 1
  /\ fst (search_with_timeout (ex_fail_at 0 TimeoutError) (stops_after 0)
                              "q" 30 initial_state)
     = Ret (timeout_expired "q")
  /\ st_clock (snd (search_with_timeout (ex_fail_at 0 TimeoutError)
                                        (stops_after 0) "q" 30
                                        initial_state)) = 1
  /\ latency (ex_echo 0 "q") = Some 10
  /\ fst (search_with_timeout ex_echo never_stops "q" 10 initial_state)
     = Hang
  /\ fst (search_with_timeout ex_echo answers_anyway "q" 10 initial_state)
     = Ret (timeout_success "q" (mkRunResult "q?")).
Proof.
  repeat split. intros d. discriminate.
Qed.

(** ** Sizes below one *)

Lemma range3_negative_step (stop step : Z) :
  (0 <= stop)%Z -> (step < 0)%Z -> range3 0 stop step = inr [].
Proof.
  intros Hs Hneg. unfold range3, range_len.
  destruct (Z.eqb_spec step 0) as [|_]; [lia|].
  destruct (Z.ltb_spec 0 step) as [|_]; [lia|].
  assert (H : ((0 - stop - step - 1) / (- step) < 1)%Z).
  { apply Z.div_lt_upper_bound; lia. }
  replace (Z.to_nat (Z.max 0 ((0 - stop - step - 1) / - step))) with 0
    by lia.
  reflexivity.
Qed.

Lemma retry_loop_nil (ex : Executor) (q : string) (max_retries : Z)
      (s : state) :
  (max_retries < 1)%Z ->
  search_with_retry ex q max_retries s = (Ret None, s).
Proof.
  intros H. unfold search_with_retry, range1.
  replace (Z.to_nat max_retries) with 0 by lia. reflexivity.
Qed.

(** C9 (amended): no size is checked.  A batch size of zero raises, from
    [range], before any executor call; a negative batch size returns the
    empty list without any executor call and without raising; a retry
    budget below one returns [None] without any executor call and
    without raising. *)
Theorem sizes_below_one
        (ex : Executor) (queries : list string) (q : string) (s : state) :
  batch_parallel_searches ex queries 0 s
  = (Exc (mkExn ValueError "range() arg 3 must not be zero"), s)
  /\ (forall batch_size,
        (batch_size < 0)%Z ->
        batch_parallel_searches ex queries batch_size s = (Ret [], s))
  /\ (forall max_retries,
        (max_retries < 1)%Z ->
        search_with_retry ex q max_retries s = (Ret None, s)).
Proof.
  split; [reflexivity|split].
  - intros bs Hbs. unfold batch_parallel_searches.
    rewrite range3_negative_step by lia. reflexivity.
  - intros m Hm. now apply retry_loop_nil.
Qed.

Lemma sizes_below_one_witness :
  batch_parallel_searches ex_echo ["a"; "b"; "c"] (-2) initial_state
  = (Ret [], initial_state)
  /\ search_with_retry ex_echo "q" (-1) initial_state
     = (Ret None, initial_state).
Proof.
  split.
  - apply (proj1 (proj2 (sizes_below_one ex_echo ["a"; "b"; "c"] "q"
                           initial_state))).
    lia.
  - apply (proj2 (proj2 (sizes_below_one ex_echo ["a"; "b"; "c"] "q"
                           initial_state))).
    lia.
Defined.

(** C9 as stated fails: a negative batch size and a zero retry budget both
    return a value and raise nothing. *)
Lemma sizes_below_one_counterexample :
  batch_parallel_searches ex_echo ["a"; "b"; "c"] (-1) initial_state
  = (Ret [], initial_state)
  /\ search_with_retry ex_echo "q" 0 initial_state
     = (Ret None, initial_state).
Proof.
  split; reflexivity.
Qed.

(** ** The order of completion *)

Section CompletionOrder.

Context {A : Type}.

Lemma insert_by_time_perm x l :
  Permutation (insert_by_time x l) (x :: l).
Proof.
  induction l as [|y l IH]; cbn.
  - apply Permutation_refl.
  - destruct (snd x <=? snd y)%nat.
    + apply Permutation_refl.
    + eapply perm_trans; [apply perm_skip, IH|apply perm_swap].
Qed.

Lemma sort_by_time_perm l : Permutation (sort_by_time l) l.
Proof.
  induction l as [|x l IH]; cbn.
  - apply perm_nil.
  - eapply perm_trans; [apply insert_by_time_perm|apply perm_skip, IH].
Qed.

Lemma insert_by_time_sorted x l :
  StronglySorted by_time l -> StronglySorted by_time (insert_by_time x l).
Proof.
  induction 1 as [|y l Hl IH Hy]; cbn.
  - repeat constructor.
  - destruct (Nat.leb_spec (snd x) (snd y)) as [Hle|Hgt].
    + constructor; [now constructor|].
      constructor; [exact Hle|].
      eapply Forall_impl; [|exact Hy].
      unfold by_time. intros z Hz. lia.
    + constructor; [exact IH|].
      eapply Permutation_Forall;
        [apply Permutation_sym, insert_by_time_perm|].
      constructor; [unfold by_time; lia|exact Hy].
Qed.

Lemma sort_by_time_sorted l : StronglySorted by_time (sort_by_time l).
Proof.
  induction l as [|x l IH]; cbn.
  - constructor.
  - now apply insert_by_time_sorted.
Qed.

Lemma finishing_In (ts : list (task A)) : forall i j d,
  In (j, d) (finishing i ts) <->
  i <= j /\ exists t, nth_error ts (j - i) = Some t /\ done_at t = Some d.
Proof.
  induction ts as [|t ts IH]; intros i j d; cbn.
  - split; [tauto|]. intros (_ & t & Ht & _).
    destruct (j - i); discriminate.
  - assert (Htail :
      In (j, d) (finishing (S i) ts) <->
      S i <= j /\ exists t', nth_error (t :: ts) (j - i) = Some t'
                             /\ done_at t' = Some d).
    { rewrite IH. split.
      - intros (Hle & t' & Hn & Hd). split; [exact Hle|].
        exists t'. replace (j - i) with (S (j - S i)) by lia. now split.
      - intros (Hle & t' & Hn & Hd). split; [exact Hle|].
        exists t'. replace (j - i) with (S (j - S i)) in Hn by lia.
        now split. }
    assert (Hhead : forall d', done_at t = Some d' ->
      (j, d) = (i, d') <->
      i = j /\ exists t', nth_error (t :: ts) (j - i) = Some t'
                          /\ done_at t' = Some d).
    { intros d' Hd'. split.
      - intros [= -> ->]. split; [reflexivity|]. exists t.
        rewrite Nat.sub_diag. now split.
      - intros (-> & t' & Hn & Hd). rewrite Nat.sub_diag in Hn.
        cbn in Hn. injection Hn as <-. congruence. }
    destruct (done_at t) as [d'|] eqn:Hd.
    + cbn. rewrite Htail. specialize (Hhead d' eq_refl).
      split.
      * intros [H|H].
        -- symmetry in H. apply Hhead in H. destruct H as (-> & H).
           split; [lia|exact H].
        -- destruct H as (Hle & H). split; [lia|exact H].
      * intros (Hle & H). destruct (Nat.eq_dec i j) as [E|E].
        -- left. symmetry. apply Hhead. now split.
        -- right. split; [lia|exact H].
    + rewrite Htail. split.
      * intros (Hle & H). split; [lia|exact H].
      * intros (Hle & t' & Hn & Hd'). split.
        -- destruct (Nat.eq_dec i j) as [->|E]; [|lia].
           rewrite Nat.sub_diag in Hn. cbn in Hn. injection Hn as <-.
           congruence.
        -- now exists t'.
Qed.

Lemma finishing_length (ts : list (task A)) i :
  List.length (finishing i ts) <= List.length ts.
Proof.
  revert i. induction ts as [|t ts IH]; intros i; cbn; [lia|].
  destruct (done_at t); cbn; specialize (IH (S i)); lia.
Qed.

Lemma finishing_length_all (ts : list (task A)) i :
  (forall t, In t ts -> done_at t <> None) ->
  List.length (finishing i ts) = List.length ts.
Proof.
  revert i. induction ts as [|t ts IH]; intros i Hall; cbn; [reflexivity|].
  destruct (done_at t) eqn:Hd.
  - cbn. f_equal. apply IH. intros t' Ht'. apply Hall. now right.
  - exfalso. apply (Hall t); [now left|exact Hd].
Qed.

(** Every entry of the completion order names a task that completes, at
    the time recorded. *)
Lemma completion_order_In (ts : list (task A)) j d :
  In (j, d) (completion_order ts) <->
  exists t, nth_error ts j = Some t /\ done_at t = Some d.
Proof.
  unfold completion_order. split.
  - intros H.
    apply (Permutation_in _ (sort_by_time_perm _)) in H.
    apply finishing_In in H. destruct H as (_ & t & Hn & Hd).
    rewrite Nat.sub_0_r in Hn. now exists t.
  - intros (t & Hn & Hd).
    apply (Permutation_in _ (Permutation_sym (sort_by_time_perm _))).
    apply finishing_In. split; [lia|]. exists t.
    rewrite Nat.sub_0_r. now split.
Qed.

Lemma completion_order_length (ts : list (task A)) :
  List.length (completion_order ts) <= List.length ts.
Proof.
  unfold completion_order.
  rewrite (Permutation_length (sort_by_time_perm _)).
  apply finishing_length.
Qed.

Lemma completion_order_length_all (ts : list (task A)) :
  (forall t, In t ts -> done_at t <> None) ->
  List.length (completion_order ts) = List.length ts.
Proof.
  intros H. unfold completion_order.
  rewrite (Permutation_length (sort_by_time_perm _)).
  now apply finishing_length_all.
Qed.

Lemma completion_order_sorted (ts : list (task A)) :
  StronglySorted by_time (completion_order ts).
Proof. apply sort_by_time_sorted. Qed.

End CompletionOrder.

(** ** The future returned by [gather] *)

Section GatherFold.

Context {A : Type}.
Variable children : list (task A).

Abbreviation step := (done_callback children).

Lemma nfinished_step g x : nfinished (step g x) = S (nfinished g).
Proof.
  unfold done_callback.
  destruct (outer g); [reflexivity|].
  destruct (nth_error children (fst x)) as [c|]; [|reflexivity].
  destruct (task_result c); try reflexivity;
    destruct (S (nfinished g) =? List.length children)%nat; reflexivity.
Qed.

(** Once set, the outer future keeps its result. *)
Lemma fold_keeps l : forall g v,
  outer g = Some v -> outer (fold_left step l g) = Some v.
Proof.
  induction l as [|x l IH]; intros g v Hg; cbn; [exact Hg|].
  apply IH. unfold done_callback. rewrite Hg. reflexivity.
Qed.

(** While children that do not raise complete and some child is still
    to be seen, the outer future stays pending. *)
Lemma fold_quiet l : forall g,
  outer g = None ->
  nfinished g + List.length l < List.length children ->
  (forall x, In x l -> child_raises children x = false) ->
  outer (fold_left step l g) = None
  /\ nfinished (fold_left step l g) = nfinished g + List.length l.
Proof.
  induction l as [|x l IH]; intros g Hg Hlen Hq; cbn [fold_left].
  - cbn. split; [exact Hg|lia].
  - cbn [List.length] in Hlen.
    destruct (IH (step g x)) as (Ho & Hn).
    + specialize (Hq x (or_introl eq_refl)).
      unfold child_raises in Hq. unfold done_callback. rewrite Hg.
      destruct (nth_error children (fst x)) as [c|]; [|reflexivity].
      destruct (task_result c); try discriminate;
        destruct (Nat.eqb_spec (S (nfinished g)) (List.length children));
        try lia; reflexivity.
    + rewrite nfinished_step. lia.
    + intros y Hy. apply Hq. now right.
    + split; [exact Ho|]. rewrite Hn, nfinished_step. cbn. lia.
Qed.

(** The last child seen done, if no child raised, sets the results, read
    from the children in argument order. *)
Lemma step_last g x :
  outer g = None ->
  S (nfinished g) = List.length children ->
  (exists c, nth_error children (fst x) = Some c) ->
  child_raises children x = false ->
  outer (step g x) = Some (results children, snd x).
Proof.
  intros Hg Hn (c & Hc) Hq. unfold child_raises in Hq.
  unfold done_callback. rewrite Hg, Hc in *.
  destruct (task_result c); try discriminate;
    rewrite (proj2 (Nat.eqb_eq _ _) Hn); reflexivity.
Qed.

(** A child that raised, seen while the outer future is pending, sets its
    exception on it. *)
Lemma step_raises g x :
  outer g = None ->
  child_raises children x = true ->
  exists c e,
    nth_error children (fst x) = Some c
    /\ task_result c = Exc e
    /\ outer (step g x) = Some (Exc e, snd x).
Proof.
  intros Hg Hr. unfold child_raises in Hr. unfold done_callback.
  rewrite Hg.
  destruct (nth_error children (fst x)) as [c|]; [|discriminate].
  destruct (task_result c) as [a|e|] eqn:Hc; try discriminate.
  exists c, e. repeat split. exact Hc.
Qed.

(** Whatever the order of completion, the outer future holds either the
    exception of a child or the results in argument order. *)
Lemma fold_outer_cases l : forall g,
  (outer g = None
   \/ (exists c e t, In c children /\ task_result c = Exc e
                     /\ outer g = Some (Exc e, t))
   \/ (exists t, outer g = Some (results children, t))) ->
  let g' := fold_left step l g in
  outer g' = None
  \/ (exists c e t, In c children /\ task_result c = Exc e
                    /\ outer g' = Some (Exc e, t))
  \/ (exists t, outer g' = Some (results children, t)).
Proof.
  induction l as [|x l IH]; intros g Hg; cbn [fold_left]; [exact Hg|].
  apply IH. unfold done_callback.
  destruct Hg as [Ho|[(c & e & t & Hin & Hr & Ho)|(t & Ho)]]; rewrite Ho.
  - destruct (nth_error children (fst x)) as [c|] eqn:Hc; [|now left].
    destruct (task_result c) as [a|e|] eqn:Hr.
    + destruct (S (nfinished g) =? List.length children)%nat; cbn [outer];
        [right; right; now eexists|now left].
    + right. left. exists c, e, (snd x). repeat split; trivial.
      eapply nth_error_In. exact Hc.
    + destruct (S (nfinished g) =? List.length children)%nat; cbn [outer];
        [right; right; now eexists|now left].
  - right. left. now exists c, e, t.
  - right. right. now exists t.
Qed.

Lemma first_raising (l : list (nat * nat)) :
  (exists x, In x l /\ child_raises children x = true) ->
  exists l1 x l2,
    l = l1 ++ x :: l2
    /\ child_raises children x = true
    /\ (forall y, In y l1 -> child_raises children y = false).
Proof.
  induction l as [|y l IH]; intros (x & Hin & Hr); [destruct Hin|].
  destruct (child_raises children y) eqn:Hy.
  - exists [], y, l. repeat split; trivial. intros z [].
  - destruct IH as (l1 & x' & l2 & -> & Hx' & Hq).
    + destruct Hin as [->|Hin]; [congruence|]. now exists x.
    + exists (y :: l1), x', l2. repeat split; trivial.
      intros z [<-|Hz]; [exact Hy|now apply Hq].
Qed.

End GatherFold.

(** ** What [gather] gives *)

Section GatherTasks.

Context {A : Type}.

Lemma sorted_after (l1 : list (nat * nat)) x l2 :
  StronglySorted by_time (l1 ++ x :: l2) -> Forall (by_time x) l2.
Proof.
  induction l1 as [|y l1 IH]; cbn; intros H.
  - now inversion H.
  - apply IH. now inversion H.
Qed.

(** [gather] only moves the clock. *)
Lemma gather_tasks_state (children : list (task A)) s :
  let s' := snd (gather_tasks children s) in
  st_calls s' = st_calls s
  /\ st_next_task s' = st_next_task s
  /\ st_sleeps s' = st_sleeps s
  /\ st_cancelled s' = st_cancelled s
  /\ st_stdout s' = st_stdout s.
Proof.
  unfold gather_tasks. destruct children as [|c cs]; cbn [snd].
  - repeat split.
  - destruct (outer _) as [[r t]|]; cbn; repeat split.
Qed.

(** When [gather] returns a list, it is the list of the children's
    results in argument order, whatever the order of completion was. *)
Lemma gather_tasks_returns (children : list (task A)) s outs s' :
  gather_tasks children s = (Ret outs, s') ->
  results children = Ret outs.
Proof.
  unfold gather_tasks. destruct children as [|c cs].
  - intros [= <- _]. reflexivity.
  - pose proof (fold_outer_cases (c :: cs) (completion_order (c :: cs))
                  (mkGather 0 None) (or_introl eq_refl)) as H.
    cbv zeta in H.
    destruct H as [H|[(c' & e & t & _ & _ & H)|(t & H)]]; rewrite H.
    + discriminate.
    + discriminate.
    + intros [= E _]. exact E.
Qed.

(** When every child completes and none raises, [gather] gives the
    results in argument order. *)
Lemma gather_tasks_all_done (children : list (task A)) s :
  (forall c, In c children -> done_at c <> None) ->
  (forall c e, In c children -> task_result c <> Exc e) ->
  fst (gather_tasks children s) = results children.
Proof.
  intros Hdone Hok. unfold gather_tasks.
  destruct children as [|c0 cs] eqn:Hch; [reflexivity|].
  rewrite <- Hch in *.
  assert (Hlen : List.length (completion_order children)
                 = List.length children)
    by now apply completion_order_length_all.
  assert (Hq : forall x, In x (completion_order children) ->
                         child_raises children x = false).
  { intros x _. unfold child_raises.
    destruct (nth_error children (fst x)) as [c|] eqn:Hc; [|reflexivity].
    destruct (task_result c) as [a|e|] eqn:Hr; try reflexivity.
    exfalso. apply (Hok c e); [eapply nth_error_In; eassumption|exact Hr]. }
  destruct (exists_last (l := completion_order children)) as (l' & x & Hl).
  { intros E. rewrite E in Hlen. rewrite Hch in Hlen. discriminate. }
  rewrite Hl in *. rewrite length_app in Hlen. cbn in Hlen.
  rewrite fold_left_app. cbn [fold_left].
  destruct (fold_quiet children l' (mkGather 0 None)) as (Ho & Hn).
  { reflexivity. }
  { cbn. lia. }
  { intros y Hy. apply Hq. apply in_or_app. now left. }
  rewrite (step_last children _ x Ho).
  - reflexivity.
  - rewrite Hn. cbn. lia.
  - assert (Hin : In x (l' ++ [x])) by (apply in_or_app; right; now left).
    rewrite <- Hl in Hin. destruct x as [j d].
    apply completion_order_In in Hin. destruct Hin as (t & Ht & _).
    now exists t.
  - apply Hq. apply in_or_app. right. now left.
Qed.

(** When some child raises, [gather] raises, at once, the exception of
    the raising child that completes first: no raising child completes
    before it, and the call does not wait for the other children. *)
Lemma gather_tasks_raises (children : list (task A)) s c0 e0 t0 :
  In c0 children -> task_result c0 = Exc e0 -> done_at c0 = Some t0 ->
  exists c e t,
    In c children /\ task_result c = Exc e /\ done_at c = Some t
    /\ gather_tasks children s
       = (Exc e, set_clock (Nat.max (st_clock s) t) s)
    /\ (forall c' e' t',
          In c' children -> task_result c' = Exc e' ->
          done_at c' = Some t' -> t <= t').
Proof.
  intros Hin0 Hr0 Hd0.
  destruct (In_nth_error _ _ Hin0) as (j0 & Hj0).
  assert (Hex : exists x, In x (completion_order children)
                          /\ child_raises children x = true).
  { exists (j0, t0). split.
    - apply completion_order_In. now exists c0.
    - unfold child_raises. cbn. now rewrite Hj0, Hr0. }
  destruct (first_raising children _ Hex) as (l1 & x & l2 & Hl & Hx & Hq).
  pose proof (completion_order_sorted children) as Hsorted.
  pose proof (completion_order_length children) as Hlen.
  rewrite Hl in Hsorted, Hlen. rewrite length_app in Hlen. cbn in Hlen.
  destruct (fold_quiet children l1 (mkGather 0 None)) as (Ho & Hn).
  { reflexivity. }
  { cbn. lia. }
  { exact Hq. }
  destruct (step_raises children _ x Ho Hx) as (c & e & Hc & Hr & Hs).
  assert (Hinx : In x (completion_order children)).
  { rewrite Hl. apply in_or_app. right. now left. }
  destruct x as [j t]. cbn [fst snd] in *.
  apply completion_order_In in Hinx. destruct Hinx as (c' & Hc' & Hd).
  assert (c' = c) by congruence. subst c'.
  exists c, e, t. repeat split; trivial.
  - eapply nth_error_In. exact Hc.
  - unfold gather_tasks. destruct children as [|c1 cs] eqn:Hch.
    { destruct Hin0. }
    rewrite <- Hch in *. rewrite Hl, fold_left_app. cbn [fold_left].
    rewrite (fold_keeps children l2 _ _ Hs). reflexivity.
  - intros c' e' t' Hin' Hr' Hd'.
    destruct (In_nth_error _ _ Hin') as (k & Hk).
    assert (Hin : In (k, t') (completion_order children)).
    { apply completion_order_In. now exists c'. }
    rewrite Hl in Hin. apply in_app_or in Hin.
    destruct Hin as [Hin|[Hin|Hin]].
    + apply Hq in Hin. unfold child_raises in Hin. cbn in Hin.
      rewrite Hk, Hr' in Hin. discriminate.
    + injection Hin as _ <-. lia.
    + pose proof (sorted_after _ _ _ Hsorted) as Hafter.
      rewrite Forall_forall in Hafter. apply (Hafter _ Hin).
Qed.

End GatherTasks.

(** ** Fan-out over leaf coroutines *)

Section FanOut.

Variable ex : Executor.
Context {B : Type}.
Variable f : RunResult -> B.

Lemma Runner_run_is_leaf input :
  is_leaf ex (fun r => r) (Runner_run ex input) input.
Proof.
  intros s. destruct (Runner_run ex input s) as [[r| |] s']; reflexivity.
Qed.

Lemma create_task_leaf c input s :
  is_leaf ex f c input ->
  create_task c s
  = (Ret (leaf_task f (st_clock s) (st_next_task s) (ex (st_calls s) input)),
     mkState (st_clock s) (S (st_calls s)) (S (st_next_task s))
             (st_sleeps s) (st_cancelled s) (st_stdout s)).
Proof.
  intros Hleaf. unfold create_task. rewrite Hleaf.
  unfold Runner_run, leaf_task, outcome_of, set_clock.
  cbn [st_clock st_calls st_next_task st_sleeps st_cancelled st_stdout].
  destruct (ex (st_calls s) input) as [[d|] [r|e]]; reflexivity.
Qed.

Lemma create_tasks_leaves cs inputs :
  Forall2 (is_leaf ex f) cs inputs ->
  forall s, exists s',
    create_tasks cs s
    = (Ret (leaf_tasks f (st_clock s) (st_next_task s)
                       (behaviours ex (st_calls s) inputs)), s')
    /\ st_clock s' = st_clock s
    /\ st_calls s' = st_calls s + List.length inputs
    /\ st_next_task s' = st_next_task s + List.length inputs
    /\ st_sleeps s' = st_sleeps s
    /\ st_cancelled s' = st_cancelled s
    /\ st_stdout s' = st_stdout s.
Proof.
  induction 1 as [|c input cs inputs Hc _ IH]; intros s.
  - exists s. cbn. repeat split; lia.
  - cbn [create_tasks]. unfold bind.
    rewrite (create_task_leaf c input s Hc).
    destruct (IH (mkState (st_clock s) (S (st_calls s)) (S (st_next_task s))
                          (st_sleeps s) (st_cancelled s) (st_stdout s)))
      as (s' & E & Hcl & Hca & Hn & Hsl & Hcn & Hso).
    exists s'. rewrite E. cbn in *.
    repeat split; try assumption; lia.
Qed.

(** The results of leaf tasks, read in argument order, are the values of
    the invocations in the order of the inputs. *)
Lemma results_leaf_tasks clock bs : forall id outs,
  results (leaf_tasks f clock id bs) = Ret outs <->
  map (fun b => option_map f (value_of b)) bs = map Some outs.
Proof.
  induction bs as [|b bs IH]; intros id outs; cbn [leaf_tasks results map].
  - split.
    + intros [= <-]. reflexivity.
    + destruct outs; [reflexivity|discriminate].
  - unfold leaf_task at 1. cbn [task_result].
    unfold outcome_of, value_of.
    destruct b as [[d|] [r|e]]; cbn [latency result map_outcome option_map];
      try (split; [discriminate|destruct outs; discriminate]).
    destruct (results (leaf_tasks f clock (S id) bs)) as [l| |] eqn:Hres.
    + split.
      * intros [= <-]. cbn. f_equal. now apply (IH (S id)).
      * destruct outs as [|o outs]; [discriminate|].
        cbn. intros [= -> Ht]. f_equal. f_equal.
        apply (IH (S id)) in Ht. congruence.
    + split; [discriminate|].
      destruct outs as [|o outs]; [discriminate|].
      cbn. intros [= _ Ht]. apply (IH (S id)) in Ht. congruence.
    + split; [discriminate|].
      destruct outs as [|o outs]; [discriminate|].
      cbn. intros [= _ Ht]. apply (IH (S id)) in Ht. congruence.
Qed.

Lemma leaf_tasks_In clock bs : forall id c,
  In c (leaf_tasks f clock id bs) ->
  exists b, In b bs
            /\ done_at c = option_map (Nat.add clock) (latency b)
            /\ task_result c = map_outcome f (outcome_of b).
Proof.
  induction bs as [|b bs IH]; intros id c; cbn; [tauto|].
  intros [<-|Hin].
  - exists b. repeat split. now left.
  - destruct (IH _ _ Hin) as (b' & Hb' & H). exists b'. split; [now right|].
    exact H.
Qed.

Lemma In_leaf_tasks clock bs : forall id b,
  In b bs ->
  exists id', In (leaf_task f clock id' b) (leaf_tasks f clock id bs).
Proof.
  induction bs as [|b0 bs IH]; intros id b; cbn; [tauto|].
  intros [->|Hin].
  - exists id. now left.
  - destruct (IH (S id) b Hin) as (id' & H). exists id'. now right.
Qed.

Lemma succeeded_values bs :
  Forall (fun b => succeeded b = true) bs ->
  exists rs, map value_of bs = map Some rs.
Proof.
  induction 1 as [|b bs Hb _ (rs & IH)].
  - now exists [].
  - destruct (succeeded_inv _ Hb) as (d & r & ->).
    exists (r :: rs). cbn. now rewrite IH.
Qed.

Lemma length_leaf_tasks clock bs : forall id,
  List.length (leaf_tasks f clock id bs) = List.length bs.
Proof.
  induction bs as [|b bs IH]; intros id; cbn; [reflexivity|].
  now rewrite IH.
Qed.

Lemma length_behaviours inputs : forall c,
  List.length (behaviours ex c inputs) = List.length inputs.
Proof.
  induction inputs as [|q inputs IH]; intros c; cbn; [reflexivity|].
  now rewrite IH.
Qed.

(** Fan-out, when it returns: the list returned matches the inputs
    position by position, and every task was started. *)
Lemma fan_out_returns cs inputs s outs s' :
  Forall2 (is_leaf ex f) cs inputs ->
  gather cs s = (Ret outs, s') ->
  map (fun b => option_map f (value_of b))
      (behaviours ex (st_calls s) inputs) = map Some outs
  /\ st_calls s' = st_calls s + List.length inputs
  /\ st_stdout s' = st_stdout s
  /\ st_next_task s' = st_next_task s + List.length inputs.
Proof.
  intros Hleaf. unfold gather, bind.
  destruct (create_tasks_leaves cs inputs Hleaf s)
    as (s1 & E & Hcl & Hca & Hn & Hsl & Hcn & Hso).
  rewrite E. intros Hg.
  pose proof (gather_tasks_state
                (leaf_tasks f (st_clock s) (st_next_task s)
                            (behaviours ex (st_calls s) inputs)) s1) as Hst.
  cbv zeta in Hst. rewrite Hg in Hst. cbn [snd] in Hst.
  destruct Hst as (Hc' & Hn' & _ & _ & Ho').
  apply gather_tasks_returns in Hg. apply results_leaf_tasks in Hg.
  repeat split; congruence.
Qed.

(** Fan-out returns when every invocation returns. *)
Lemma fan_out_all_succeed cs inputs s :
  Forall2 (is_leaf ex f) cs inputs ->
  Forall (fun b => succeeded b = true) (behaviours ex (st_calls s) inputs) ->
  exists outs s', gather cs s = (Ret outs, s').
Proof.
  intros Hleaf Hall. unfold gather, bind.
  destruct (create_tasks_leaves cs inputs Hleaf s) as (s1 & E & _).
  rewrite E.
  set (ts := leaf_tasks f (st_clock s) (st_next_task s)
                        (behaviours ex (st_calls s) inputs)).
  destruct (succeeded_values _ Hall) as (rs & Hrs).
  assert (Hres : results ts = Ret (map f rs)).
  { apply results_leaf_tasks.
    rewrite <- (map_map value_of (option_map f)), Hrs, !map_map.
    reflexivity. }
  assert (Hfst : fst (gather_tasks ts s1) = results ts).
  { apply gather_tasks_all_done.
    - intros c Hc. apply leaf_tasks_In in Hc.
      destruct Hc as (b & Hb & Hd & _). rewrite Forall_forall in Hall.
      destruct (succeeded_inv _ (Hall b Hb)) as (d & r & ->).
      rewrite Hd. discriminate.
    - intros c e Hc. apply leaf_tasks_In in Hc.
      destruct Hc as (b & Hb & _ & Hr). rewrite Forall_forall in Hall.
      destruct (succeeded_inv _ (Hall b Hb)) as (d & r & ->).
      rewrite Hr. discriminate. }
  destruct (gather_tasks ts s1) as [o s'] eqn:Eg. cbn in Hfst.
  exists (map f rs), s'. congruence.
Qed.

(** Fan-out, when some invocation raises: the call raises the error of
    the raising invocation that completes first, at the time it
    completes; every task has been started. *)
Lemma fan_out_raises cs inputs s b0 e0 :
  Forall2 (is_leaf ex f) cs inputs ->
  In b0 (behaviours ex (st_calls s) inputs) ->
  error_of b0 = Some e0 ->
  exists d e s',
    In (mkBehaviour (Some d) (Raises e)) (behaviours ex (st_calls s) inputs)
    /\ gather cs s = (Exc e, s')
    /\ st_calls s' = st_calls s + List.length inputs
    /\ st_clock s' = st_clock s + d
    /\ (forall d' e',
          In (mkBehaviour (Some d') (Raises e'))
             (behaviours ex (st_calls s) inputs) -> d <= d').
Proof.
  intros Hleaf Hin0 He0. unfold gather, bind.
  destruct (create_tasks_leaves cs inputs Hleaf s)
    as (s1 & E & Hcl & Hca & Hn & Hsl & Hcn & Hso).
  rewrite E.
  set (ts := leaf_tasks f (st_clock s) (st_next_task s)
                        (behaviours ex (st_calls s) inputs)).
  destruct b0 as [[d0|] [r0|e0']]; cbn in He0; try discriminate.
  injection He0 as ->.
  destruct (In_leaf_tasks (st_clock s) _ (st_next_task s) _ Hin0)
    as (id0 & Hc0).
  destruct (gather_tasks_raises ts s1 _ e0 (st_clock s + d0) Hc0
              eq_refl eq_refl)
    as (c & e & t & Hc & Hr & Hd & Hg & Hmin).
  apply leaf_tasks_In in Hc. destruct Hc as (b & Hb & Hdb & Hrb).
  rewrite Hdb in Hd. rewrite Hrb in Hr.
  destruct b as [[d|] [r|e1]]; cbn in Hd, Hr; try discriminate.
  injection Hd as <-. injection Hr as ->.
  exists d, e. eexists. split; [exact Hb|]. split; [exact Hg|].
  cbn. repeat split; try lia.
  intros d' e' Hin'.
  destruct (In_leaf_tasks (st_clock s) _ (st_next_task s) _ Hin')
    as (id' & Hc').
  specialize (Hmin _ e' (st_clock s + d') Hc' eq_refl eq_refl). lia.
Qed.

End FanOut.

(** *** Lists of invocations *)

Lemma behaviours_app ex inputs1 : forall c inputs2,
  behaviours ex c (inputs1 ++ inputs2)
  = behaviours ex c inputs1
    ++ behaviours ex (c + List.length inputs1) inputs2.
Proof.
  induction inputs1 as [|q l IH]; intros c l2; cbn.
  - now rewrite Nat.add_0_r.
  - rewrite IH. do 3 f_equal. lia.
Qed.

Lemma behaviours_Forall ex (P : behaviour -> Prop) inputs : forall c,
  Forall P (behaviours ex c inputs) <->
  (forall i q, nth_error inputs i = Some q -> P (ex (c + i) q)).
Proof.
  induction inputs as [|q0 l IH]; intros c; cbn.
  - split; [|constructor]. intros _ [|i] q; discriminate.
  - split.
    + intros H. inversion H as [|? ? H0 Hl]; subst.
      intros [|i] q; cbn.
      * intros [= <-]. now rewrite Nat.add_0_r.
      * intros Hq. replace (c + S i) with (S c + i) by lia.
        now apply (proj1 (IH (S c)) Hl).
    + intros H. constructor.
      * specialize (H 0 q0 eq_refl). now rewrite Nat.add_0_r in H.
      * apply IH. intros i q Hq.
        replace (S c + i) with (c + S i) by lia. now apply H.
Qed.

Lemma behaviours_In ex inputs : forall c b,
  In b (behaviours ex c inputs) <->
  exists i q, nth_error inputs i = Some q /\ b = ex (c + i) q.
Proof.
  induction inputs as [|q0 l IH]; intros c b; cbn.
  - split; [tauto|]. intros ([|i] & q & H & _); discriminate.
  - rewrite IH. split.
    + intros [<-|(i & q & Hq & ->)].
      * exists 0, q0. now rewrite Nat.add_0_r.
      * exists (S i), q. split; [exact Hq|]. f_equal. lia.
    + intros ([|i] & q & Hq & ->); cbn in Hq.
      * left. injection Hq as <-. now rewrite Nat.add_0_r.
      * right. exists i, q. split; [exact Hq|]. f_equal. lia.
Qed.

(** A list of optional values that is a list of values, read position by
    position. *)
Lemma map_Some_nth {X Y} (g : X -> option Y) l : forall outs,
  map g l = map Some outs ->
  List.length outs = List.length l
  /\ forall i x, nth_error l i = Some x ->
                 exists o, g x = Some o /\ nth_error outs i = Some o.
Proof.
  induction l as [|x0 l IH]; intros [|o outs]; cbn; try discriminate.
  - intros _. split; [reflexivity|]. intros [|i] x; discriminate.
  - intros [= Hx Hl]. destruct (IH _ Hl) as (Hlen & Hnth).
    split; [now rewrite Hlen|].
    intros [|i] x; cbn.
    + intros [= <-]. now exists o.
    + apply Hnth.
Qed.

Lemma values_positional ex {B} (f : RunResult -> B) c inputs outs :
  map (fun b => option_map f (value_of b)) (behaviours ex c inputs)
  = map Some outs ->
  List.length outs = List.length inputs
  /\ forall i q, nth_error inputs i = Some q ->
                 exists r, value_of (ex (c + i) q) = Some r
                           /\ nth_error outs i = Some (f r).
Proof.
  intros H. apply map_Some_nth in H. destruct H as (Hlen & Hnth).
  rewrite length_behaviours in Hlen. split; [exact Hlen|].
  intros i q Hq.
  assert (Hb : nth_error (behaviours ex c inputs) i = Some (ex (c + i) q)).
  { clear - Hq. revert c i Hq.
    induction inputs as [|q0 l IH]; intros c [|i]; cbn; try discriminate.
    - intros [= <-]. now rewrite Nat.add_0_r.
    - intros Hq. rewrite (IH (S c) i Hq). do 2 f_equal. lia. }
  destruct (Hnth _ _ Hb) as (o & Ho & Hi).
  destruct (value_of (ex (c + i) q)) as [r|]; [|discriminate].
  exists r. split; [reflexivity|]. cbn in Ho. congruence.
Qed.

Lemma search_is_leaf ex item :
  is_leaf ex final_output (search ex item) (input_msg item).
Proof.
  intros s. unfold search, bind, ret.
  destruct (Runner_run ex (input_msg item) s) as [[r| |] s']; reflexivity.
Qed.

Lemma searches_are_leaves ex searches :
  Forall2 (is_leaf ex final_output)
          (map (search ex) searches) (map input_msg searches).
Proof.
  induction searches as [|item l IH]; cbn; constructor;
    [apply search_is_leaf|exact IH].
Qed.

Lemma runs_are_leaves ex queries :
  Forall2 (is_leaf ex (fun r => r)) (map (Runner_run ex) queries) queries.
Proof.
  induction queries as [|q l IH]; cbn; constructor;
    [apply Runner_run_is_leaf|exact IH].
Qed.

Lemma perform_searches_gather ex searches s :
  perform_searches ex searches s = gather (map (search ex) searches) s.
Proof.
  unfold perform_searches, gather, bind, ret.
  destruct (create_tasks (map (search ex) searches) s) as [[ts| |] s1];
    try reflexivity.
  destruct (gather_tasks ts s1) as [[outs| |] s2]; reflexivity.
Qed.

(** ** Batches *)

Lemma firstn_min_length {X} (l : list X) n :
  firstn (Nat.min n (List.length l)) l = firstn n l.
Proof.
  destruct (Nat.le_ge_cases n (List.length l)) as [H|H].
  - now rewrite Nat.min_l.
  - rewrite Nat.min_r by exact H. rewrite firstn_all.
    symmetry. now apply firstn_all2.
Qed.

Lemma firstn_plus {X} (l : list X) a b :
  firstn (a + b) l = firstn a l ++ firstn b (skipn a l).
Proof.
  revert l. induction a as [|a IH]; intros [|x l]; cbn; trivial.
  - now rewrite firstn_nil.
  - now rewrite IH.
Qed.

(** The slice taken by batch [k] is the [k]-th chunk of the list. *)
Lemma slice_chunk {X} (l : list X) (k : nat) (b : Z) :
  (0 < b)%Z ->
  slice l (Z.of_nat k * b) (Z.of_nat k * b + b)
  = firstn (Z.to_nat b) (skipn (k * Z.to_nat b) l).
Proof.
  intros Hb. unfold slice, clamp.
  set (B := Z.to_nat b). set (N := List.length l).
  assert (HB : b = Z.of_nat B) by (subst B; lia).
  assert (Hlo : (Z.of_nat k * b = Z.of_nat (k * B))%Z)
    by (rewrite HB; lia).
  rewrite Hlo.
  destruct (Z.ltb_spec (Z.of_nat (k * B)) 0) as [|_]; [lia|].
  destruct (Z.ltb_spec (Z.of_nat (k * B) + b) 0) as [|_]; [lia|].
  remember (k * B) as kB eqn:HkB.
  destruct (Nat.le_gt_cases kB N) as [Hle|Hgt].
  - replace (Z.to_nat (Z.min (Z.of_nat kB) (Z.of_nat N))) with kB by lia.
    replace (Z.to_nat (Z.min (Z.of_nat kB + b) (Z.of_nat N)) - kB)
      with (Nat.min B (List.length (skipn kB l))).
    + apply firstn_min_length.
    + rewrite length_skipn. fold N. lia.
  - replace (Z.to_nat (Z.min (Z.of_nat kB) (Z.of_nat N))) with N by lia.
    replace (Z.to_nat (Z.min (Z.of_nat kB + b) (Z.of_nat N)) - N)
      with 0 by lia.
    rewrite (skipn_all2 l (n := kB)) by (fold N; lia).
    now rewrite firstn_nil.
Qed.

(** [range(0, n, b)] with a positive step has one start per chunk. *)
Lemma range3_chunks (n : nat) (b : Z) :
  (0 < b)%Z ->
  exists cnt,
    range3 0 (Z.of_nat n) b
    = inr (map (fun k => (0 + Z.of_nat k * b)%Z) (seq 0 cnt))
    /\ n <= cnt * Z.to_nat b.
Proof.
  intros Hb. unfold range3, range_len.
  destruct (Z.eqb_spec b 0) as [|_]; [lia|].
  destruct (Z.ltb_spec 0 b) as [_|]; [|lia].
  eexists. split; [reflexivity|].
  set (q := ((Z.of_nat n - 0 + b - 1) / b)%Z).
  assert (Hq : (Z.of_nat n + b - 1 < b * (q + 1))%Z).
  { subst q. rewrite Z.sub_0_r.
    pose proof (Z.mul_succ_div_gt (Z.of_nat n + b - 1) b Hb). lia. }
  assert (Hq0 : (0 <= q)%Z).
  { subst q. apply Z.div_pos; lia. }
  replace (Z.to_nat (Z.max 0 q)) with (Z.to_nat q) by lia.
  apply Nat2Z.inj_le. rewrite Nat2Z.inj_mul, !Z2Nat.id by lia. nia.
Qed.

Section Batches.

Variable ex : Executor.
Variable queries : list string.
Variable batch_size : Z.
Hypothesis batch_size_pos : (0 < batch_size)%Z.

Let B := Z.to_nat batch_size.

Abbreviation starts_from k0 cnt :=
  (map (fun k => (0 + Z.of_nat k * batch_size)%Z) (seq k0 cnt)).

(** The queries of the [cnt] batches from batch [k0] on. *)
Abbreviation span k0 cnt := (firstn (cnt * B) (skipn (k0 * B) queries)).

Lemma span_step k0 cnt :
  span k0 (S cnt)
  = firstn B (skipn (k0 * B) queries) ++ span (S k0) cnt.
Proof.
  cbn [Nat.mul]. rewrite firstn_plus, skipn_skipn.
  repeat f_equal; lia.
Qed.

Lemma batch_loop_step k0 cnt results s :
  batch_loop ex queries batch_size (starts_from k0 (S cnt)) results s
  = (batch_results <-
       gather (map (Runner_run ex)
                   (firstn B (skipn (k0 * B) queries))) ;;
     batch_loop ex queries batch_size (starts_from (S k0) cnt)
                (results ++ batch_results)) s.
Proof.
  cbn [seq map batch_loop]. rewrite Z.add_0_l.
  now rewrite (slice_chunk queries k0 batch_size batch_size_pos).
Qed.

Lemma id_values bs :
  map (fun b => option_map (fun r : RunResult => r) (value_of b)) bs
  = map value_of bs.
Proof.
  apply map_ext. intros b. now destruct (value_of b).
Qed.

(** When the loop returns, it returns the results so far followed by the
    values of the remaining queries, in order; every query was run. *)
Lemma batch_loop_returns cnt : forall k0 results s outs s',
  batch_loop ex queries batch_size (starts_from k0 cnt) results s
  = (Ret outs, s') ->
  exists tail,
    outs = results ++ tail
    /\ map value_of (behaviours ex (st_calls s) (span k0 cnt))
       = map Some tail
    /\ st_calls s' = st_calls s + List.length (span k0 cnt).
Proof.
  induction cnt as [|cnt IH]; intros k0 results s outs s'.
  - cbn. intros [= <- <-]. exists []. rewrite app_nil_r.
    repeat split. lia.
  - rewrite batch_loop_step. unfold bind at 1.
    destruct (gather _ s) as [[bouts| |] s1] eqn:Eg; try discriminate.
    intros Hrest.
    destruct (fan_out_returns ex (fun r => r) _ _ s bouts s1
                (runs_are_leaves ex _) Eg) as (Hv & Hc & _).
    rewrite id_values in Hv.
    destruct (IH _ _ _ _ _ Hrest) as (tail & -> & Ht & Hc').
    exists (bouts ++ tail). rewrite span_step, behaviours_app, !map_app.
    rewrite Hv, <- Hc, Ht, app_assoc, length_app.
    repeat split. lia.
Qed.

(** The loop returns when every remaining invocation returns. *)
Lemma batch_loop_all_succeed cnt : forall k0 results s,
  Forall (fun b => succeeded b = true)
         (behaviours ex (st_calls s) (span k0 cnt)) ->
  exists outs s',
    batch_loop ex queries batch_size (starts_from k0 cnt) results s
    = (Ret outs, s').
Proof.
  induction cnt as [|cnt IH]; intros k0 results s Hall.
  - cbn. now exists results, s.
  - rewrite span_step, behaviours_app in Hall.
    apply Forall_app in Hall. destruct Hall as (Hnow & Hlater).
    rewrite batch_loop_step. unfold bind at 1.
    destruct (fan_out_all_succeed ex (fun r => r) _ _ s
                (runs_are_leaves ex _) Hnow) as (bouts & s1 & Eg).
    rewrite Eg.
    destruct (fan_out_returns ex (fun r => r) _ _ s bouts s1
                (runs_are_leaves ex _) Eg) as (_ & Hc & _).
    apply IH. now rewrite Hc.
Qed.

(** When the first raising query lies in batch [m] (counted from the
    current one) and every query before it returns, the loop raises the
    error of a raising query of batch [m]; the batches after [m] are not
    started. *)
Lemma batch_loop_raises cnt : forall k0 results s i q e,
  nth_error (span k0 cnt) i = Some q ->
  error_of (ex (st_calls s + i) q) = Some e ->
  (forall i' q', i' < i -> nth_error (span k0 cnt) i' = Some q' ->
                 succeeded (ex (st_calls s + i') q') = true) ->
  exists m j qj ej s',
    (m * B <= i < (m + 1) * B)
    /\ (m * B <= j < (m + 1) * B)
    /\ nth_error (span k0 cnt) j = Some qj
    /\ error_of (ex (st_calls s + j) qj) = Some ej
    /\ batch_loop ex queries batch_size (starts_from k0 cnt) results s
       = (Exc ej, s')
    /\ st_calls s' = st_calls s + List.length (span k0 (S m)).
Proof.
  induction cnt as [|cnt IH]; intros k0 results s i q e Hi He Hbefore.
  - cbn in Hi. destruct i; discriminate.
  - rewrite span_step in Hi, Hbefore |- *.
    set (chunk := firstn B (skipn (k0 * B) queries)) in *.
    assert (Hchunk : List.length chunk <= B).
    { subst chunk. rewrite length_firstn. lia. }
    rewrite batch_loop_step. fold chunk. unfold bind at 1.
    destruct (Nat.lt_ge_cases i (List.length chunk)) as [Hin|Hout].
    + rewrite nth_error_app1 in Hi by exact Hin.
      assert (Hb : In (ex (st_calls s + i) q)
                      (behaviours ex (st_calls s) chunk)).
      { apply behaviours_In. now exists i, q. }
      destruct (fan_out_raises ex (fun r => r) _ _ s _ e
                  (runs_are_leaves ex chunk) Hb He)
        as (d & ej & s1 & Hbj & Eg & Hc & _).
      apply behaviours_In in Hbj. destruct Hbj as (j & qj & Hj & Hej).
      assert (Hjlt : j < List.length chunk).
      { apply nth_error_Some. congruence. }
      exists 0, j, qj, ej, s1. rewrite Eg.
      repeat split; try lia.
      * rewrite nth_error_app1 by exact Hjlt. exact Hj.
      * rewrite <- Hej. reflexivity.
      * rewrite Hc. f_equal. subst chunk.
        replace (1 * B) with B by lia. reflexivity.
    + rewrite nth_error_app2 in Hi by exact Hout.
      assert (HB : List.length chunk = B).
      { subst chunk. rewrite length_firstn.
        destruct (Nat.le_gt_cases B (List.length (skipn (k0 * B) queries)))
          as [Hle|Hgt]; [lia|].
        exfalso.
        replace (skipn (S k0 * B) queries)
          with (skipn B (skipn (k0 * B) queries)) in Hi
          by (rewrite skipn_skipn; f_equal; lia).
        rewrite skipn_all2 in Hi by lia.
        rewrite firstn_nil in Hi. destruct (i - _); discriminate. }
      assert (Hnow : Forall (fun b => succeeded b = true)
                            (behaviours ex (st_calls s) chunk)).
      { apply behaviours_Forall. intros i' q' Hq'.
        assert (i' < List.length chunk)
          by (apply nth_error_Some; congruence).
        apply Hbefore; [lia|]. now rewrite nth_error_app1. }
      destruct (fan_out_all_succeed ex (fun r => r) _ _ s
                  (runs_are_leaves ex chunk) Hnow) as (bouts & s1 & Eg).
      destruct (fan_out_returns ex (fun r => r) _ _ s bouts s1
                  (runs_are_leaves ex chunk) Eg) as (_ & Hc & _).
      rewrite Eg. rewrite HB in *.
      destruct (IH (S k0) (results ++ bouts) s1 (i - B) q e)
        as (m & j & qj & ej & s' & Hm & Hjm & Hj & Hej & El & Hc').
      { exact Hi. }
      { rewrite Hc. replace (st_calls s + B + (i - B))
          with (st_calls s + i) by lia. exact He. }
      { intros i' q' Hi' Hq'. rewrite Hc.
        replace (st_calls s + B + i') with (st_calls s + (B + i')) by lia.
        apply Hbefore; [lia|].
        rewrite nth_error_app2 by lia.
        replace (B + i' - List.length chunk) with i' by lia. exact Hq'. }
      exists (S m), (B + j), qj, ej, s'. rewrite El.
      repeat split; try lia.
      * rewrite nth_error_app2 by lia.
        replace (B + j - List.length chunk) with j by lia. exact Hj.
      * rewrite Hc in Hej.
        replace (st_calls s + (B + j)) with (st_calls s + B + j) by lia.
        exact Hej.
      * rewrite Hc', Hc. rewrite (span_step k0 (S m)). fold chunk.
        rewrite length_app. lia.
Qed.

End Batches.

(** ** Order of the results of fan-out and batches *)

Lemma for_each_print {X} (g : X -> line) (body : X -> M unit) l :
  (forall x s, body x s = print (g x) s) ->
  forall s,
    for_each l body s
    = (Ret tt,
       mkState (st_clock s) (st_calls s) (st_next_task s) (st_sleeps s)
               (st_cancelled s) (st_stdout s ++ map g l)).
Proof.
  intros Hbody. induction l as [|x l IH]; intros s; cbn [for_each map].
  - rewrite app_nil_r. now destruct s.
  - unfold bind. rewrite Hbody. unfold print at 1. rewrite IH. cbn.
    now rewrite <- app_assoc.
Qed.

Lemma batch_parallel_searches_loop ex queries batch_size :
  (1 <= batch_size)%Z ->
  exists cnt,
    (forall s,
       batch_parallel_searches ex queries batch_size s
       = batch_loop ex queries batch_size
           (map (fun k => (0 + Z.of_nat k * batch_size)%Z) (seq 0 cnt)) [] s)
    /\ firstn (cnt * Z.to_nat batch_size) (skipn (0 * Z.to_nat batch_size)
                                                 queries) = queries.
Proof.
  intros Hb.
  destruct (range3_chunks (List.length queries) batch_size ltac:(lia))
    as (cnt & Hr & Hcnt).
  exists cnt. split.
  - intros s. unfold batch_parallel_searches. now rewrite Hr.
  - cbn [Nat.mul skipn]. now apply firstn_all2.
Qed.

(** C1: the list returned by the fan-out over [asyncio.gather]
    ([perform_searches], and the results printed by
    [basic_parallel_searches]) and by the batch loop with
    [batch_size >= 1] has one entry per task, the entry at index [i] being
    the result of task [i] (invocation number [i] of the executor),
    whatever the latencies, hence the order of completion, are; and the
    call does return whenever every task's invocation returns. *)
Theorem fan_out_preserves_order (ex : Executor) (s : state) :
  (forall searches,
     (forall outs s',
        perform_searches ex searches s = (Ret outs, s') ->
        positional ex (st_calls s) (map input_msg searches)
                   final_output outs)
     /\ ((forall i item,
            nth_error searches i = Some item ->
            succeeded (ex (st_calls s + i) (input_msg item)) = true) ->
         exists outs s', perform_searches ex searches s = (Ret outs, s')))
  /\
  (forall queries batch_size,
     (1 <= batch_size)%Z ->
     (forall outs s',
        batch_parallel_searches ex queries batch_size s = (Ret outs, s') ->
        positional ex (st_calls s) queries (fun r => r) outs)
     /\ ((forall i q,
            nth_error queries i = Some q ->
            succeeded (ex (st_calls s + i) q) = true) ->
         exists outs s',
           batch_parallel_searches ex queries batch_size s
           = (Ret outs, s')))
  /\
  ((forall i q,
      nth_error basic_queries i = Some q ->
      succeeded (ex (st_calls s + i) q) = true) ->
   exists outs s',
     positional ex (st_calls s) basic_queries (fun r => r) outs
     /\ basic_parallel_searches ex s = (Ret tt, s')
     /\ st_stdout s'
        = st_stdout s
          ++ map result_line (enumerate 1 (combine basic_queries outs))).
Proof.
  split; [|split].
  - intros searches. split.
    + intros outs s'. rewrite perform_searches_gather. intros Hg.
      destruct (fan_out_returns ex final_output _ _ s outs s'
                  (searches_are_leaves ex searches) Hg) as (Hv & _).
      now apply values_positional.
    + intros Hall. setoid_rewrite perform_searches_gather.
      apply (fan_out_all_succeed ex final_output _ _ s
               (searches_are_leaves ex searches)).
      apply behaviours_Forall. intros i q Hq.
      rewrite nth_error_map in Hq.
      destruct (nth_error searches i) as [item|] eqn:Hi; [|discriminate].
      injection Hq as <-. now apply Hall.
  - intros queries batch_size Hb.
    destruct (batch_parallel_searches_loop ex queries batch_size Hb)
      as (cnt & Hloop & Hspan).
    split.
    + intros outs s'. rewrite Hloop. intros Hl.
      destruct (batch_loop_returns ex queries batch_size ltac:(lia)
                  cnt 0 [] s outs s' Hl) as (tail & -> & Hv & _).
      rewrite Hspan in Hv. cbn [app].
      apply values_positional. now rewrite id_values.
    + intros Hall. setoid_rewrite Hloop.
      apply (batch_loop_all_succeed ex queries batch_size ltac:(lia)).
      rewrite Hspan. now apply behaviours_Forall.
  - intros Hall. unfold basic_parallel_searches. cbv zeta.
    assert (Hf : Forall (fun b => succeeded b = true)
                        (behaviours ex (st_calls s) basic_queries))
      by now apply behaviours_Forall.
    destruct (fan_out_all_succeed ex (fun r => r) _ _ s
                (runs_are_leaves ex basic_queries) Hf) as (outs & s1 & Eg).
    destruct (fan_out_returns ex (fun r => r) _ _ s outs s1
                (runs_are_leaves ex basic_queries) Eg) as (Hv & _ & Ho & _).
    exists outs. eexists. split; [now apply values_positional|].
    unfold bind. rewrite Eg.
    rewrite (for_each_print result_line).
    + split; [reflexivity|]. cbn [st_stdout]. now rewrite Ho.
    + intros [i [q r]] s0. reflexivity.
Qed.

(** Latencies decrease with the index, so that the tasks complete in the
    reverse of the order of submission: the results still come in the
    order of submission. *)
Lemma fan_out_preserves_order_witness :
  positional ex_echo 0 ["a"; "b"; "c"; "d"; "e"; "f"; "g"; "h"]
             (fun r => r)
             (map mkRunResult
                  ["a!"; "b!"; "c!"; "d!"; "e!"; "f!"; "g!"; "h!"])
  /\ exists outs s',
       perform_searches ex_echo [mkItem "why" "a"; mkItem "why" "b"]
                        initial_state = (Ret outs, s').
Proof.
  split.
  - apply (proj1 (proj1 (proj2 (fan_out_preserves_order
                                  ex_echo initial_state))
                    ["a"; "b"; "c"; "d"; "e"; "f"; "g"; "h"] 3%Z
                    ltac:(lia))
             (map mkRunResult
                  ["a!"; "b!"; "c!"; "d!"; "e!"; "f!"; "g!"; "h!"])
             (mkState 21 8 8 [] [] [])).
    reflexivity.
  - apply (proj2 (proj1 (fan_out_preserves_order ex_echo initial_state)
                    [mkItem "why" "a"; mkItem "why" "b"])).
    intros i item Hi.
    destruct i as [|[|i]]; cbn in Hi.
    1,2: injection Hi as <-; reflexivity.
    destruct i; discriminate.
Defined.

(** ** A failing task in fan-out and in batches *)

(** C4 (amended): when the executor raises for some task, the fan-out
    does not return a list: every task having been started, the call
    raises the error of the raising task that completes first, at the
    time that task completes, without waiting for the other tasks and
    without delivering their results.  The batch loop
    ([batch_size >= 1]), when the first raising task lies in batch [m] and
    every task before it returns, raises the error of a raising task of
    batch [m]; only the tasks of batches [0..m] were started. *)
Theorem fan_out_raises_first_failure (ex : Executor) (s : state) :
  (forall searches i item e,
     nth_error searches i = Some item ->
     error_of (ex (st_calls s + i) (input_msg item)) = Some e ->
     exists j item_j d_j e_j s',
       nth_error searches j = Some item_j
       /\ ex (st_calls s + j) (input_msg item_j)
          = mkBehaviour (Some d_j) (Raises e_j)
       /\ perform_searches ex searches s = (Exc e_j, s')
       /\ st_calls s' = st_calls s + List.length searches
       /\ st_clock s' = st_clock s + d_j
       /\ (forall k item_k d_k e_k,
             nth_error searches k = Some item_k ->
             ex (st_calls s + k) (input_msg item_k)
             = mkBehaviour (Some d_k) (Raises e_k) ->
             d_j <= d_k))
  /\
  (forall queries batch_size i q e,
     (1 <= batch_size)%Z ->
     nth_error queries i = Some q ->
     error_of (ex (st_calls s + i) q) = Some e ->
     (forall i' q', i' < i -> nth_error queries i' = Some q' ->
                    succeeded (ex (st_calls s + i') q') = true) ->
     exists m j q_j e_j s',
       (m * Z.to_nat batch_size <= i < (m + 1) * Z.to_nat batch_size)
       /\ (m * Z.to_nat batch_size <= j < (m + 1) * Z.to_nat batch_size)
       /\ nth_error queries j = Some q_j
       /\ error_of (ex (st_calls s + j) q_j) = Some e_j
       /\ batch_parallel_searches ex queries batch_size s = (Exc e_j, s')
       /\ st_calls s'
          = st_calls s
            + List.length (firstn ((m + 1) * Z.to_nat batch_size) queries)).
Proof.
  split.
  - intros searches i item e Hi He.
    assert (Hb : In (ex (st_calls s + i) (input_msg item))
                    (behaviours ex (st_calls s) (map input_msg searches))).
    { apply behaviours_In. exists i, (input_msg item).
      split; [|reflexivity]. rewrite nth_error_map, Hi. reflexivity. }
    destruct (fan_out_raises ex final_output _ _ s _ e
                (searches_are_leaves ex searches) Hb He)
      as (d & ej & s' & Hbj & Eg & Hc & Hcl & Hmin).
    apply behaviours_In in Hbj. destruct Hbj as (j & qj & Hj & Hej).
    rewrite nth_error_map in Hj.
    destruct (nth_error searches j) as [item_j|] eqn:Hnj; [|discriminate].
    injection Hj as <-.
    exists j, item_j, d, ej, s'. rewrite perform_searches_gather.
    rewrite length_map in Hc. repeat split; trivial.
    + now symmetry.
    + intros k item_k d_k e_k Hk Hek. apply (Hmin d_k e_k).
      apply behaviours_In. exists k, (input_msg item_k).
      split; [|now symmetry]. rewrite nth_error_map, Hk. reflexivity.
  - intros queries batch_size i q e Hb Hi He Hbefore.
    destruct (batch_parallel_searches_loop ex queries batch_size Hb)
      as (cnt & Hloop & Hspan).
    rewrite Hloop.
    destruct (batch_loop_raises ex queries batch_size ltac:(lia)
                cnt 0 [] s i q e)
      as (m & j & qj & ej & s' & Hm & Hjm & Hj & Hej & El & Hc).
    { now rewrite Hspan. }
    { exact He. }
    { intros i' q' Hi' Hq'. rewrite Hspan in Hq'. now apply Hbefore. }
    exists m, j, qj, ej, s'. rewrite Hspan in Hj.
    destruct Hm, Hjm. repeat split; trivial.
    rewrite Hc. cbn [Nat.mul skipn].
    replace (m + 1) with (S m) by lia. reflexivity.
Qed.

(** The second of three tasks fails after one tick while the others take
    eight to ten: the fan-out raises at time 1; in batches of three over
    eight queries only the three tasks of the first batch are started. *)
Lemma fan_out_raises_first_failure_witness :
  (exists j item_j d_j e_j s',
     nth_error [mkItem "why" "a"; mkItem "why" "b"; mkItem "why" "c"] j
     = Some item_j
     /\ ex_fail_at 1 (OtherError "APIError") (0 + j) (input_msg item_j)
        = mkBehaviour (Some d_j) (Raises e_j)
     /\ perform_searches (ex_fail_at 1 (OtherError "APIError"))
          [mkItem "why" "a"; mkItem "why" "b"; mkItem "why" "c"]
          initial_state = (Exc e_j, s')
     /\ st_calls s' = 0 + 3
     /\ st_clock s' = 0 + d_j
     /\ (forall k item_k d_k e_k,
           nth_error [mkItem "why" "a"; mkItem "why" "b"; mkItem "why" "c"] k
           = Some item_k ->
           ex_fail_at 1 (OtherError "APIError") (0 + k) (input_msg item_k)
           = mkBehaviour (Some d_k) (Raises e_k) ->
           d_j <= d_k))
  /\
  (exists m j q_j e_j s',
     (m * 3 <= 1 < (m + 1) * 3)
     /\ (m * 3 <= j < (m + 1) * 3)
     /\ nth_error ["a"; "b"; "c"; "d"; "e"; "f"; "g"; "h"] j = Some q_j
     /\ error_of (ex_fail_at 1 (OtherError "APIError") (0 + j) q_j)
        = Some e_j
     /\ batch_parallel_searches (ex_fail_at 1 (OtherError "APIError"))
          ["a"; "b"; "c"; "d"; "e"; "f"; "g"; "h"] 3 initial_state
        = (Exc e_j, s')
     /\ st_calls s'
        = 0 + List.length
                (firstn ((m + 1) * 3)
                        ["a"; "b"; "c"; "d"; "e"; "f"; "g"; "h"])).
Proof.
  split.
  - apply (proj1 (fan_out_raises_first_failure
                    (ex_fail_at 1 (OtherError "APIError")) initial_state)
             [mkItem "why" "a"; mkItem "why" "b"; mkItem "why" "c"]
             1 (mkItem "why" "b") (mkExn (OtherError "APIError") "boom"));
      reflexivity.
  - apply (proj2 (fan_out_raises_first_failure
                    (ex_fail_at 1 (OtherError "APIError")) initial_state)
             ["a"; "b"; "c"; "d"; "e"; "f"; "g"; "h"] 3%Z
             1 "b" (mkExn (OtherError "APIError") "boom")).
    + lia.
    + reflexivity.
    + reflexivity.
    + intros i' q' Hi' Hq'. destruct i' as [|i']; [|lia].
      cbn in Hq'. injection Hq' as <-. reflexivity.
Defined.

(** C4 as stated fails: with one task raising, neither strategy returns
    a list; each raises, and the batch loop never starts the second and
    third batches. *)
Lemma fan_out_failure_counterexample :
  perform_searches (ex_fail_at 1 (OtherError "APIError"))
    [mkItem "why" "a"; mkItem "why" "b"; mkItem "why" "c"] initial_state
  = (Exc (mkExn (OtherError "APIError") "boom"), mkState 1 3 3 [] [] [])
  /\ basic_parallel_searches (ex_fail_at 1 (OtherError "APIError"))
       initial_state
     = (Exc (mkExn (OtherError "APIError") "boom"), mkState 1 3 3 [] [] [])
  /\ batch_parallel_searches (ex_fail_at 1 (OtherError "APIError"))
       ["a"; "b"; "c"; "d"; "e"; "f"; "g"; "h"] 3 initial_state
     = (Exc (mkExn (OtherError "APIError") "boom"), mkState 1 3 3 [] [] []).
Proof.
  repeat split.
Qed.

(** ** The race *)

Section Race.

Variable ex : Executor.
Variable q : string.

Lemma create_task_search_task agent_id s :
  create_task (search_task ex q agent_id) s
  = (Ret (race_task q (st_clock s) (st_next_task s) agent_id
                    (ex (st_calls s) q)),
     mkState (st_clock s) (S (st_calls s)) (S (st_next_task s))
             (st_sleeps s) (st_cancelled s) (st_stdout s)).
Proof.
  unfold create_task, search_task, bind, time_time, Runner_run, ret,
    race_task, set_clock.
  cbn [st_clock st_calls st_next_task st_sleeps st_cancelled st_stdout].
  destruct (ex (st_calls s) q) as [[d|] [r|e]]; cbn; try reflexivity.
  replace (st_clock s + d - st_clock s) with d by lia. reflexivity.
Qed.

Lemma create_tasks_race agents : forall s,
  exists s',
    create_tasks (map (fun i => search_task ex q (Z.of_nat i + 1)) agents) s
    = (Ret (race_tasks ex q (st_clock s) (st_next_task s) (st_calls s)
                       agents), s')
    /\ st_clock s' = st_clock s
    /\ st_calls s' = st_calls s + List.length agents
    /\ st_next_task s' = st_next_task s + List.length agents
    /\ st_sleeps s' = st_sleeps s
    /\ st_cancelled s' = st_cancelled s
    /\ st_stdout s' = st_stdout s.
Proof.
  induction agents as [|i agents IH]; intros s.
  - exists s. cbn. repeat split; lia.
  - cbn [map create_tasks]. unfold bind.
    rewrite create_task_search_task.
    destruct (IH (mkState (st_clock s) (S (st_calls s)) (S (st_next_task s))
                          (st_sleeps s) (st_cancelled s) (st_stdout s)))
      as (s' & E & Hcl & Hca & Hn & Hsl & Hcn & Hso).
    exists s'. rewrite E. cbn in *.
    repeat split; try assumption; lia.
Qed.



End Race.






Lemma racers_nonempty ex q num_agents :
  (1 <= num_agents)%Z -> racers ex q (range1 num_agents) <> [].
Proof.
  intros Hn. unfold racers, range1.
  destruct (Z.to_nat num_agents) eqn:E; [lia|]. cbn. discriminate.
Qed.

Lemma race_eq ex py set_order set_list q num_agents s :
  race ex py set_order set_list q num_agents s
  = (dp <- wait_first_completed py set_order
                                (racers ex q (range1 num_agents)) ;;
     let '(done, pending) := dp in
     first <- first_item (set_list done) ;;
     winner <- task_result_of first ;;
     agent_id <- getitem winner "agent_id" ;;
     time <- getitem winner "time" ;;
     result <- getitem winner "result" ;;
     prefix <- str_prefix 150 result ;;
     print (PrintWinner agent_id time prefix) ;;;
     for_each (set_list pending) cancel ;;;
     print (PrintCancelled (List.length pending)) ;;;
     print PrintBlank) (racing q num_agents s).
Proof.
  unfold race. unfold bind at 1, print at 1. unfold bind at 1, print at 1.
  unfold racing, race_banner.
  cbn [st_clock st_calls st_next_task st_sleeps st_cancelled st_stdout].
  rewrite <- app_assoc. reflexivity.
Qed.




(** Whatever the order in which a set lists the coroutines of the race,
    they are those of the agents taken in some order. *)
Lemma set_order_agents ex q (set_order : list (M dict) -> list (M dict))
      num_agents :
  (forall l, Permutation (set_order l) l) ->
  exists agents,
    set_order (racers ex q (range1 num_agents)) = racers ex q agents
    /\ Permutation agents (range1 num_agents).
Proof.
  intros Hperm. unfold racers.
  destruct (Permutation_map_inv _ _ (Hperm (racers ex q (range1 num_agents))))
    as (agents & E & Hp).
  exists agents. split; [exact E|]. symmetry. exact Hp.
Qed.



(** The race of the repository: three agents on the same question, on
    [ex_echo], up to Python 3.10.  When the set lists the coroutines in
    the order of the list, agent 3 wins at time 8 and the two others are
    sent a cancellation; when it lists them in the reverse order, agent 1
    wins. *)
Example race_to_answer_run :
  race_to_answer ex_echo Python_3_10 in_list_order in_list_order
                 initial_state
  = (Ret tt,
     mkState 8 3 3 [] [0; 1]
             [ PrintBanner "Pattern 3: Race Condition - First to Finish";
               PrintRacing 3 "What are AI agents?";
               PrintWinner (VInt 3) (VInt 8) "What are AI agents?!";
               PrintCancelled 2;
               PrintBlank ])
  /\ race_to_answer ex_echo Python_3_10 (@rev (M dict)) in_list_order
                    initial_state
     = (Ret tt,
        mkState 8 3 3 [] [0; 1]
                [ PrintBanner "Pattern 3: Race Condition - First to Finish";
                  PrintRacing 3 "What are AI agents?";
                  PrintWinner (VInt 1) (VInt 8) "What are AI agents?!";
                  PrintCancelled 2;
                  PrintBlank ]).
Proof. split; reflexivity. Qed.


(** * Further properties of the strategies *)

(** ** The deadline wrapper bounds the wait as far as it can *)

(** X1: [search_with_timeout] bounds the wait only as far as the
    executor honours a cancellation.  It makes one invocation, or none
    when no time is allowed ([timeout <= 0]), in which case it ends at
    once.  An invocation that completes before the deadline ends the
    call when it completes.  When the invocation, cancelled at the
    deadline, ends [wait] ticks after the request, the call ends no later
    than [timeout + wait] ticks after it started.  The call never
    completes exactly when the invocation is still running at the
    deadline and never ends once cancelled.  A dict it returns is either
    the timeout dict or the success dict of a value the executor
    returned, before the deadline or after the cancellation. *)
Theorem search_with_timeout_bounded
        (ex : Executor) (cx : Canceller) (q : string) (timeout : Z)
        (s : state) :
  let b := ex (st_calls s) q in
  let c := cx (st_calls s) q in
  let limit := Z.to_nat timeout in
  let r := search_with_timeout ex cx q timeout s in
  st_calls (snd r)
  = (if (timeout <=? 0)%Z then st_calls s else S (st_calls s))
  /\ ((timeout <= 0)%Z -> st_clock (snd r) = st_clock s)
  /\ (in_time limit b = true ->
      st_clock (snd r) = st_clock s + duration b)
  /\ (forall wait,
        stop_delay c = Some wait ->
        fst r <> Hang
        /\ st_clock s <= st_clock (snd r) <= st_clock s + limit + wait)
  /\ (fst r = Hang <->
      (0 < timeout)%Z /\ in_time limit b = false /\ stop_delay c = None)
  /\ (forall d, fst r = Ret d ->
                d = timeout_expired q
                \/ exists r0,
                    (value_of b = Some r0 \/ stop_result c = Returned r0)
                    /\ d = timeout_success q r0).
Proof.
  cbv zeta.
  assert (Hlt : forall d, (st_clock s + d <? st_clock s + Z.to_nat timeout)%nat
                          = (d <? Z.to_nat timeout)%nat).
  { intros d. destruct (Nat.ltb_spec d (Z.to_nat timeout)),
      (Nat.ltb_spec (st_clock s + d) (st_clock s + Z.to_nat timeout));
      trivial; lia. }
  run_wait_for. unfold in_time, duration, value_of.
  destruct (Z.leb_spec timeout 0) as [Hle|Hpos].
  - replace (Z.to_nat timeout) with 0 by lia.
    cbn [fst snd st_clock st_calls is_TimeoutError exc_type].
    split; [reflexivity|]. split; [reflexivity|].
    split; [destruct (latency (ex (st_calls s) q)); discriminate|].
    split; [intros wait _; split; [discriminate|lia]|].
    split; [split; [discriminate|intros (H & _); lia]|].
    intros d [= <-]. left. reflexivity.
  - destruct (ex (st_calls s) q) as [[d|] [r|e]]; cbn [latency result];
      cbn [done_at task_result task_id st_clock st_calls st_next_task
           st_sleeps st_cancelled st_stdout];
      rewrite ?Hlt;
      try (destruct (Nat.ltb_spec d (Z.to_nat timeout)) as [Hd|Hd]);
      try destruct (is_TimeoutError e) eqn:He;
      destruct (cx (st_calls s) q) as [[wait|] [|r'|[[| | |name] msg]]];
      cbn [stop_delay stop_result is_CancelledError is_TimeoutError
           exc_type fst snd st_clock st_calls];
      (split; [reflexivity|]);
      (split; [intros; lia|]);
      (split; [intros H; try discriminate H; lia|]);
      (split; [intros wait' H;
               first [discriminate H
                     |injection H as <-; split; [discriminate|lia]]|]);
      (split; [split; [intros H; try discriminate H;
                       repeat split; trivial; lia
                      |intros (_ & H1 & H2);
                       try discriminate H1; try discriminate H2;
                       reflexivity]|]);
      intros d0 H;
      first [discriminate H
            |injection H as <-;
             first [left; reflexivity
                   |right; eexists; (split; [|reflexivity]);
                    first [left; reflexivity|right; reflexivity]]].
Qed.

(** ** The retry loop, attempt by attempt *)

Section RetryTrace.

Variable ex : Executor.
Variable q : string.
Variable max_retries : Z.

Lemma attempts_on_S c k :
  attempts_on ex c q (S k) = ex c q :: attempts_on ex (S c) q k.
Proof. reflexivity. Qed.

Ltac first_attempt Hb :=
  exists 0; unfold ret, set_clock, attempts_on, duration, value_of, error_of;
  cbn [fst snd st_clock st_calls st_next_task st_sleeps st_cancelled
       st_stdout repeat behaviours map list_sum seq];
  rewrite ?Nat.add_0_r, ?app_nil_r, ?Hb; cbn [latency result map list_sum];
  (split; [lia|]); (split; [intros i Hi; lia|]).

(** What a run of the loop over the attempts [a, a + n) does: it stops at
    some attempt [a + j], the ones before having failed and been followed
    by their backoff, and attempt [a + j] decides the outcome. *)
Lemma retry_loop_trace n : forall a s,
  1 <= n -> Z.of_nat (a + n) = max_retries ->
  let R := retry_loop ex q max_retries (seq a n) s in
  exists j,
    j < n
    /\ (forall i, i < j -> failed (ex (st_calls s + i) q) = true)
    /\ st_calls (snd R) = st_calls s + S j
    /\ st_sleeps (snd R) = st_sleeps s ++ map (Nat.pow 2) (seq a j)
    /\ st_clock (snd R)
       = st_clock s
         + list_sum (map duration (attempts_on ex (st_calls s) q (S j)))
         + list_sum (map (Nat.pow 2) (seq a j))
    /\ st_cancelled (snd R) = st_cancelled s
    /\ st_stdout (snd R) = st_stdout s
    /\ st_next_task (snd R) = st_next_task s
    /\ ((exists r,
           value_of (ex (st_calls s + j) q) = Some r
           /\ fst R = Ret (Some (retry_success q r (Z.of_nat (a + j) + 1))))
        \/ (exists e,
              error_of (ex (st_calls s + j) q) = Some e
              /\ is_Exception e = true /\ S j = n
              /\ fst R
                 = Ret (Some (retry_failure q e (Z.of_nat (a + j) + 1))))
        \/ (exists e,
              error_of (ex (st_calls s + j) q) = Some e
              /\ is_Exception e = false /\ fst R = Exc e)
        \/ (latency (ex (st_calls s + j) q) = None /\ fst R = Hang)).
Proof.
  induction n as [|n IH]; intros a s Hn Ha; [lia|].
  cbv zeta.
  remember (retry_loop ex q max_retries (seq a (S n)) s) as R eqn:HR.
  cbn [seq retry_loop] in HR. unfold try_except, bind, Runner_run in HR.
  destruct (ex (st_calls s) q) as [[d|] [r|e]] eqn:Hb;
    cbn [latency result] in HR.
  - subst R. first_attempt Hb.
    repeat split; try (cbn; lia). left. eauto.
  - destruct (is_Exception e) eqn:He.
    + destruct (Z.eqb_spec (Z.of_nat a) (max_retries - 1)) as [Hl|Hl].
      * subst R. first_attempt Hb.
        repeat split; try (cbn; lia). right; left. exists e.
        repeat split; trivial. lia.
      * unfold sleep in HR.
        match type of HR with
        | _ = retry_loop ex q max_retries (seq (S a) n) ?s1 =>
            destruct (IH (S a) s1) as
              (j & Hj & Hf & Hc & Hs & Hk & Hx & Ho & Ht & Hr);
            [lia|lia|]
        end.
        rewrite <- HR in Hc, Hs, Hk, Hx, Ho, Ht, Hr.
        unfold set_clock in Hc, Hs, Hk, Hx, Ho, Ht, Hr, Hf.
        cbn [st_clock st_calls st_next_task st_sleeps st_cancelled
             st_stdout] in Hc, Hs, Hk, Hx, Ho, Ht, Hr, Hf.
        exists (S j).
        replace (st_calls s + S j) with (S (st_calls s) + j) by lia.
        replace (a + S j) with (S a + j) by lia.
        repeat split; trivial; try lia.
        -- intros [|i] Hi.
           ++ rewrite Nat.add_0_r, Hb. unfold failed. cbn. exact He.
           ++ replace (st_calls s + S i) with (S (st_calls s) + i) by lia.
              apply Hf. lia.
        -- rewrite Hs, <- app_assoc. reflexivity.
        -- rewrite (attempts_on_S (st_calls s)), Hb, Hk.
           unfold list_sum. cbn [map seq fold_right].
           change (duration (mkBehaviour (Some d) (Raises e))) with d. lia.
        -- destruct Hr as [Hr|[(e' & E1 & E2 & E3 & E4)|Hr]].
           ++ left. exact Hr.
           ++ right; left. exists e'. repeat split; trivial. lia.
           ++ right; right. exact Hr.
    + subst R. first_attempt Hb.
      repeat split; try (cbn; lia). right; right; left. eauto.
  - subst R. first_attempt Hb.
    repeat split; try (cbn; lia). right; right; right. split; reflexivity.
  - subst R. first_attempt Hb.
    repeat split; try (cbn; lia). right; right; right. split; reflexivity.
Qed.

End RetryTrace.

Lemma failed_reading b :
  failed b = true ->
  value_of b = None
  /\ latency b <> None
  /\ (forall e, error_of b = Some e -> is_Exception e = true).
Proof.
  unfold failed, value_of, error_of.
  destruct b as [[d|] [r|e]]; cbn; try discriminate.
  intros He. repeat split; try discriminate. intros e' [= <-]. exact He.
Qed.

Lemma sum_powers_of_two j : list_sum (map (Nat.pow 2) (seq 0 j)) = 2 ^ j - 1.
Proof.
  induction j as [|j IH].
  - reflexivity.
  - rewrite seq_S, map_app, list_sum_app, IH.
    change (list_sum (map (Nat.pow 2) [0 + j])) with (2 ^ j + 0).
    assert (1 <= 2 ^ j) by (apply Nat.neq_0_lt_0, Nat.pow_nonzero; lia).
    rewrite Nat.pow_succ_r'. lia.
Qed.

(** The run of [search_with_retry] when at least one attempt is allowed. *)
Lemma search_with_retry_trace ex q max_retries s :
  (1 <= max_retries)%Z ->
  let R := search_with_retry ex q max_retries s in
  exists j,
    j < Z.to_nat max_retries
    /\ (forall i, i < j -> failed (ex (st_calls s + i) q) = true)
    /\ st_calls (snd R) = st_calls s + S j
    /\ st_sleeps (snd R) = st_sleeps s ++ map (Nat.pow 2) (seq 0 j)
    /\ st_clock (snd R)
       = st_clock s
         + list_sum (map duration (attempts_on ex (st_calls s) q (S j)))
         + (2 ^ j - 1)
    /\ st_cancelled (snd R) = st_cancelled s
    /\ st_stdout (snd R) = st_stdout s
    /\ st_next_task (snd R) = st_next_task s
    /\ ((exists r,
           value_of (ex (st_calls s + j) q) = Some r
           /\ fst R = Ret (Some (retry_success q r (Z.of_nat j + 1))))
        \/ (exists e,
              error_of (ex (st_calls s + j) q) = Some e
              /\ is_Exception e = true /\ S j = Z.to_nat max_retries
              /\ fst R = Ret (Some (retry_failure q e (Z.of_nat j + 1))))
        \/ (exists e,
              error_of (ex (st_calls s + j) q) = Some e
              /\ is_Exception e = false /\ fst R = Exc e)
        \/ (latency (ex (st_calls s + j) q) = None /\ fst R = Hang)).
Proof.
  intros Hmax. cbv zeta. unfold search_with_retry, range1.
  destruct (retry_loop_trace ex q max_retries (Z.to_nat max_retries) 0 s)
    as (j & H); [lia|lia|].
  cbv zeta in H. cbn [Nat.add] in H. rewrite sum_powers_of_two in H.
  exists j. exact H.
Qed.

Lemma attempts_on_Forall ex (P : behaviour -> Prop) c q k :
  Forall P (attempts_on ex c q k) <-> (forall i, i < k -> P (ex (c + i) q)).
Proof.
  unfold attempts_on. rewrite behaviours_Forall. split.
  - intros H i Hi. apply H. apply nth_error_repeat. exact Hi.
  - intros H i q' Hq.
    assert (Hi : i < k).
    { rewrite <- (repeat_length q k). apply nth_error_Some. congruence. }
    apply nth_error_In, repeat_spec in Hq. subst q'. apply H. exact Hi.
Qed.

(** ** What [search_with_retry] returns *)

(** X2: whatever the executor does, a value returned by
    [search_with_retry] is [None] only when no attempt is allowed
    ([max_retries <= 0], nothing having been done); otherwise it is a dict
    for the query asked, whose [attempts] entry [k] lies between 1 and
    [max_retries] and is the number of invocations made, the first [k-1]
    having failed.  Either the dict has no [error] key and its [result] is
    the output the k-th invocation returned, or it has one, [k] is
    [max_retries], its [result] is [None] and its [error] is the message
    of the error the k-th invocation raised. *)
Theorem search_with_retry_returns
        (ex : Executor) (q : string) (max_retries : Z) (s : state)
        (res : option dict) (s' : state) :
  search_with_retry ex q max_retries s = (Ret res, s') ->
  match res with
  | None => (max_retries <= 0)%Z /\ s' = s
  | Some d =>
      exists k,
        1 <= k <= Z.to_nat max_retries
        /\ st_calls s' = st_calls s + k
        /\ dict_get d "query" = Some (VStr q)
        /\ attempt_count d = Some (VInt (Z.of_nat k))
        /\ (forall i, i < k - 1 -> failed (ex (st_calls s + i) q) = true)
        /\ ((is_failed d = false
             /\ exists r,
                 value_of (ex (st_calls s + (k - 1)) q) = Some r
                 /\ dict_get d "result" = Some (VStr (final_output r)))
            \/ (is_failed d = true
                /\ k = Z.to_nat max_retries
                /\ dict_get d "result" = Some VNone
                /\ exists e,
                    error_of (ex (st_calls s + (k - 1)) q) = Some e
                    /\ is_Exception e = true
                    /\ dict_get d "error" = Some (VStr (exc_str e))))
  end.
Proof.
  intros E.
  destruct (Z_le_gt_dec max_retries 0) as [Hle|Hgt].
  - rewrite retry_loop_nil in E by lia. injection E as <- <-.
    split; [exact Hle|reflexivity].
  - destruct (search_with_retry_trace ex q max_retries s)
      as (j & Hj & Hf & Hc & _ & _ & _ & _ & _ & Ho); [lia|].
    rewrite E in Hc, Ho. cbn [fst snd] in Hc, Ho.
    destruct Ho as [(r & Hv & [= ->])|[(e & He & Hx & Hl & [= ->])
                   |[(e & _ & _ & [=])|(_ & [=])]]].
    + exists (S j). replace (S j - 1) with j by lia.
      replace (Z.of_nat (S j)) with (Z.of_nat j + 1)%Z by lia.
      repeat split; trivial; try lia. left. split; [reflexivity|].
      exists r. split; [exact Hv|reflexivity].
    + exists (S j). replace (S j - 1) with j by lia.
      replace (Z.of_nat (S j)) with (Z.of_nat j + 1)%Z by lia.
      repeat split; trivial; try lia. right.
      repeat split; trivial. exists e. repeat split; trivial.
Qed.

(** The executor that fails twice then answers, three attempts allowed:
    the dict returned reports the third attempt. *)
Lemma search_with_retry_returns_witness :
  exists k,
    1 <= k <= Z.to_nat 3
    /\ 3 = 0 + k
    /\ dict_get (retry_success "q" (mkRunResult "q!") 3) "query"
       = Some (VStr "q")
    /\ attempt_count (retry_success "q" (mkRunResult "q!") 3)
       = Some (VInt (Z.of_nat k))
    /\ (forall i, i < k - 1 -> failed (ex_fail_first 2 (0 + i) "q") = true)
    /\ ((is_failed (retry_success "q" (mkRunResult "q!") 3) = false
         /\ exists r,
             value_of (ex_fail_first 2 (0 + (k - 1)) "q") = Some r
             /\ dict_get (retry_success "q" (mkRunResult "q!") 3) "result"
                = Some (VStr (final_output r)))
        \/ (is_failed (retry_success "q" (mkRunResult "q!") 3) = true
            /\ k = Z.to_nat 3
            /\ dict_get (retry_success "q" (mkRunResult "q!") 3) "result"
               = Some VNone
            /\ exists e,
                error_of (ex_fail_first 2 (0 + (k - 1)) "q") = Some e
                /\ is_Exception e = true
                /\ dict_get (retry_success "q" (mkRunResult "q!") 3) "error"
                   = Some (VStr (exc_str e)))).
Proof.
  apply (search_with_retry_returns (ex_fail_first 2) "q" 3 initial_state
           (Some (retry_success "q" (mkRunResult "q!") 3))
           (mkState 10 3 0 [1; 2] [] [])).
  reflexivity.
Defined.

(** ** Time taken by the retry loop *)

(** X3: when [search_with_retry], at least one attempt being allowed,
    completes (by returning or by raising) after [k] invocations, every
    one of them has completed and the time elapsed is the sum of their
    latencies plus the backoff slept between them, [2 ^ (k - 1) - 1] in
    all. *)
Theorem search_with_retry_elapsed
        (ex : Executor) (q : string) (max_retries : Z) (s : state) :
  (1 <= max_retries)%Z ->
  let R := search_with_retry ex q max_retries s in
  let k := st_calls (snd R) - st_calls s in
  fst R <> Hang ->
  1 <= k <= Z.to_nat max_retries
  /\ Forall (fun b => latency b <> None) (attempts_on ex (st_calls s) q k)
  /\ st_clock (snd R)
     = st_clock s
       + list_sum (map duration (attempts_on ex (st_calls s) q k))
       + (2 ^ (k - 1) - 1).
Proof.
  intros Hmax. cbv zeta. intros Hnh.
  destruct (search_with_retry_trace ex q max_retries s Hmax)
    as (j & Hj & Hf & Hc & _ & Hk & _ & _ & _ & Ho).
  rewrite Hc.
  replace (st_calls s + S j - st_calls s) with (S j) by lia.
  replace (S j - 1) with j by lia.
  split; [lia|]. split; [|exact Hk].
  apply attempts_on_Forall. intros i Hi.
  destruct (Nat.eq_dec i j) as [->|Hne].
  - destruct Ho as [(r & Hv & _)|[(e & He & _)|[(e & He & _)|(_ & Hh)]]].
    + unfold value_of in Hv.
      destruct (latency (ex (st_calls s + j) q)); discriminate.
    + unfold error_of in He.
      destruct (latency (ex (st_calls s + j) q)); discriminate.
    + unfold error_of in He.
      destruct (latency (ex (st_calls s + j) q)); discriminate.
    + contradiction.
  - apply failed_reading, Hf. lia.
Qed.

(** Two failures of one tick, then an answer after five: ten ticks. *)
Lemma search_with_retry_elapsed_witness :
  1 <= 3 - 0 <= Z.to_nat 3
  /\ Forall (fun b => latency b <> None)
            (attempts_on (ex_fail_first 2) 0 "q" (3 - 0))
  /\ 10 = 0 + list_sum (map duration
                            (attempts_on (ex_fail_first 2) 0 "q" (3 - 0)))
          + (2 ^ (3 - 0 - 1) - 1).
Proof.
  apply (search_with_retry_elapsed (ex_fail_first 2) "q" 3 initial_state).
  - lia.
  - discriminate.
Defined.

(** X4: whatever the executor does, [search_with_retry] makes at most
    [max_retries] invocations and sleeps at most [2 ^ (max_retries - 1) - 1]
    ticks in all (3 for the default of three attempts); it creates no task,
    requests no cancellation and prints nothing. *)
Theorem search_with_retry_bounds
        (ex : Executor) (q : string) (max_retries : Z) (s : state) :
  let s' := snd (search_with_retry ex q max_retries s) in
  st_calls s <= st_calls s' <= st_calls s + Z.to_nat max_retries
  /\ (exists slept,
        st_sleeps s' = st_sleeps s ++ slept
        /\ list_sum slept <= 2 ^ (Z.to_nat max_retries - 1) - 1)
  /\ st_next_task s' = st_next_task s
  /\ st_cancelled s' = st_cancelled s
  /\ st_stdout s' = st_stdout s.
Proof.
  cbv zeta.
  destruct (Z_le_gt_dec max_retries 0) as [Hle|Hgt].
  - rewrite retry_loop_nil by lia. cbn [snd].
    split; [lia|]. split; [|repeat split].
    exists []. rewrite app_nil_r. split; [reflexivity|cbn; lia].
  - destruct (search_with_retry_trace ex q max_retries s)
      as (j & Hj & _ & Hc & Hs & _ & Hx & Ho & Ht & _); [lia|].
    split; [lia|]. split; [|repeat split; trivial].
    exists (map (Nat.pow 2) (seq 0 j)). split; [exact Hs|].
    rewrite sum_powers_of_two.
    assert (2 ^ j <= 2 ^ (Z.to_nat max_retries - 1))
      by (apply Nat.pow_le_mono_r; lia).
    lia.
Qed.

(** X5: the retry loop has no deadline of its own: when an attempt that
    is reached (the earlier ones having failed) never completes, the call
    never completes either, and no further invocation is made. *)
Theorem search_with_retry_hangs
        (ex : Executor) (q : string) (max_retries : Z) (s : state)
        (k : nat) :
  k < Z.to_nat max_retries ->
  (forall i, i < k -> failed (ex (st_calls s + i) q) = true) ->
  latency (ex (st_calls s + k) q) = None ->
  fst (search_with_retry ex q max_retries s) = Hang
  /\ st_calls (snd (search_with_retry ex q max_retries s))
     = st_calls s + k + 1.
Proof.
  intros Hk Hpre Hnone.
  destruct (search_with_retry_trace ex q max_retries s)
    as (j & Hj & Hf & Hc & _ & _ & _ & _ & _ & Ho); [lia|].
  assert (j = k) as ->.
  { destruct (Nat.lt_trichotomy j k) as [Hlt|[Heq|Hgt]]; trivial.
    - exfalso. destruct (failed_reading _ (Hpre j Hlt)) as (Hv & Hl & He).
      destruct Ho as [(r & Hv' & _)|[(e & _ & _ & Hn & _)
                     |[(e & He' & Hx & _)|(Hh & _)]]].
      + congruence.
      + lia.
      + rewrite (He e He') in Hx. discriminate.
      + contradiction.
    - exfalso. destruct (failed_reading _ (Hf k Hgt)) as (_ & Hl & _).
      contradiction. }
  split; [|lia].
  destruct Ho as [(r & Hv & _)|[(e & He & _)|[(e & He & _)|(_ & Hh)]]];
    trivial.
  - unfold value_of in Hv. rewrite Hnone in Hv. discriminate.
  - unfold error_of in He. rewrite Hnone in He. discriminate.
  - unfold error_of in He. rewrite Hnone in He. discriminate.
Qed.

(** One failure, then a call that never answers: the retry hangs after
    two invocations. *)
Lemma search_with_retry_hangs_witness :
  fst (search_with_retry (ex_fail_then_hang 1) "q" 3 initial_state) = Hang
  /\ st_calls (snd (search_with_retry (ex_fail_then_hang 1) "q" 3
                                      initial_state))
     = 0 + 1 + 1.
Proof.
  apply (search_with_retry_hangs (ex_fail_then_hang 1) "q" 3 initial_state 1).
  - simpl. lia.
  - intros i Hi. assert (i = 0) as -> by lia. reflexivity.
  - reflexivity.
Defined.

(** ** How long [gather] waits *)

Section GatherTime.

Context {A : Type}.

Lemma sorted_before (l : list (nat * nat)) x :
  StronglySorted by_time (l ++ [x]) -> Forall (fun y => by_time y x) l.
Proof.
  induction l as [|y l IH]; cbn; intros H; [constructor|].
  inversion H as [|y' l' Hs Hy]; subst. constructor.
  - rewrite Forall_forall in Hy. apply Hy. apply in_or_app. right. now left.
  - apply IH. exact Hs.
Qed.

Lemma finishing_length_lt (ts : list (task A)) : forall i t,
  In t ts -> done_at t = None ->
  List.length (finishing i ts) < List.length ts.
Proof.
  induction ts as [|t0 ts IH]; intros i t; [intros []|].
  intros [->|Hin] Hd; cbn [finishing List.length].
  - rewrite Hd. pose proof (finishing_length ts (S i)). lia.
  - specialize (IH (S i) t Hin Hd).
    destruct (done_at t0); cbn [List.length]; lia.
Qed.

(** When every child completes and none raises, [gather] returns when the
    last child completes. *)
Lemma gather_tasks_last (children : list (task A)) s :
  children <> [] ->
  (forall c, In c children -> done_at c <> None) ->
  (forall c e, In c children -> task_result c <> Exc e) ->
  exists c t,
    In c children /\ done_at c = Some t
    /\ (forall c' t', In c' children -> done_at c' = Some t' -> t' <= t)
    /\ gather_tasks children s
       = (results children, set_clock (Nat.max (st_clock s) t) s).
Proof.
  intros Hne Hdone Hok. unfold gather_tasks.
  destruct children as [|c0 cs] eqn:Hch; [contradiction|].
  rewrite <- Hch in *.
  assert (Hlen : List.length (completion_order children)
                 = List.length children)
    by now apply completion_order_length_all.
  assert (Hq : forall x, In x (completion_order children) ->
                         child_raises children x = false).
  { intros x _. unfold child_raises.
    destruct (nth_error children (fst x)) as [c|] eqn:Hc; [|reflexivity].
    destruct (task_result c) as [a|e|] eqn:Hr; try reflexivity.
    exfalso. apply (Hok c e); [eapply nth_error_In; eassumption|exact Hr]. }
  destruct (exists_last (l := completion_order children)) as (l' & x & Hl).
  { intros E. rewrite E in Hlen. rewrite Hch in Hlen. discriminate. }
  pose proof (completion_order_sorted children) as Hsorted.
  assert (Hinx : In x (completion_order children)).
  { rewrite Hl. apply in_or_app. right. now left. }
  assert (Hall : forall y, In y (completion_order children) ->
                           snd y <= snd x).
  { intros y Hy. rewrite Hl in Hy, Hsorted.
    apply in_app_or in Hy. destruct Hy as [Hy|[<-|[]]]; [|lia].
    apply sorted_before in Hsorted. rewrite Forall_forall in Hsorted.
    apply (Hsorted y Hy). }
  destruct x as [j t]. cbn [snd] in Hall.
  destruct (proj1 (completion_order_In children j t) Hinx) as (c & Hc & Hd).
  exists c, t. split; [eapply nth_error_In; exact Hc|]. split; [exact Hd|].
  split.
  - intros c' t' Hin' Hd'. destruct (In_nth_error _ _ Hin') as (k & Hk).
    apply (Hall (k, t')). apply completion_order_In. now exists c'.
  - rewrite Hl in Hlen |- *. rewrite length_app in Hlen. cbn in Hlen.
    rewrite fold_left_app. cbn [fold_left].
    destruct (fold_quiet children l' (mkGather 0 None)) as (Ho & Hn).
    { reflexivity. }
    { cbn. lia. }
    { intros y Hy. apply Hq. rewrite Hl. apply in_or_app. now left. }
    rewrite (step_last children _ (j, t) Ho).
    + reflexivity.
    + rewrite Hn. cbn. lia.
    + now exists c.
    + apply Hq. exact Hinx.
Qed.

(** When some child never completes and none raises, [gather] never
    completes. *)
Lemma gather_tasks_hangs (children : list (task A)) s c0 :
  In c0 children -> done_at c0 = None ->
  (forall c e, In c children -> task_result c <> Exc e) ->
  gather_tasks children s = (Hang, s).
Proof.
  intros Hin Hd Hok. unfold gather_tasks.
  destruct children as [|c1 cs] eqn:Hch; [destruct Hin|].
  rewrite <- Hch in *.
  destruct (fold_quiet children (completion_order children) (mkGather 0 None))
    as (Ho & _).
  - reflexivity.
  - cbn [nfinished Nat.add]. unfold completion_order.
    rewrite (Permutation_length (sort_by_time_perm _)).
    eapply finishing_length_lt; eassumption.
  - intros x _. unfold child_raises.
    destruct (nth_error children (fst x)) as [c|] eqn:Hc; [|reflexivity].
    destruct (task_result c) as [a|e|] eqn:Hr; try reflexivity.
    exfalso. apply (Hok c e); [eapply nth_error_In; eassumption|exact Hr].
  - rewrite Ho. reflexivity.
Qed.

End GatherTime.

Lemma list_max_is (l : list nat) d :
  In d l -> (forall x, In x l -> x <= d) -> list_max l = d.
Proof.
  intros Hin Hle. apply Nat.le_antisymm.
  - apply list_max_le. rewrite Forall_forall. exact Hle.
  - pose proof (proj1 (list_max_le l (list_max l)) (le_n _)) as H.
    rewrite Forall_forall in H. apply H. exact Hin.
Qed.

Lemma list_max_le_sum (l : list nat) : list_max l <= list_sum l.
Proof.
  induction l as [|x l IH]; [cbn; lia|].
  change (list_max (x :: l)) with (Nat.max x (list_max l)).
  change (list_sum (x :: l)) with (x + list_sum l). lia.
Qed.

Section FanOutTime.

Variable ex : Executor.
Context {B : Type}.
Variable f : RunResult -> B.

(** Fan-out over invocations that all return takes the time of the
    slowest one. *)
Lemma fan_out_elapsed cs inputs s :
  Forall2 (is_leaf ex f) cs inputs ->
  Forall (fun b => succeeded b = true) (behaviours ex (st_calls s) inputs) ->
  st_clock (snd (gather cs s))
  = st_clock s + list_max (map duration (behaviours ex (st_calls s) inputs))
  /\ st_calls (snd (gather cs s)) = st_calls s + List.length inputs.
Proof.
  intros Hleaf Hall. unfold gather, bind.
  destruct (create_tasks_leaves ex f cs inputs Hleaf s)
    as (s1 & E & Hcl & Hca & _).
  rewrite E.
  set (bs := behaviours ex (st_calls s) inputs) in *.
  set (ts := leaf_tasks f (st_clock s) (st_next_task s) bs).
  destruct inputs as [|q0 inputs'] eqn:Hin.
  { subst ts bs. cbn in *. split; lia. }
  rewrite <- Hin in *.
  assert (Hbs : forall b, In b bs -> exists d r,
                                       b = mkBehaviour (Some d) (Returns r)).
  { intros b Hb. rewrite Forall_forall in Hall.
    apply succeeded_inv, Hall, Hb. }
  destruct (gather_tasks_last ts s1) as (c & t & Hc & Hd & Hmax & Eg).
  - subst ts bs. cbn. discriminate.
  - intros c Hc. apply leaf_tasks_In in Hc.
    destruct Hc as (b & Hb & Hd & _).
    destruct (Hbs b Hb) as (d & r & ->). rewrite Hd. discriminate.
  - intros c e Hc. apply leaf_tasks_In in Hc.
    destruct Hc as (b & Hb & _ & Hr).
    destruct (Hbs b Hb) as (d & r & ->). rewrite Hr. discriminate.
  - rewrite Eg. cbn [snd]. unfold set_clock. cbn [st_clock st_calls].
    split; [|exact Hca].
    apply leaf_tasks_In in Hc. destruct Hc as (b & Hb & Hdb & _).
    destruct (Hbs b Hb) as (d & r & ->). rewrite Hdb in Hd.
    cbn in Hd. injection Hd as <-.
    rewrite (list_max_is (map duration bs) d).
    + rewrite Hcl. lia.
    + apply in_map_iff. eexists. split; [|exact Hb]. reflexivity.
    + intros x Hx. apply in_map_iff in Hx. destruct Hx as (b' & <- & Hb').
      destruct (Hbs b' Hb') as (d' & r' & ->).
      destruct (In_leaf_tasks f (st_clock s) bs (st_next_task s) _ Hb')
        as (id' & Hc').
      specialize (Hmax _ (st_clock s + d') Hc' eq_refl).
      cbn. lia.
Qed.

(** Fan-out over invocations of which one never completes and none
    raises never returns; every invocation has been made. *)
Lemma fan_out_hangs cs inputs s b0 :
  Forall2 (is_leaf ex f) cs inputs ->
  In b0 (behaviours ex (st_calls s) inputs) ->
  latency b0 = None ->
  (forall b, In b (behaviours ex (st_calls s) inputs) -> error_of b = None) ->
  fst (gather cs s) = Hang
  /\ st_calls (snd (gather cs s)) = st_calls s + List.length inputs.
Proof.
  intros Hleaf Hin0 Hl0 Hok. unfold gather, bind.
  destruct (create_tasks_leaves ex f cs inputs Hleaf s)
    as (s1 & E & Hcl & Hca & _).
  rewrite E.
  destruct (In_leaf_tasks f (st_clock s) _ (st_next_task s) _ Hin0)
    as (id0 & Hc0).
  rewrite (gather_tasks_hangs _ s1 _ Hc0).
  - split; [reflexivity|exact Hca].
  - cbn. rewrite Hl0. reflexivity.
  - intros c e Hc Hr. apply leaf_tasks_In in Hc.
    destruct Hc as (b & Hb & _ & Hrb). specialize (Hok b Hb).
    rewrite Hrb in Hr. unfold error_of, outcome_of in *.
    destruct b as [[d|] [r|e']]; cbn in *; discriminate.
Qed.

End FanOutTime.

(** ** Fan-out of the research plan *)

(** X6: when every search of the plan returns, [perform_searches] takes
    the time of the slowest search (no time for an empty plan), one
    invocation having been made per search. *)
Theorem perform_searches_elapsed
        (ex : Executor) (searches : list WebSearchItem) (s : state) :
  (forall i item,
     nth_error searches i = Some item ->
     succeeded (ex (st_calls s + i) (input_msg item)) = true) ->
  let s' := snd (perform_searches ex searches s) in
  st_clock s'
  = st_clock s
    + list_max (map duration
                    (behaviours ex (st_calls s) (map input_msg searches)))
  /\ st_calls s' = st_calls s + List.length searches.
Proof.
  intros Hall. cbv zeta. rewrite perform_searches_gather.
  rewrite <- (length_map input_msg searches).
  apply (fan_out_elapsed ex final_output).
  - apply searches_are_leaves.
  - apply behaviours_Forall. intros i q Hq.
    rewrite nth_error_map in Hq.
    destruct (nth_error searches i) as [item|] eqn:Hi; [|discriminate].
    injection Hq as <-. apply Hall. exact Hi.
Qed.

(** Latencies 10 and 9: the plan takes 10 ticks. *)
Lemma perform_searches_elapsed_witness :
  10 = 0 + list_max (map duration
                         (behaviours ex_echo 0
                            (map input_msg
                                 [mkItem "why" "a"; mkItem "why" "b"])))
  /\ 2 = 0 + List.length [mkItem "why" "a"; mkItem "why" "b"].
Proof.
  apply (perform_searches_elapsed ex_echo
           [mkItem "why" "a"; mkItem "why" "b"] initial_state).
  intros [|[|i]] item; cbn; try discriminate; intros _; reflexivity.
Defined.

(** X7: [perform_searches] puts no deadline on its searches: when a search
    of the plan never completes and no search raises, the call never
    returns, all the invocations having been made. *)
Theorem perform_searches_hangs
        (ex : Executor) (searches : list WebSearchItem) (s : state)
        (k : nat) (stuck : WebSearchItem) :
  nth_error searches k = Some stuck ->
  latency (ex (st_calls s + k) (input_msg stuck)) = None ->
  (forall i item,
     nth_error searches i = Some item ->
     error_of (ex (st_calls s + i) (input_msg item)) = None) ->
  fst (perform_searches ex searches s) = Hang
  /\ st_calls (snd (perform_searches ex searches s))
     = st_calls s + List.length searches.
Proof.
  intros Hk Hl Hok. rewrite perform_searches_gather.
  rewrite <- (length_map input_msg searches).
  apply (fan_out_hangs ex final_output _ _ s
           (ex (st_calls s + k) (input_msg stuck))).
  - apply searches_are_leaves.
  - apply behaviours_In. exists k, (input_msg stuck).
    split; [|reflexivity]. rewrite nth_error_map, Hk. reflexivity.
  - exact Hl.
  - intros b Hb. apply behaviours_In in Hb.
    destruct Hb as (i & q & Hq & ->). rewrite nth_error_map in Hq.
    destruct (nth_error searches i) as [item|] eqn:Hi; [|discriminate].
    injection Hq as <-. apply Hok. exact Hi.
Qed.

(** The first of two searches never answers: the plan hangs. *)
Lemma perform_searches_hangs_witness :
  fst (perform_searches (ex_fail_then_hang 0)
         [mkItem "why" "a"; mkItem "why" "b"] initial_state) = Hang
  /\ st_calls (snd (perform_searches (ex_fail_then_hang 0)
                      [mkItem "why" "a"; mkItem "why" "b"] initial_state))
     = 0 + List.length [mkItem "why" "a"; mkItem "why" "b"].
Proof.
  apply (perform_searches_hangs (ex_fail_then_hang 0)
           [mkItem "why" "a"; mkItem "why" "b"]
           initial_state 0 (mkItem "why" "a")).
  - reflexivity.
  - reflexivity.
  - intros [|[|i]] item; cbn; try discriminate; intros _; reflexivity.
Defined.

(** ** Time taken by the batches *)

Lemma list_max_short (l : list nat) :
  List.length l <= 1 -> list_max l = list_sum l.
Proof.
  destruct l as [|x [|y l]]; cbn; intros H; lia.
Qed.

Section BatchTime.

Variable ex : Executor.
Variable queries : list string.
Variable batch_size : Z.
Hypothesis batch_size_pos : (0 < batch_size)%Z.

Let B := Z.to_nat batch_size.

Abbreviation batch_starts k0 cnt :=
  (map (fun k => (0 + Z.of_nat k * batch_size)%Z) (seq k0 cnt)).

Abbreviation batched k0 cnt := (firstn (cnt * B) (skipn (k0 * B) queries)).

(** The batches run one after the other, each one taking the time of its
    slowest invocation. *)
Lemma batch_loop_elapsed cnt : forall k0 results s,
  Forall (fun b => succeeded b = true)
         (behaviours ex (st_calls s) (batched k0 cnt)) ->
  let s' := snd (batch_loop ex queries batch_size (batch_starts k0 cnt)
                            results s) in
  let lat := map duration (behaviours ex (st_calls s) (batched k0 cnt)) in
  st_clock s + list_max lat <= st_clock s' <= st_clock s + list_sum lat
  /\ (B = 1 -> st_clock s' = st_clock s + list_sum lat).
Proof.
  induction cnt as [|cnt IH]; intros k0 results s Hall; cbv zeta.
  - cbn. split; lia.
  - rewrite (span_step queries batch_size) in Hall |- *.
    fold B in Hall |- *.
    set (chunk := firstn B (skipn (k0 * B) queries)) in *.
    rewrite behaviours_app in Hall |- *.
    apply Forall_app in Hall. destruct Hall as (Hnow & Hlater).
    destruct (fan_out_all_succeed ex (fun r => r) _ _ s
                (runs_are_leaves ex chunk) Hnow) as (bouts & s1 & Eg).
    destruct (fan_out_elapsed ex (fun r => r) _ _ s
                (runs_are_leaves ex chunk) Hnow) as (Hclock & Hcalls).
    rewrite Eg in Hclock, Hcalls. cbn [snd] in Hclock, Hcalls.
    assert (Estep :
              batch_loop ex queries batch_size (batch_starts k0 (S cnt))
                         results s
              = batch_loop ex queries batch_size (batch_starts (S k0) cnt)
                           (results ++ bouts) s1).
    { rewrite (batch_loop_step ex queries batch_size batch_size_pos).
      fold B. fold chunk. unfold bind. rewrite Eg. reflexivity. }
    rewrite Estep.
    rewrite <- Hcalls in Hlater |- *.
    destruct (IH (S k0) (results ++ bouts) s1 Hlater) as (Hb & Hone).
    rewrite map_app, list_max_app, list_sum_app.
    pose proof (list_max_le_sum
                  (map duration (behaviours ex (st_calls s) chunk))) as Hms.
    split; [lia|]. intros HB. rewrite (Hone HB), Hclock.
    rewrite list_max_short; [lia|].
    rewrite length_map, length_behaviours. subst chunk.
    rewrite length_firstn. lia.
Qed.

End BatchTime.

Lemma bind_ret_app {X} (c : M (list X)) s :
  (r <- c ;; ret ([] ++ r)) s = c s.
Proof.
  unfold bind. destruct (c s) as [[r| |] s1]; reflexivity.
Qed.

Lemma range3_one_batch (n : nat) (b : Z) :
  (1 <= b)%Z -> (Z.of_nat n <= b)%Z ->
  range3 0 (Z.of_nat n) b
  = inr (map (fun k => (0 + Z.of_nat k * b)%Z)
             (seq 0 (if Nat.eqb n 0 then 0 else 1))).
Proof.
  intros Hb Hn. unfold range3, range_len.
  destruct (Z.eqb_spec b 0) as [|_]; [lia|].
  destruct (Z.ltb_spec 0 b) as [_|]; [|lia].
  do 3 f_equal. rewrite Z.sub_0_r.
  destruct (Nat.eqb_spec n 0) as [->|Hne].
  - rewrite Z.div_small by lia. reflexivity.
  - replace ((Z.of_nat n + b - 1) / b)%Z with 1%Z; [reflexivity|].
    apply (Z.div_unique_pos _ _ 1 (Z.of_nat n - 1)); lia.
Qed.

(** ** One batch is a fan-out *)

(** X8: with a batch size that is at least the number of queries (and at
    least 1), [batch_parallel_searches] is one [asyncio.gather] over all
    the queries: same result, exception or divergence, same state,
    whatever the executor does. *)
Theorem batch_parallel_searches_one_batch
        (ex : Executor) (queries : list string) (batch_size : Z) (s : state) :
  (1 <= batch_size)%Z ->
  (Z.of_nat (List.length queries) <= batch_size)%Z ->
  batch_parallel_searches ex queries batch_size s
  = gather (map (Runner_run ex) queries) s.
Proof.
  intros Hb Hn. unfold batch_parallel_searches.
  rewrite range3_one_batch by assumption.
  destruct (Nat.eqb_spec (List.length queries) 0) as [H0|Hne].
  - destruct queries; [reflexivity|discriminate].
  - cbn [seq map batch_loop].
    change (0 + Z.of_nat 0 * batch_size)%Z with (Z.of_nat 0 * batch_size)%Z.
    rewrite slice_chunk by lia. cbn [Nat.mul skipn].
    rewrite firstn_all2 by lia.
    apply bind_ret_app.
Qed.

(** Eight queries in one batch of ten on the echo executor. *)
Lemma batch_parallel_searches_one_batch_witness :
  batch_parallel_searches ex_echo ["a"; "b"; "c"; "d"; "e"; "f"; "g"; "h"]
                          10 initial_state
  = gather (map (Runner_run ex_echo)
                ["a"; "b"; "c"; "d"; "e"; "f"; "g"; "h"]) initial_state.
Proof.
  apply (batch_parallel_searches_one_batch ex_echo
           ["a"; "b"; "c"; "d"; "e"; "f"; "g"; "h"] 10 initial_state).
  - lia.
  - simpl. lia.
Defined.

(** X9: when every invocation returns, [batch_parallel_searches] with
    [batch_size >= 1] takes at least the time of the slowest invocation
    and at most the sum of all the latencies; it takes exactly the sum
    when the batches are of one query (sequential execution). *)
Theorem batch_parallel_searches_elapsed
        (ex : Executor) (queries : list string) (batch_size : Z) (s : state) :
  (1 <= batch_size)%Z ->
  (forall i q,
     nth_error queries i = Some q ->
     succeeded (ex (st_calls s + i) q) = true) ->
  let s' := snd (batch_parallel_searches ex queries batch_size s) in
  let lat := map duration (behaviours ex (st_calls s) queries) in
  st_clock s + list_max lat <= st_clock s' <= st_clock s + list_sum lat
  /\ (batch_size = 1%Z -> st_clock s' = st_clock s + list_sum lat).
Proof.
  intros Hb Hall. cbv zeta.
  assert (Hsucc : Forall (fun b => succeeded b = true)
                         (behaviours ex (st_calls s) queries))
    by (apply behaviours_Forall; exact Hall).
  destruct (batch_parallel_searches_loop ex queries batch_size Hb)
    as (cnt & Eloop & Hspan).
  rewrite Eloop.
  destruct (batch_loop_elapsed ex queries batch_size ltac:(lia) cnt 0 [] s)
    as (Hbounds & Hone).
  { rewrite Hspan. exact Hsucc. }
  rewrite Hspan in Hbounds, Hone.
  split; [exact Hbounds|].
  intros ->. apply Hone. reflexivity.
Qed.

(** Eight queries of latencies 10, 9, ..., 3 in batches of three take
    10 + 7 + 4 ticks, between 10 and 52. *)
Lemma batch_parallel_searches_elapsed_witness :
  (0 + list_max (map duration
                     (behaviours ex_echo 0
                        ["a"; "b"; "c"; "d"; "e"; "f"; "g"; "h"]))
   <= 21
   <= 0 + list_sum (map duration
                        (behaviours ex_echo 0
                           ["a"; "b"; "c"; "d"; "e"; "f"; "g"; "h"])))
  /\ ((3 = 1)%Z ->
      21 = 0 + list_sum (map duration
                             (behaviours ex_echo 0
                                ["a"; "b"; "c"; "d"; "e"; "f"; "g"; "h"]))).
Proof.
  apply (batch_parallel_searches_elapsed ex_echo
           ["a"; "b"; "c"; "d"; "e"; "f"; "g"; "h"] 3 initial_state).
  - lia.
  - intros i q Hq. reflexivity.
Defined.

(** * The research workflow *)

(** ** One invocation *)

Lemma bind_ret_r {X} (c : M X) s : (x <- c ;; ret x) s = c s.
Proof.
  unfold bind. destruct (c s) as [[x| |] s1]; reflexivity.
Qed.

Section OneInvocation.

Context {A : Type}.
Variable agent : Agent A.
Variable input : string.

Lemma Runner_run_as_value s a :
  reply_value (agent (st_calls s) input) = Some a ->
  Runner_run_as agent input s
  = (Ret a, after_call (reply_duration (agent (st_calls s) input)) s).
Proof.
  unfold reply_value, reply_duration, Runner_run_as.
  destruct (agent (st_calls s) input) as [[d|] [e|a']]; cbn;
    try discriminate.
  intros [= ->]. reflexivity.
Qed.

Lemma Runner_run_as_error s e :
  reply_error (agent (st_calls s) input) = Some e ->
  Runner_run_as agent input s
  = (Exc e, after_call (reply_duration (agent (st_calls s) input)) s).
Proof.
  unfold reply_error, reply_duration, Runner_run_as.
  destruct (agent (st_calls s) input) as [[d|] [e'|a]]; cbn;
    try discriminate.
  intros [= ->]. reflexivity.
Qed.

Lemma Runner_run_as_returns s a s1 :
  Runner_run_as agent input s = (Ret a, s1) ->
  reply_value (agent (st_calls s) input) = Some a
  /\ s1 = after_call (reply_duration (agent (st_calls s) input)) s.
Proof.
  unfold reply_value, reply_duration, Runner_run_as.
  destruct (agent (st_calls s) input) as [[d|] [e|a']]; cbn;
    try discriminate.
  intros [= -> <-]. split; reflexivity.
Qed.

End OneInvocation.

Lemma Runner_run_value ex input s r :
  value_of (ex (st_calls s) input) = Some r ->
  Runner_run ex input s
  = (Ret r, after_call (duration (ex (st_calls s) input)) s).
Proof.
  unfold value_of, duration, Runner_run.
  destruct (ex (st_calls s) input) as [[d|] [r'|e]]; cbn; try discriminate.
  intros [= ->]. reflexivity.
Qed.

Lemma Runner_run_error ex input s e :
  error_of (ex (st_calls s) input) = Some e ->
  Runner_run ex input s
  = (Exc e, after_call (duration (ex (st_calls s) input)) s).
Proof.
  unfold error_of, duration, Runner_run.
  destruct (ex (st_calls s) input) as [[d|] [r|e']]; cbn; try discriminate.
  intros [= ->]. reflexivity.
Qed.

Lemma Runner_run_returns ex input s r s1 :
  Runner_run ex input s = (Ret r, s1) ->
  value_of (ex (st_calls s) input) = Some r
  /\ s1 = after_call (duration (ex (st_calls s) input)) s.
Proof.
  unfold value_of, duration, Runner_run.
  destruct (ex (st_calls s) input) as [[d|] [r'|e]]; cbn; try discriminate.
  intros [= -> <-]. split; reflexivity.
Qed.

(** ** The stages of the workflow *)

Lemma values_succeeded bs rs :
  map value_of bs = map Some rs ->
  Forall (fun b => succeeded b = true) bs.
Proof.
  revert rs. induction bs as [|b bs IH]; intros [|r rs]; cbn;
    try discriminate; [constructor|].
  intros [= Hb Hrest]. constructor; [|eapply IH; exact Hrest].
  unfold value_of in Hb. unfold succeeded.
  destruct b as [[d|] [r'|e]]; cbn in *; congruence.
Qed.

Lemma map_Some_inj {X} (l1 l2 : list X) :
  map Some l1 = map Some l2 -> l1 = l2.
Proof.
  revert l2. induction l1 as [|x l1 IH]; intros [|y l2]; cbn;
    try discriminate; [reflexivity|].
  intros [= -> H]. f_equal. apply IH. exact H.
Qed.

(** The fan-out of the plan when every search returns. *)
Lemma perform_searches_runs ex searches s rs :
  map value_of (behaviours ex (st_calls s) (map input_msg searches))
  = map Some rs ->
  exists s',
    perform_searches ex searches s = (Ret (map final_output rs), s')
    /\ st_calls s' = st_calls s + List.length searches
    /\ st_clock s'
       = st_clock s
         + list_max (map duration
                         (behaviours ex (st_calls s)
                                     (map input_msg searches))).
Proof.
  intros Hv. pose proof (values_succeeded _ _ Hv) as Hall.
  rewrite perform_searches_gather.
  destruct (fan_out_all_succeed ex final_output _ _ s
              (searches_are_leaves ex searches) Hall) as (outs & s' & Eg).
  destruct (fan_out_returns ex final_output _ _ s outs s'
              (searches_are_leaves ex searches) Eg) as (Ho & _).
  destruct (fan_out_elapsed ex final_output _ _ s
              (searches_are_leaves ex searches) Hall) as (Hk & Hc).
  rewrite Eg in Hk, Hc. cbn [snd] in Hk, Hc.
  rewrite length_map in Hc.
  rewrite <- (map_map value_of (option_map final_output)), Hv, map_map in Ho.
  cbn [option_map] in Ho. rewrite <- (map_map final_output Some) in Ho.
  apply map_Some_inj in Ho. subst outs.
  exists s'. repeat split; assumption.
Qed.

(** The fan-out of the plan when it returns. *)
Lemma perform_searches_returns ex searches s outs s' :
  perform_searches ex searches s = (Ret outs, s') ->
  positional ex (st_calls s) (map input_msg searches) final_output outs
  /\ st_calls s' = st_calls s + List.length searches.
Proof.
  rewrite perform_searches_gather. intros Eg.
  destruct (fan_out_returns ex final_output _ _ s outs s'
              (searches_are_leaves ex searches) Eg) as (Ho & Hc & _).
  rewrite length_map in Hc. split; [|exact Hc].
  apply values_positional. exact Ho.
Qed.

(** The fan-out of the plan when a search raises. *)
Lemma perform_searches_raises ex searches s i item e :
  nth_error searches i = Some item ->
  error_of (ex (st_calls s + i) (input_msg item)) = Some e ->
  exists j item_j e_j s',
    nth_error searches j = Some item_j
    /\ error_of (ex (st_calls s + j) (input_msg item_j)) = Some e_j
    /\ perform_searches ex searches s = (Exc e_j, s')
    /\ st_calls s' = st_calls s + List.length searches.
Proof.
  intros Hi He. rewrite perform_searches_gather.
  destruct (fan_out_raises ex final_output _ (map input_msg searches) s
              (ex (st_calls s + i) (input_msg item)) e
              (searches_are_leaves ex searches))
    as (d & e_j & s' & Hin & Eg & Hc & _).
  { apply behaviours_In. exists i, (input_msg item).
    split; [|reflexivity]. rewrite nth_error_map, Hi. reflexivity. }
  { exact He. }
  apply behaviours_In in Hin. destruct Hin as (j & q & Hq & Hb).
  rewrite nth_error_map in Hq.
  destruct (nth_error searches j) as [item_j|] eqn:Hj; [|discriminate].
  injection Hq as <-.
  exists j, item_j, e_j, s'. rewrite length_map in Hc.
  repeat split; trivial. rewrite <- Hb. reflexivity.
Qed.

Section Stages.

Variable planner_agent : Agent WebSearchPlan.
Variable search_agent : Executor.
Variable writer_agent : Agent ReportData.
Variable email_agent : Executor.
Variable str_of_list : list string -> string.

Lemma plan_searches_eq query s :
  plan_searches planner_agent query s
  = Runner_run_as planner_agent ("Query: " ++ query)%string s.
Proof. apply bind_ret_r. Qed.

Lemma write_report_eq query search_results s :
  write_report writer_agent str_of_list query search_results s
  = Runner_run_as writer_agent
      (report_request str_of_list query search_results) s.
Proof. apply bind_ret_r. Qed.

Lemma email_report_value report s r :
  value_of (email_agent (st_calls s) (markdown_report report)) = Some r ->
  email_report email_agent report s
  = (Ret tt,
     after_call (duration (email_agent (st_calls s)
                                       (markdown_report report))) s).
Proof.
  intros H. unfold email_report, bind.
  rewrite (Runner_run_value _ _ _ _ H). reflexivity.
Qed.

Lemma email_report_error report s e :
  error_of (email_agent (st_calls s) (markdown_report report)) = Some e ->
  email_report email_agent report s
  = (Exc e,
     after_call (duration (email_agent (st_calls s)
                                       (markdown_report report))) s).
Proof.
  intros H. unfold email_report, bind.
  rewrite (Runner_run_error _ _ _ _ H). reflexivity.
Qed.

Lemma email_report_returns report s s1 :
  email_report email_agent report s = (Ret tt, s1) ->
  succeeded (email_agent (st_calls s) (markdown_report report)) = true
  /\ st_calls s1 = S (st_calls s).
Proof.
  unfold email_report, bind.
  destruct (Runner_run email_agent (markdown_report report) s)
    as [[r| |] s2] eqn:E; try discriminate.
  intros [= <-]. apply Runner_run_returns in E. destruct E as (Hv & ->).
  split; [|reflexivity].
  unfold value_of in Hv. unfold succeeded.
  destruct (email_agent (st_calls s) (markdown_report report))
    as [[d|] [r'|e]]; cbn in *; congruence.
Qed.

End Stages.

(** ** The workflow from end to end *)

(** X10: a report returned by [conduct_research] went through every stage
    of the workflow: the planner returned a plan; the results of its
    searches, in the order of the plan, were put in the request to the
    writer; the writer returned that report; and the email agent, asked
    with the markdown of the report, completed without error.  There were
    exactly [n + 3] invocations for a plan of [n] searches. *)
Theorem conduct_research_returns
        (planner_agent : Agent WebSearchPlan) (search_agent : Executor)
        (writer_agent : Agent ReportData) (email_agent : Executor)
        (str_of_list : list string -> string)
        (query : string) (s : state) (report : ReportData) (s' : state) :
  conduct_research planner_agent search_agent writer_agent email_agent
                   str_of_list query s = (Ret report, s') ->
  exists plan results,
    let c := st_calls s in
    let n := List.length (searches plan) in
    reply_value (planner_agent c ("Query: " ++ query)%string) = Some plan
    /\ positional search_agent (c + 1) (map input_msg (searches plan))
                  final_output results
    /\ reply_value (writer_agent (c + 1 + n)
                      (report_request str_of_list query results))
       = Some report
    /\ succeeded (email_agent (c + 2 + n) (markdown_report report)) = true
    /\ st_calls s' = c + n + 3.
Proof.
  unfold conduct_research, bind. rewrite plan_searches_eq.
  destruct (Runner_run_as planner_agent _ s) as [[plan| |] s1] eqn:E1;
    try discriminate.
  apply Runner_run_as_returns in E1. destruct E1 as (Hp & Hs1).
  destruct (perform_searches search_agent (searches plan) s1)
    as [[results| |] s2] eqn:E2; try discriminate.
  apply perform_searches_returns in E2. destruct E2 as (Hpos & Hc2).
  rewrite write_report_eq.
  destruct (Runner_run_as writer_agent _ s2) as [[r| |] s3] eqn:E3;
    try discriminate.
  apply Runner_run_as_returns in E3. destruct E3 as (Hw & Hs3).
  destruct (email_report email_agent r s3) as [[[]| |] s4] eqn:E4;
    try discriminate.
  apply email_report_returns in E4. destruct E4 as (He & Hc4).
  intros [= -> ->].
  assert (C1 : st_calls s1 = st_calls s + 1) by (subst s1; cbn; lia).
  assert (C3 : st_calls s3 = st_calls s2 + 1) by (subst s3; cbn; lia).
  exists plan, results. cbv zeta.
  rewrite C1 in Hpos, Hc2.
  replace (st_calls s2) with (st_calls s + 1 + List.length (searches plan))
    in Hw by lia.
  replace (st_calls s3) with (st_calls s + 2 + List.length (searches plan))
    in He by lia.
  split; [exact Hp|]. split; [exact Hpos|]. split; [exact Hw|].
  split; [exact He|]. lia.
Qed.

(** X11: when the planner returns a plan, every search of the plan
    returns, the writer returns a report for the request built from the
    results and the email agent completes, [conduct_research] returns the
    writer's report after [n + 3] invocations; the stages run one after
    the other, the searches together: the time taken is the sum of the
    times of the planner, of the slowest search, of the writer and of the
    email agent. *)
Theorem conduct_research_completes
        (planner_agent : Agent WebSearchPlan) (search_agent : Executor)
        (writer_agent : Agent ReportData) (email_agent : Executor)
        (str_of_list : list string -> string)
        (query : string) (s : state)
        (plan : WebSearchPlan) (rs : list RunResult) (report : ReportData) :
  let c := st_calls s in
  let n := List.length (searches plan) in
  let asked := planner_agent c ("Query: " ++ query)%string in
  let found := behaviours search_agent (c + 1)
                          (map input_msg (searches plan)) in
  let written := writer_agent (c + 1 + n)
                   (report_request str_of_list query
                                   (map final_output rs)) in
  let sent := email_agent (c + 2 + n) (markdown_report report) in
  reply_value asked = Some plan ->
  map value_of found = map Some rs ->
  reply_value written = Some report ->
  succeeded sent = true ->
  exists s',
    conduct_research planner_agent search_agent writer_agent email_agent
                     str_of_list query s = (Ret report, s')
    /\ st_calls s' = c + n + 3
    /\ st_clock s'
       = st_clock s + reply_duration asked + list_max (map duration found)
         + reply_duration written + duration sent.
Proof.
  cbv zeta. intros Hp Hf Hw He.
  unfold conduct_research, bind. rewrite plan_searches_eq.
  rewrite (Runner_run_as_value _ _ _ _ Hp).
  set (s1 := after_call _ s).
  assert (C1 : st_calls s1 = st_calls s + 1) by (subst s1; cbn; lia).
  rewrite <- C1 in Hf.
  destruct (perform_searches_runs search_agent (searches plan) s1 rs Hf)
    as (s2 & E2 & C2 & K2).
  rewrite E2, write_report_eq.
  replace (st_calls s + 1 + List.length (searches plan))
    with (st_calls s2) in Hw by lia.
  rewrite (Runner_run_as_value _ _ _ _ Hw).
  set (s3 := after_call _ s2).
  assert (C3 : st_calls s3 = st_calls s2 + 1) by (subst s3; cbn; lia).
  replace (st_calls s + 2 + List.length (searches plan))
    with (st_calls s3) in He |- * by lia.
  destruct (succeeded_inv _ He) as (d & r & Hb).
  rewrite (email_report_value email_agent report s3 r)
    by (rewrite Hb; reflexivity).
  eexists. split; [reflexivity|].
  subst s3 s1. cbn [after_call st_calls st_clock] in *.
  split; [lia|].
  replace (st_calls s + 1) with (S (st_calls s)) by lia.
  rewrite <- C2, K2. lia.
Qed.

(** A run of the workflow on sample agents: five invocations. *)
Lemma conduct_research_returns_witness :
  exists plan results,
    let c := 0 in
    let n := List.length (searches plan) in
    reply_value (planner_of two_searches c ("Query: " ++ "q")%string)
    = Some plan
    /\ positional ex_echo (c + 1) (map input_msg (searches plan))
                  final_output results
    /\ reply_value (writer_copy (c + 1 + n)
                      (report_request comma_list "q" results))
       = Some copied_report
    /\ succeeded (ex_echo (c + 2 + n) (markdown_report copied_report)) = true
    /\ 5 = c + n + 3.
Proof.
  apply (conduct_research_returns (planner_of two_searches) ex_echo
           writer_copy ex_echo comma_list "q" initial_state copied_report
           (mkState 21 5 2 [] [] [])).
  reflexivity.
Defined.

(** The same run: planner 2 ticks, searches 9 and 8, writer 4, email 6. *)
Lemma conduct_research_completes_witness :
  exists s',
    conduct_research (planner_of two_searches) ex_echo writer_copy ex_echo
                     comma_list "q" initial_state = (Ret copied_report, s')
    /\ st_calls s' = 0 + 2 + 3
    /\ st_clock s' = 0 + 2 + 9 + 4 + 6.
Proof.
  apply (conduct_research_completes (planner_of two_searches) ex_echo
           writer_copy ex_echo comma_list "q" initial_state
           two_searches two_results copied_report);
    reflexivity.
Defined.

(** X12: [conduct_research] stops at the first stage that fails and
    raises its error.  After an error of the planner nothing else is
    invoked; after an error of a search, every search of the plan having
    been started, neither the writer nor the email agent is invoked;
    after an error of the writer the email agent is not invoked; and when
    the email agent fails the call raises although the report was
    written: the report is not returned. *)
Theorem conduct_research_stops_at_failure
        (planner_agent : Agent WebSearchPlan) (search_agent : Executor)
        (writer_agent : Agent ReportData) (email_agent : Executor)
        (str_of_list : list string -> string)
        (query : string) (s : state) :
  let c := st_calls s in
  let research :=
    conduct_research planner_agent search_agent writer_agent email_agent
                     str_of_list query s in
  (forall e,
     reply_error (planner_agent c ("Query: " ++ query)%string) = Some e ->
     exists s', research = (Exc e, s') /\ st_calls s' = c + 1)
  /\
  (forall plan,
     reply_value (planner_agent c ("Query: " ++ query)%string) = Some plan ->
     let n := List.length (searches plan) in
     (forall i item e,
        nth_error (searches plan) i = Some item ->
        error_of (search_agent (c + 1 + i) (input_msg item)) = Some e ->
        exists j item_j e_j s',
          nth_error (searches plan) j = Some item_j
          /\ error_of (search_agent (c + 1 + j) (input_msg item_j))
             = Some e_j
          /\ research = (Exc e_j, s')
          /\ st_calls s' = c + 1 + n)
     /\
     (forall rs,
        map value_of (behaviours search_agent (c + 1)
                                 (map input_msg (searches plan)))
        = map Some rs ->
        let request :=
          report_request str_of_list query (map final_output rs) in
        (forall e,
           reply_error (writer_agent (c + 1 + n) request) = Some e ->
           exists s', research = (Exc e, s') /\ st_calls s' = c + n + 2)
        /\
        (forall report e,
           reply_value (writer_agent (c + 1 + n) request) = Some report ->
           error_of (email_agent (c + 2 + n) (markdown_report report))
           = Some e ->
           exists s', research = (Exc e, s') /\ st_calls s' = c + n + 3))).
Proof.
  cbv zeta. unfold conduct_research, bind. rewrite plan_searches_eq.
  split.
  - intros e He. rewrite (Runner_run_as_error _ _ _ _ He).
    eexists. split; [reflexivity|]. cbn. lia.
  - intros plan Hp. rewrite (Runner_run_as_value _ _ _ _ Hp).
    set (s1 := after_call _ s).
    assert (C1 : st_calls s1 = st_calls s + 1) by (subst s1; cbn; lia).
    rewrite <- C1. split.
    + intros i item e Hi He.
      destruct (perform_searches_raises search_agent (searches plan) s1
                  i item e Hi He) as (j & item_j & e_j & s2 & Hj & Hej & E2 & C2).
      exists j, item_j, e_j, s2. rewrite E2.
      repeat split; trivial.
    + intros rs Hf.
      destruct (perform_searches_runs search_agent (searches plan) s1 rs Hf)
        as (s2 & E2 & C2 & _).
      rewrite E2, write_report_eq. rewrite <- C2. split.
      * intros e He. rewrite (Runner_run_as_error _ _ _ _ He).
        eexists. split; [reflexivity|]. cbn. lia.
      * intros report e Hw He.
        rewrite (Runner_run_as_value _ _ _ _ Hw).
        set (s3 := after_call _ s2).
        assert (C3 : st_calls s3 = st_calls s2 + 1) by (subst s3; cbn; lia).
        replace (st_calls s + 2 + List.length (searches plan))
          with (st_calls s3) in He by lia.
        rewrite (email_report_error email_agent report s3 e He).
        eexists. split; [reflexivity|]. cbn. lia.
Qed.

(** The four failures on sample agents: the planner fails; the first
    search fails; the writer fails; the email agent fails. *)
Lemma conduct_research_stops_at_failure_witness :
  (exists s',
     conduct_research (failing_agent WebSearchPlan) ex_echo writer_copy
                      ex_echo comma_list "q" initial_state
     = (Exc (mkExn (OtherError "APIError") "boom"), s')
     /\ st_calls s' = 0 + 1)
  /\ (exists j item_j e_j s',
        nth_error (searches two_searches) j = Some item_j
        /\ error_of (ex_fail_at 1 (OtherError "APIError") (0 + 1 + j)
                                (input_msg item_j)) = Some e_j
        /\ conduct_research (planner_of two_searches)
                            (ex_fail_at 1 (OtherError "APIError"))
                            writer_copy ex_echo comma_list "q" initial_state
           = (Exc e_j, s')
        /\ st_calls s' = 0 + 1 + 2)
  /\ (exists s',
        conduct_research (planner_of two_searches) ex_echo
                         (failing_agent ReportData) ex_echo comma_list "q"
                         initial_state
        = (Exc (mkExn (OtherError "APIError") "boom"), s')
        /\ st_calls s' = 0 + 2 + 2)
  /\ (exists s',
        conduct_research (planner_of two_searches) ex_echo writer_copy
                         (ex_fail_at 4 (OtherError "APIError")) comma_list
                         "q" initial_state
        = (Exc (mkExn (OtherError "APIError") "boom"), s')
        /\ st_calls s' = 0 + 2 + 3).
Proof.
  split; [|split; [|split]].
  - apply (proj1 (conduct_research_stops_at_failure
                    (failing_agent WebSearchPlan) ex_echo writer_copy
                    ex_echo comma_list "q" initial_state)).
    reflexivity.
  - apply (proj1 (proj2 (conduct_research_stops_at_failure
                           (planner_of two_searches)
                           (ex_fail_at 1 (OtherError "APIError"))
                           writer_copy ex_echo comma_list "q" initial_state)
                        two_searches eq_refl)
             0 (mkItem "why" "a") (mkExn (OtherError "APIError") "boom"));
      reflexivity.
  - apply (proj1 (proj2 (proj2 (conduct_research_stops_at_failure
                                  (planner_of two_searches) ex_echo
                                  (failing_agent ReportData) ex_echo
                                  comma_list "q" initial_state)
                               two_searches eq_refl)
                        two_results eq_refl)).
    reflexivity.
  - apply (proj2 (proj2 (proj2 (conduct_research_stops_at_failure
                                  (planner_of two_searches) ex_echo
                                  writer_copy
                                  (ex_fail_at 4 (OtherError "APIError"))
                                  comma_list "q" initial_state)
                               two_searches eq_refl)
                        two_results eq_refl)
             copied_report (mkExn (OtherError "APIError") "boom"));
      reflexivity.
Defined.

(** * The drivers *)

(** ** Searches under a deadline, side by side *)

Lemma ltb_add_l c a b : (c + a <? c + b)%nat = (a <? b)%nat.
Proof.
  destruct (Nat.ltb_spec a b), (Nat.ltb_spec (c + a) (c + b));
    trivial; lia.
Qed.

Section WithTimeouts.

Variable ex : Executor.
Variable cx : Canceller.
Variable timeout : Z.
Hypothesis timeout_positive : (0 < timeout)%Z.

Let limit := Z.to_nat timeout.

Lemma create_task_search_with_timeout q s :
  exists s1,
    create_task (search_with_timeout ex cx q timeout) s
    = (Ret (timeout_task q limit (st_clock s) (st_next_task s)
                         (ex (st_calls s) q) (cx (st_calls s) q)), s1)
    /\ st_clock s1 = st_clock s
    /\ st_calls s1 = S (st_calls s)
    /\ st_next_task s1 = S (S (st_next_task s))
    /\ st_sleeps s1 = st_sleeps s
    /\ st_stdout s1 = st_stdout s.
Proof.
  unfold create_task at 1. run_wait_for.
  unfold timeout_task, in_time, duration, early_outcome, late_outcome.
  rewrite (proj2 (Z.leb_gt _ _) timeout_positive).
  fold limit.
  destruct (ex (st_calls s) q) as [[d|] [r|e]]; cbn [latency result];
    cbn [done_at task_result task_id st_clock st_calls st_next_task
         st_sleeps st_cancelled st_stdout];
    rewrite ?ltb_add_l;
    try destruct (d <? limit)%nat;
    try destruct (is_TimeoutError e);
    destruct (cx (st_calls s) q) as [[wait|] [|r'|[[| | |name] msg]]];
    cbn; rewrite ?Nat.max_r by lia;
    (eexists; split; [reflexivity|cbn; repeat split]).
Qed.

Lemma create_tasks_with_timeouts queries : forall s,
  exists s1,
    create_tasks (map (fun q => search_with_timeout ex cx q timeout)
                      queries) s
    = (Ret (timeout_tasks ex cx limit (st_clock s) (st_next_task s)
                          (st_calls s) queries), s1)
    /\ st_clock s1 = st_clock s
    /\ st_calls s1 = st_calls s + List.length queries
    /\ st_sleeps s1 = st_sleeps s
    /\ st_stdout s1 = st_stdout s.
Proof.
  induction queries as [|q queries IH]; intros s.
  - exists s. cbn. repeat split. lia.
  - cbn [map create_tasks timeout_tasks]. unfold bind.
    destruct (create_task_search_with_timeout q s)
      as (s1 & E1 & K1 & C1 & N1 & S1 & O1).
    rewrite E1. destruct (IH s1) as (s2 & E2 & K2 & C2 & S2 & O2).
    rewrite E2, K1, C1, N1. cbn [ret].
    exists s2. cbn [List.length]. repeat split; try congruence. lia.
Qed.

Lemma timeout_tasks_nth clock queries : forall id c i q,
  nth_error queries i = Some q ->
  exists id',
    In (timeout_task q limit clock id' (ex (c + i) q) (cx (c + i) q))
       (timeout_tasks ex cx limit clock id c queries).
Proof.
  induction queries as [|q0 queries IH]; intros id c [|i] q; cbn;
    try discriminate.
  - intros [= ->]. exists id. rewrite Nat.add_0_r. now left.
  - intros Hi. destruct (IH (S (S id)) (S c) i q Hi) as (id' & Hin).
    exists id'. right. replace (c + S i) with (S c + i) by lia. exact Hin.
Qed.

Lemma timeout_tasks_inv clock queries : forall id c t,
  In t (timeout_tasks ex cx limit clock id c queries) ->
  exists i q id',
    nth_error queries i = Some q
    /\ t = timeout_task q limit clock id' (ex (c + i) q) (cx (c + i) q).
Proof.
  induction queries as [|q0 queries IH]; intros id c t; [intros []|].
  cbn [timeout_tasks]. intros [<-|Hin].
  - exists 0, q0, id. rewrite Nat.add_0_r. split; reflexivity.
  - destruct (IH _ _ _ Hin) as (i & q & id' & Hi & ->).
    exists (S i), q, id'. split; [exact Hi|].
    replace (c + S i) with (S c + i) by lia. reflexivity.
Qed.

Lemma length_timeout_tasks clock queries : forall id c,
  List.length (timeout_tasks ex cx limit clock id c queries)
  = List.length queries.
Proof.
  induction queries as [|q queries IH]; intros id c; cbn; [reflexivity|].
  now rewrite IH.
Qed.

(** A task under deadline ends in time when its invocation, if it has to
    be cancelled, ends within [wait] ticks. *)
Lemma timeout_task_bounded q clock id b c wait :
  (in_time limit b = false ->
   exists d, stop_delay c = Some d /\ d <= wait) ->
  task_result (timeout_task q limit clock id b c) <> Hang
  /\ exists d,
      done_at (timeout_task q limit clock id b c) = Some d
      /\ clock <= d <= clock + limit + wait.
Proof.
  unfold timeout_task, in_time, duration, early_outcome, late_outcome.
  destruct b as [[d|] [r|e]]; cbn [latency result];
    try destruct (Nat.ltb_spec d limit);
    intros Hstop; cbn [done_at task_result];
    try (split; [try destruct (is_TimeoutError e); discriminate
                |eexists; split; [reflexivity|lia]]);
    destruct (Hstop eq_refl) as (d' & -> & Hle);
    cbn [done_at task_result];
    (split; [destruct (stop_result c) as [|r'|e'];
             try destruct (is_CancelledError e' || is_TimeoutError e');
             discriminate
            |eexists; split; [reflexivity|lia]]).
Qed.

(** A task under deadline whose invocation is still running at the
    deadline and never ends once cancelled never completes. *)
Lemma timeout_task_hangs q clock id b c :
  in_time limit b = false -> stop_delay c = None ->
  done_at (timeout_task q limit clock id b c) = None.
Proof.
  unfold timeout_task. intros -> ->. reflexivity.
Qed.

(** A task under deadline does not raise when its invocation raises
    nothing but a timeout in time and, cancelled, nothing but the
    cancellation or a timeout. *)
Lemma timeout_task_quiet q clock id b c :
  (forall e, in_time limit b = true -> result b = Raises e ->
             is_TimeoutError e = true) ->
  (forall e, in_time limit b = false -> stop_result c = Raised e ->
             is_CancelledError e || is_TimeoutError e = true) ->
  forall e, task_result (timeout_task q limit clock id b c) <> Exc e.
Proof.
  unfold timeout_task, early_outcome, late_outcome.
  intros Hearly Hlate e0.
  destruct (in_time limit b).
  - cbn [task_result]. destruct (result b) as [r|e]; [discriminate|].
    rewrite (Hearly e eq_refl eq_refl). discriminate.
  - destruct (stop_delay c); cbn [task_result]; [|discriminate].
    destruct (stop_result c) as [|r'|e']; try discriminate.
    rewrite (Hlate e' eq_refl eq_refl). discriminate.
Qed.

(** The line for the dict such a task returns. *)
Lemma timeout_task_status q clock id b c dq :
  task_result (timeout_task q limit clock id b c) = Ret dq ->
  forall w, report_status dq w = say (status_line limit b c q) w.
Proof.
  unfold timeout_task, status_line, answered, early_outcome, late_outcome.
  destruct (in_time limit b).
  - cbn [task_result]. destruct (result b) as [r|e].
    + intros [= <-] w. reflexivity.
    + destruct (is_TimeoutError e); [|discriminate].
      intros [= <-] w. reflexivity.
  - destruct (stop_delay c); cbn [task_result]; [|discriminate].
    destruct (stop_result c) as [|r'|e'].
    + intros [= <-] w. reflexivity.
    + intros [= <-] w. reflexivity.
    + destruct (is_CancelledError e' || is_TimeoutError e'); [|discriminate].
      intros [= <-] w. reflexivity.
Qed.

(** When every task returns a dict, the dicts of the tasks give the
    status lines of the queries. *)
Lemma timeout_tasks_results clock queries : forall id c,
  (forall t, In t (timeout_tasks ex cx limit clock id c queries) ->
             exists dq, task_result t = Ret dq) ->
  exists dicts,
    results (timeout_tasks ex cx limit clock id c queries) = Ret dicts
    /\ forall w,
        each dicts report_status w
        = (Ret tt, mkConsole (co_state w)
                             (co_reports w
                                ++ status_lines ex cx limit c queries)).
Proof.
  induction queries as [|q queries IH]; intros id c Hok.
  - exists []. split; [reflexivity|].
    intros w. cbn. rewrite app_nil_r. destruct w; reflexivity.
  - cbn [timeout_tasks] in Hok.
    destruct (IH (S (S id)) (S c)) as (dicts & Hres & Hsay).
    { intros t Ht. apply Hok. right. exact Ht. }
    destruct (Hok _ (or_introl eq_refl)) as (dq & Hdq).
    pose proof (timeout_task_status _ _ _ _ _ _ Hdq) as Hline.
    cbn [timeout_tasks results status_lines].
    exists (dq :: dicts). rewrite Hdq, Hres. split; [reflexivity|].
    intros w. cbn [each]. unfold and_then. rewrite Hline.
    unfold say at 1. rewrite Hsay. cbn [co_state co_reports].
    rewrite <- app_assoc. reflexivity.
Qed.

(** The driver, once its first lines are printed. *)
Lemma with_timeouts_eq queries w :
  with_timeouts ex cx queries timeout w
  = match gather_tasks
            (timeout_tasks ex cx limit (st_clock (co_state w))
                           (st_next_task (co_state w))
                           (st_calls (co_state w)) queries)
            (snd (create_tasks
                    (map (fun q => search_with_timeout ex cx q timeout)
                         queries) (co_state w)))
    with
    | (Ret dicts, s') =>
        match each dicts report_status
                   (mkConsole s' (co_reports w ++ timeouts_banner queries
                                    ++ [SayResults]))
        with
        | (Ret _, w') =>
            (Ret tt, mkConsole (co_state w') (co_reports w' ++ [SayBlank]))
        | (Exc e, w') => (Exc e, w')
        | (Hang, w') => (Hang, w')
        end
    | (Exc e, s') =>
        (Exc e, mkConsole s' (co_reports w ++ timeouts_banner queries))
    | (Hang, s') =>
        (Hang, mkConsole s' (co_reports w ++ timeouts_banner queries))
    end.
Proof.
  unfold with_timeouts, timeouts_banner.
  unfold and_then at 1, say at 1. unfold and_then at 1, say at 1.
  cbn [co_state co_reports]. rewrite <- !app_assoc. cbn [app].
  unfold and_then at 1, run, gather, bind.
  cbn [co_state co_reports].
  destruct (create_tasks_with_timeouts queries (co_state w))
    as (s1 & E1 & _).
  rewrite E1. cbn [snd].
  destruct (gather_tasks _ s1) as [[dicts|e|] s']; try reflexivity.
  unfold and_then at 1, say at 1. cbn [co_state co_reports].
  rewrite <- ?app_assoc. cbn [app].
  unfold and_then.
  destruct (each dicts report_status _) as [[[]|e|] w']; reflexivity.
Qed.

End WithTimeouts.

Lemma raising_child_dec {X} (ts : list (task X)) :
  (exists c e, In c ts /\ task_result c = Exc e)
  \/ (forall c e, In c ts -> task_result c <> Exc e).
Proof.
  induction ts as [|t ts [(c & e & Hin & Hr)|IH]].
  - right. intros c e [].
  - left. exists c, e. split; [now right|exact Hr].
  - destruct (task_result t) as [a|e|] eqn:Ht.
    + right. intros c e [<-|Hin]; [congruence|now apply IH].
    + left. exists t, e. split; [now left|exact Ht].
    + right. intros c e [<-|Hin]; [congruence|now apply IH].
Qed.

Lemma report_status_state (d : dict) w :
  fst (report_status d w) <> Hang
  /\ co_state (snd (report_status d w)) = co_state w.
Proof.
  unfold report_status, and_then, run, say, getitem.
  destruct (dict_get d "status") as [v|]; cbn [raise ret];
    [|split; [discriminate|reflexivity]].
  destruct (dict_get d "query") as [v'|]; cbn [raise ret];
    split; try discriminate; reflexivity.
Qed.

Lemma each_report_status (dicts : list dict) : forall w,
  fst (each dicts report_status w) <> Hang
  /\ co_state (snd (each dicts report_status w)) = co_state w.
Proof.
  induction dicts as [|d dicts IH]; intros w; cbn [each].
  - split; [discriminate|reflexivity].
  - unfold and_then. destruct (report_status_state d w) as (H1 & H2).
    destruct (report_status d w) as [[[]| |] w1]; cbn [fst snd] in *.
    + destruct (IH w1) as (H3 & H4). split; [exact H3|congruence].
    + split; [discriminate|exact H2].
    + contradiction.
Qed.

Lemma results_no_hang {X} (l : list (task X)) :
  (forall c, In c l -> task_result c <> Hang) -> results l <> Hang.
Proof.
  induction l as [|x l IH]; intros Hl; cbn; [discriminate|].
  destruct (task_result x) as [a|e|] eqn:Hx.
  - specialize (IH (fun c Hc => Hl c (or_intror Hc))).
    destruct (results l); congruence.
  - discriminate.
  - exfalso. apply (Hl x); [now left|exact Hx].
Qed.

Lemma gather_tasks_calls {X} (ts : list (task X)) s :
  st_calls (snd (gather_tasks ts s)) = st_calls s.
Proof.
  unfold gather_tasks. destruct ts as [|t ts]; [reflexivity|].
  destruct (outer _) as [[r t0]|]; reflexivity.
Qed.

(** X14: the fan-out of searches under a deadline makes one invocation
    per query ([timeout > 0]) and bounds the wait only as far as the
    executor honours a cancellation.  When every invocation still running
    at the deadline ends within [wait] ticks of its cancellation, the
    fan-out completes, by returning or by raising, no later than
    [timeout + wait] ticks after it started.  When one of them never ends
    once cancelled and no task raises, the fan-out never completes. *)
Theorem with_timeouts_bounded
        (ex : Executor) (cx : Canceller) (queries : list string)
        (timeout : Z) (wait : nat) (w : console) :
  (0 < timeout)%Z ->
  let c := st_calls (co_state w) in
  let limit := Z.to_nat timeout in
  let r := with_timeouts ex cx queries timeout w in
  st_calls (co_state (snd r)) = c + List.length queries
  /\ ((forall i q,
         nth_error queries i = Some q ->
         in_time limit (ex (c + i) q) = false ->
         exists d, stop_delay (cx (c + i) q) = Some d /\ d <= wait) ->
      fst r <> Hang
      /\ st_clock (co_state w) <= st_clock (co_state (snd r))
         <= st_clock (co_state w) + limit + wait)
  /\ (forall i q,
        nth_error queries i = Some q ->
        in_time limit (ex (c + i) q) = false ->
        stop_delay (cx (c + i) q) = None ->
        (forall j q' e,
           nth_error queries j = Some q' ->
           in_time limit (ex (c + j) q') = true ->
           result (ex (c + j) q') = Raises e ->
           is_TimeoutError e = true) ->
        (forall j q' e,
           nth_error queries j = Some q' ->
           in_time limit (ex (c + j) q') = false ->
           stop_result (cx (c + j) q') = Raised e ->
           is_CancelledError e || is_TimeoutError e = true) ->
        fst r = Hang).
Proof.
  intros Hpos. cbv zeta. rewrite (with_timeouts_eq ex cx timeout Hpos).
  destruct (create_tasks_with_timeouts ex cx timeout Hpos queries
              (co_state w)) as (s1 & E1 & K1 & C1 & _).
  rewrite E1. cbn [snd].
  set (ts := timeout_tasks ex cx (Z.to_nat timeout) (st_clock (co_state w))
                           (st_next_task (co_state w))
                           (st_calls (co_state w)) queries).
  split; [|split].
  - pose proof (gather_tasks_calls ts s1) as Hc.
    destruct (gather_tasks ts s1) as [[dicts|e|] s']; cbn [snd] in Hc;
      cbn [fst snd co_state]; try lia.
    match goal with
    | |- context [each dicts report_status ?w0] =>
        destruct (each_report_status dicts w0) as (_ & H2);
        destruct (each dicts report_status w0) as [[[]|e|] w']
    end; cbn [fst snd co_state] in *; rewrite ?H2; lia.
  - intros Hstop.
    assert (Hdone : forall t, In t ts ->
                              task_result t <> Hang
                              /\ exists d, done_at t = Some d
                                           /\ st_clock (co_state w) <= d
                                              <= st_clock (co_state w)
                                                 + Z.to_nat timeout + wait).
    { intros t Ht. subst ts.
      destruct (timeout_tasks_inv _ _ _ _ _ _ _ _ Ht)
        as (i & q & id' & Hi & ->).
      apply timeout_task_bounded; [exact Hpos|]. intros Hlate.
      exact (Hstop i q Hi Hlate). }
    destruct queries as [|q0 qs'] eqn:Hqs.
    { cbn. repeat split; try discriminate; lia. }
    assert (Hne : ts <> []) by (subst ts; discriminate).
    destruct (raising_child_dec ts) as [(c0 & e0 & Hin0 & Hr0)|Hnone].
    + destruct (Hdone c0 Hin0) as (_ & d0 & Hd0 & _).
      destruct (gather_tasks_raises ts s1 c0 e0 d0 Hin0 Hr0 Hd0)
        as (c & e & t1 & Hc & _ & Hd & Eg & _).
      destruct (Hdone c Hc) as (_ & d & Hd' & Hle).
      rewrite Eg. cbn [fst snd co_state set_clock st_clock st_calls].
      assert (d = t1) by congruence. subst d.
      repeat split; try discriminate; lia.
    + destruct (gather_tasks_last ts s1 Hne) as (c & t1 & Hc & Hd & _ & Eg).
      * intros c Hc. destruct (Hdone c Hc) as (_ & d & Hd & _). congruence.
      * exact Hnone.
      * destruct (Hdone c Hc) as (_ & d & Hd' & Hle).
        assert (d = t1) by congruence. subst d.
        rewrite Eg.
        pose proof (results_no_hang ts (fun c Hc => proj1 (Hdone c Hc)))
          as Hnh.
        destruct (results ts) as [dicts| |]; cbn [fst snd co_state].
        -- match goal with
           | |- context [each dicts report_status ?w0] =>
               destruct (each_report_status dicts w0) as (H1 & H2);
               destruct (each dicts report_status w0) as [[[]|e|] w']
           end; cbn [fst snd co_state] in *; rewrite ?H2;
             cbn [set_clock st_clock];
             repeat split; try discriminate; try lia.
           contradiction.
        -- cbn. repeat split; try discriminate; lia.
        -- contradiction.
  - intros i q Hi Hlate Hnever Hearly Hquiet.
    destruct (timeout_tasks_nth ex cx timeout
                (st_clock (co_state w)) queries
                (st_next_task (co_state w)) (st_calls (co_state w)) i q Hi)
      as (id' & Hin).
    fold ts in Hin.
    rewrite (gather_tasks_hangs ts s1 _ Hin).
    + reflexivity.
    + apply timeout_task_hangs; assumption.
    + intros t e Ht. subst ts.
      destruct (timeout_tasks_inv _ _ _ _ _ _ _ _ Ht)
        as (j & q' & id'' & Hj & ->).
      apply timeout_task_quiet.
      * intros e0. apply Hearly. exact Hj.
      * intros e0. apply Hquiet. exact Hj.
Qed.

(** Three queries of latencies 10, 9 and 8 under a deadline of 10: the
    first invocation is cancelled.  When it ends three ticks later the
    fan-out is over by time 13; when it never ends, neither does the
    fan-out. *)
Lemma with_timeouts_bounded_witness :
  st_calls (co_state (snd (with_timeouts ex_echo (stops_after 3)
                             ["a"; "b"; "c"] 10
                             (mkConsole initial_state []))))
  = 0 + 3
  /\ (fst (with_timeouts ex_echo (stops_after 3) ["a"; "b"; "c"] 10
                         (mkConsole initial_state [])) <> Hang
      /\ 0 <= st_clock (co_state (snd (with_timeouts ex_echo (stops_after 3)
                                         ["a"; "b"; "c"] 10
                                         (mkConsole initial_state []))))
         <= 0 + Z.to_nat 10 + 3)
  /\ fst (with_timeouts ex_echo never_stops ["a"; "b"; "c"] 10
                        (mkConsole initial_state [])) = Hang.
Proof.
  destruct (with_timeouts_bounded ex_echo (stops_after 3) ["a"; "b"; "c"] 10
              3 (mkConsole initial_state []) ltac:(lia)) as (H1 & H2 & _).
  destruct (with_timeouts_bounded ex_echo never_stops ["a"; "b"; "c"] 10
              3 (mkConsole initial_state []) ltac:(lia)) as (_ & _ & H3).
  split; [exact H1|]. split.
  - apply H2. intros i q _ _. exists 3. split; [reflexivity|lia].
  - apply (H3 0 "a").
    + reflexivity.
    + reflexivity.
    + reflexivity.
    + intros j q' e _ _ H. discriminate H.
    + intros j q' e _ _ H. discriminate H.
Defined.

(** A task under deadline returns a dict when its invocation raises
    nothing but a timeout in time and, cancelled, ends with nothing but
    the cancellation, a timeout or a value. *)
Lemma timeout_task_returns q limit clock id b c :
  (forall e, in_time limit b = true -> result b = Raises e ->
             is_TimeoutError e = true) ->
  (in_time limit b = false ->
   stop_delay c <> None
   /\ forall e, stop_result c = Raised e ->
                is_CancelledError e || is_TimeoutError e = true) ->
  (exists dq, task_result (timeout_task q limit clock id b c) = Ret dq)
  /\ done_at (timeout_task q limit clock id b c) <> None.
Proof.
  unfold timeout_task, early_outcome, late_outcome.
  intros Hearly Hlate.
  destruct (in_time limit b).
  - cbn [task_result done_at]. split; [|discriminate].
    destruct (result b) as [r|e]; [eexists; reflexivity|].
    rewrite (Hearly e eq_refl eq_refl). eexists; reflexivity.
  - destruct (Hlate eq_refl) as (Hstop & Hquiet).
    destruct (stop_delay c); [|contradiction].
    cbn [task_result done_at]. split; [|discriminate].
    destruct (stop_result c) as [|r'|e']; try (eexists; reflexivity).
    rewrite (Hquiet e' eq_refl). eexists; reflexivity.
Qed.

(** A task under deadline raises the error its invocation raises in
    time, a timeout apart, and the error its invocation raises once
    cancelled, cancellation and timeout apart. *)
Lemma timeout_task_raises q limit clock id b c e :
  (in_time limit b = true /\ result b = Raises e
   /\ is_TimeoutError e = false)
  \/ (in_time limit b = false /\ stop_delay c <> None
      /\ stop_result c = Raised e
      /\ is_CancelledError e || is_TimeoutError e = false) ->
  task_result (timeout_task q limit clock id b c) = Exc e
  /\ exists t, done_at (timeout_task q limit clock id b c) = Some t.
Proof.
  unfold timeout_task, early_outcome, late_outcome.
  intros [(-> & -> & ->)|(-> & Hstop & -> & ->)].
  - cbn [task_result done_at]. split; [reflexivity|eexists; reflexivity].
  - destruct (stop_delay c); [|contradiction].
    cbn [task_result done_at]. split; [reflexivity|eexists; reflexivity].
Qed.

(** X15: the fan-out of searches under a deadline ([timeout > 0])
    reports one status per query, in the order of the queries, between
    its heading lines and a closing empty line: [success] for a query
    whose invocation returned, before the deadline or after its
    cancellation, [timeout] for the others.  This holds provided every
    invocation still running at the deadline ends once cancelled, and no
    invocation raises an error of its own: in time, other than a
    timeout; once cancelled, other than the cancellation or a timeout.
    When one does raise such an error, the call raises after its first
    two lines and no status is printed for any query. *)
Theorem with_timeouts_reports
        (ex : Executor) (cx : Canceller) (queries : list string)
        (timeout : Z) (w : console) :
  (0 < timeout)%Z ->
  let c := st_calls (co_state w) in
  let limit := Z.to_nat timeout in
  ((forall i q e,
      nth_error queries i = Some q ->
      in_time limit (ex (c + i) q) = true ->
      result (ex (c + i) q) = Raises e ->
      is_TimeoutError e = true) ->
   (forall i q,
      nth_error queries i = Some q ->
      in_time limit (ex (c + i) q) = false ->
      stop_delay (cx (c + i) q) <> None
      /\ forall e, stop_result (cx (c + i) q) = Raised e ->
                   is_CancelledError e || is_TimeoutError e = true) ->
   exists s',
     with_timeouts ex cx queries timeout w
     = (Ret tt,
        mkConsole s' (co_reports w ++ timeouts_banner queries
                        ++ [SayResults]
                        ++ status_lines ex cx limit c queries
                        ++ [SayBlank])))
  /\
  (forall i q e,
     nth_error queries i = Some q ->
     (in_time limit (ex (c + i) q) = true
      /\ result (ex (c + i) q) = Raises e
      /\ is_TimeoutError e = false)
     \/ (in_time limit (ex (c + i) q) = false
         /\ stop_delay (cx (c + i) q) <> None
         /\ stop_result (cx (c + i) q) = Raised e
         /\ is_CancelledError e || is_TimeoutError e = false) ->
     exists e' s',
       with_timeouts ex cx queries timeout w
       = (Exc e', mkConsole s' (co_reports w ++ timeouts_banner queries))).
Proof.
  intros Hpos. cbv zeta. rewrite (with_timeouts_eq ex cx timeout Hpos).
  destruct (create_tasks_with_timeouts ex cx timeout Hpos queries
              (co_state w)) as (s1 & E1 & K1 & C1 & _).
  rewrite E1. cbn [snd].
  set (ts := timeout_tasks ex cx (Z.to_nat timeout) (st_clock (co_state w))
                           (st_next_task (co_state w))
                           (st_calls (co_state w)) queries).
  split.
  - intros Hearly Hlate.
    assert (Hret : forall t, In t ts ->
                             (exists dq, task_result t = Ret dq)
                             /\ done_at t <> None).
    { intros t Ht. subst ts.
      destruct (timeout_tasks_inv _ _ _ _ _ _ _ _ Ht)
        as (i & q & id' & Hi & ->).
      apply timeout_task_returns.
      - intros e. apply Hearly. exact Hi.
      - apply Hlate. exact Hi. }
    destruct (timeout_tasks_results ex cx timeout (st_clock (co_state w))
                queries (st_next_task (co_state w))
                (st_calls (co_state w)))
      as (dicts & Hres & Hsay).
    { intros t Ht. apply Hret. exact Ht. }
    fold ts in Hres.
    assert (Eg : exists s2, gather_tasks ts s1 = (Ret dicts, s2)).
    { destruct ts as [|t0 ts'] eqn:Hts.
      - cbn in Hres. injection Hres as <-. exists s1. reflexivity.
      - rewrite <- Hts in *.
        destruct (gather_tasks_last ts s1) as (c & t1 & _ & _ & _ & Eg).
        + rewrite Hts. discriminate.
        + intros c Hc. apply Hret. exact Hc.
        + intros c e Hc He. destruct (proj1 (Hret c Hc)) as (dq & Hdq).
          congruence.
        + rewrite Eg, Hres. eexists. reflexivity. }
    destruct Eg as (s2 & Eg). rewrite Eg, Hsay.
    cbn [co_state co_reports]. exists s2.
    rewrite <- !app_assoc. reflexivity.
  - intros i q e Hi Hraise.
    destruct (timeout_tasks_nth ex cx timeout (st_clock (co_state w))
                queries (st_next_task (co_state w))
                (st_calls (co_state w)) i q Hi) as (id' & Hin).
    fold ts in Hin.
    destruct (timeout_task_raises q (Z.to_nat timeout)
                (st_clock (co_state w)) id' _ _ e Hraise)
      as (Hr & t0 & Hd).
    destruct (gather_tasks_raises ts s1 _ e t0 Hin Hr Hd)
      as (c & e' & t1 & _ & _ & _ & Eg & _).
    rewrite Eg. eexists. eexists. reflexivity.
Qed.

(** Three queries of latencies 10, 9 and 8 under a deadline of 10: the
    first one times out; when its invocation answers all the same once
    cancelled, it is reported as a success; and an API error after one
    tick leaves the call with no status printed. *)
Lemma with_timeouts_reports_witness :
  (exists s',
     with_timeouts ex_echo (stops_after 3) ["a"; "b"; "c"] 10
                   (mkConsole initial_state [])
     = (Ret tt,
        mkConsole s'
          ([] ++ timeouts_banner ["a"; "b"; "c"] ++ [SayResults]
              ++ status_lines ex_echo (stops_after 3) (Z.to_nat 10) 0
                              ["a"; "b"; "c"]
              ++ [SayBlank])))
  /\ (exists s',
        with_timeouts ex_echo answers_anyway ["a"; "b"; "c"] 10
                      (mkConsole initial_state [])
        = (Ret tt,
           mkConsole s'
             ([] ++ timeouts_banner ["a"; "b"; "c"] ++ [SayResults]
                 ++ status_lines ex_echo answers_anyway (Z.to_nat 10) 0
                                 ["a"; "b"; "c"]
                 ++ [SayBlank])))
  /\ (exists e' s',
        with_timeouts (ex_fail_at 1 (OtherError "APIError")) (stops_after 3)
                      ["a"; "b"; "c"] 10 (mkConsole initial_state [])
        = (Exc e', mkConsole s' ([] ++ timeouts_banner ["a"; "b"; "c"]))).
Proof.
  split; [|split].
  - apply (proj1 (with_timeouts_reports ex_echo (stops_after 3)
                    ["a"; "b"; "c"] 10 (mkConsole initial_state [])
                    ltac:(lia))).
    + intros i q e _ _ H. discriminate H.
    + intros i q _ _. split; [discriminate|]. intros e H. discriminate H.
  - apply (proj1 (with_timeouts_reports ex_echo answers_anyway
                    ["a"; "b"; "c"] 10 (mkConsole initial_state [])
                    ltac:(lia))).
    + intros i q e _ _ H. discriminate H.
    + intros i q _ _. split; [discriminate|]. intros e H. discriminate H.
  - apply (proj2 (with_timeouts_reports
                    (ex_fail_at 1 (OtherError "APIError")) (stops_after 3)
                    ["a"; "b"; "c"] 10 (mkConsole initial_state [])
                    ltac:(lia))
             1 "b" (mkExn (OtherError "APIError") "boom")).
    + reflexivity.
    + left. repeat split.
Defined.

(** The lines of these runs and the time they take: the cancelled
    invocation ends three ticks after the deadline, or answers two ticks
    after it. *)
Example with_timeouts_run :
  (let r := with_timeouts ex_echo (stops_after 3) ["a"; "b"; "c"] 10
                          (mkConsole initial_state []) in
   fst r = Ret tt
   /\ st_clock (co_state (snd r)) = 13
   /\ co_reports (snd r)
      = [ SayBanner "Pattern 2: Parallel Searches with Timeouts";
          SayExecuting 3 "with 30s timeout";
          SayResults;
          SayStatus false (VStr "a") (VStr "timeout");
          SayStatus true (VStr "b") (VStr "success");
          SayStatus true (VStr "c") (VStr "success");
          SayBlank ])
  /\ (let r := with_timeouts ex_echo answers_anyway ["a"; "b"; "c"] 10
                             (mkConsole initial_state []) in
      fst r = Ret tt
      /\ st_clock (co_state (snd r)) = 12
      /\ co_reports (snd r)
         = [ SayBanner "Pattern 2: Parallel Searches with Timeouts";
             SayExecuting 3 "with 30s timeout";
             SayResults;
             SayStatus true (VStr "a") (VStr "success");
             SayStatus true (VStr "b") (VStr "success");
             SayStatus true (VStr "c") (VStr "success");
             SayBlank ]).
Proof. repeat split. Qed.

(** ** [gather] that collects the exceptions *)

Section GatherAll.

Context {A : Type}.
Variable children : list (task A).

Abbreviation step_all := (done_callback_all children).

Lemma fold_all_quiet l : forall g,
  outer g = None ->
  nfinished g + List.length l < List.length children ->
  outer (fold_left step_all l g) = None
  /\ nfinished (fold_left step_all l g) = nfinished g + List.length l.
Proof.
  induction l as [|x l IH]; intros g Ho Hn; cbn [fold_left List.length] in *.
  - split; [exact Ho|lia].
  - destruct (IH (step_all g x)) as (H1 & H2).
    + unfold done_callback_all. rewrite Ho.
      destruct (Nat.eqb_spec (S (nfinished g)) (List.length children));
        [lia|reflexivity].
    + unfold done_callback_all. rewrite Ho.
      destruct (Nat.eqb_spec (S (nfinished g)) (List.length children));
        cbn; lia.
    + split; [exact H1|]. rewrite H2. unfold done_callback_all. rewrite Ho.
      destruct (Nat.eqb_spec (S (nfinished g)) (List.length children));
        cbn; lia.
Qed.

Lemma step_all_last g x :
  outer g = None ->
  S (nfinished g) = List.length children ->
  outer (step_all g x) = Some (results_or_exceptions children, snd x).
Proof.
  intros Ho Hn. unfold done_callback_all. rewrite Ho, Hn, Nat.eqb_refl.
  reflexivity.
Qed.

(** When every child completes, [gather] gives the list of what the
    children gave, values and exceptions, in argument order, at the time
    the last one completes. *)
Lemma gather_all_tasks_done s :
  (forall c, In c children -> done_at c <> None) ->
  exists t,
    gather_all_tasks children s
    = (results_or_exceptions children,
       set_clock (Nat.max (st_clock s) t) s).
Proof.
  intros Hdone. unfold gather_all_tasks.
  destruct children as [|c0 cs] eqn:Hch.
  { exists 0. cbn. rewrite Nat.max_0_r. destruct s; reflexivity. }
  rewrite <- Hch in *.
  assert (Hlen : List.length (completion_order children)
                 = List.length children)
    by now apply completion_order_length_all.
  destruct (exists_last (l := completion_order children)) as (l' & x & Hl).
  { intros E. rewrite E in Hlen. rewrite Hch in Hlen. discriminate. }
  rewrite Hl in *. rewrite length_app in Hlen. cbn in Hlen.
  rewrite fold_left_app. cbn [fold_left].
  destruct (fold_all_quiet l' (mkGather 0 None)) as (Ho & Hn).
  { reflexivity. }
  { cbn. lia. }
  rewrite (step_all_last _ x Ho) by (rewrite Hn; cbn; lia).
  exists (snd x). reflexivity.
Qed.

(** When some child never completes, [gather] never completes. *)
Lemma gather_all_tasks_hangs s c0 :
  In c0 children -> done_at c0 = None ->
  gather_all_tasks children s = (Hang, s).
Proof.
  intros Hin Hd. unfold gather_all_tasks.
  destruct children as [|c1 cs] eqn:Hch; [destruct Hin|].
  rewrite <- Hch in *.
  destruct (fold_all_quiet (completion_order children) (mkGather 0 None))
    as (Ho & _).
  - reflexivity.
  - cbn [nfinished Nat.add]. unfold completion_order.
    rewrite (Permutation_length (sort_by_time_perm _)).
    eapply finishing_length_lt; eassumption.
  - rewrite Ho. reflexivity.
Qed.

End GatherAll.

(** Tasks made from coroutines that all satisfy a property of their
    outcome satisfy it too; a task has no completion time exactly when
    its coroutine never completes. *)
Lemma create_tasks_Forall2 {X Q} (P : Q -> outcome X -> Prop)
      (f : Q -> M X) (qs : list Q) :
  (forall q s, In q qs -> P q (fst (f q s))) ->
  forall s,
  exists ts s1,
    create_tasks (map f qs) s = (Ret ts, s1)
    /\ st_clock s1 = st_clock s
    /\ Forall2 (fun q t => P q (task_result t)
                           /\ (done_at t = None <-> task_result t = Hang))
               qs ts.
Proof.
  induction qs as [|q qs IH]; intros HP s.
  - exists [], s. cbn. repeat split. constructor.
  - cbn [map create_tasks]. unfold bind.
    assert (Hq : exists t s1,
               create_task (f q) s = (Ret t, s1)
               /\ st_clock s1 = st_clock s
               /\ P q (task_result t)
               /\ (done_at t = None <-> task_result t = Hang)).
    { unfold create_task.
      specialize (HP q (mkState (st_clock s) (st_calls s)
                                (S (st_next_task s)) (st_sleeps s)
                                (st_cancelled s) (st_stdout s))
                     (or_introl eq_refl)).
      destruct (f q _) as [[a|e|] s2]; cbn [fst] in HP;
        eexists; eexists; (split; [reflexivity|]);
        cbn [task_result done_at set_clock st_clock];
        repeat split; trivial; discriminate. }
    destruct Hq as (t & s1 & E1 & K1 & HPt & Hd). rewrite E1.
    destruct (IH (fun q' s' Hin => HP q' s' (or_intror Hin)) s1)
      as (ts & s2 & E2 & K2 & Hall).
    rewrite E2. cbn [ret]. exists (t :: ts), s2.
    split; [reflexivity|]. split; [congruence|].
    constructor; [split; assumption|exact Hall].
Qed.

Lemma results_or_exceptions_Forall2 {X Q} (P : Q -> outcome X -> Prop)
      (qs : list Q) (ts : list (task X)) :
  Forall2 (fun q t => P q (task_result t) /\ task_result t <> Hang) qs ts ->
  exists l,
    results_or_exceptions ts = Ret l
    /\ Forall2 (fun q r => P q (collected r)) qs l.
Proof.
  induction 1 as [|q t qs ts (HP & Hnh) _ (l & Hl & IH)].
  - exists []. split; [reflexivity|constructor].
  - cbn [results_or_exceptions]. rewrite Hl.
    destruct (task_result t) as [a|e|] eqn:Ht.
    + exists (inr a :: l). split; [reflexivity|].
      constructor; [exact HP|exact IH].
    + exists (inl e :: l). split; [reflexivity|].
      constructor; [exact HP|exact IH].
    + contradiction.
Qed.

(** ** Retries side by side *)

(** Only an error outside [Exception] leaves [search_with_retry]. *)
Lemma search_with_retry_raises ex q max_retries s e :
  fst (search_with_retry ex q max_retries s) = Exc e ->
  is_Exception e = false.
Proof.
  destruct (Z_le_gt_dec max_retries 0) as [Hle|Hgt].
  - rewrite retry_loop_nil by lia. discriminate.
  - destruct (search_with_retry_trace ex q max_retries s)
      as (j & _ & _ & _ & _ & _ & _ & _ & _ & Ho); [lia|].
    destruct Ho as [(r & _ & ->)|[(e' & _ & _ & _ & ->)
                   |[(e' & _ & Hx & ->)|(_ & ->)]]];
      try discriminate.
    intros [= <-]. exact Hx.
Qed.

(** [search_with_retry] completes when every invocation does. *)
Lemma search_with_retry_completes ex q max_retries s :
  (forall n, latency (ex n q) <> None) ->
  fst (search_with_retry ex q max_retries s) <> Hang.
Proof.
  intros Hl.
  destruct (Z_le_gt_dec max_retries 0) as [Hle|Hgt].
  - rewrite retry_loop_nil by lia. discriminate.
  - destruct (search_with_retry_trace ex q max_retries s)
      as (j & _ & _ & _ & _ & _ & _ & _ & _ & Ho); [lia|].
    destruct Ho as [(r & _ & ->)|[(e' & _ & _ & _ & ->)
                   |[(e' & _ & Hx & ->)|(Hn & _)]]];
      try discriminate.
    exfalso. exact (Hl _ Hn).
Qed.

Lemma hanging_child_dec {X} (ts : list (task X)) :
  (exists c, In c ts /\ done_at c = None)
  \/ (forall c, In c ts -> done_at c <> None).
Proof.
  induction ts as [|t ts [(c & Hin & Hd)|IH]].
  - right. intros c [].
  - left. exists c. split; [now right|exact Hd].
  - destruct (done_at t) as [d|] eqn:Ht.
    + right. intros c [<-|Hin]; [congruence|now apply IH].
    + left. exists t. split; [now left|exact Ht].
Qed.

(** A result that is no instance of [Exception] is reported by a success
    or a failure line, or makes the report raise: never by an error
    line. *)
Lemma report_recovery_quiet r w :
  (forall e, r = inl e -> is_Exception e = false) ->
  exists lines,
    co_reports (snd (report_recovery r w)) = co_reports w ++ lines
    /\ Forall (fun l => is_error_line l = false) lines.
Proof.
  intros Hr.
  assert (Hnil : co_reports w = co_reports w ++ []) by now rewrite app_nil_r.
  destruct r as [e|[d|]]; cbn [report_recovery].
  - rewrite (Hr e eq_refl). exists []. split; [exact Hnil|constructor].
  - unfold and_then, run, say, getitem.
    destruct (dict_has d "error");
      destruct (dict_get d "query") as [v|]; cbn [raise ret];
      try (exists []; split; [exact Hnil|constructor]);
      destruct (dict_get d "attempts") as [v'|]; cbn [raise ret];
      try (exists []; split; [exact Hnil|constructor]);
      (eexists; split; [reflexivity|];
       constructor; [reflexivity|constructor]).
  - exists []. split; [exact Hnil|constructor].
Qed.

Lemma each_recovery_quiet l : forall w,
  Forall (fun r : exn + option dict =>
            forall e, r = inl e -> is_Exception e = false) l ->
  exists lines,
    co_reports (snd (each l report_recovery w)) = co_reports w ++ lines
    /\ Forall (fun l => is_error_line l = false) lines.
Proof.
  induction l as [|r l IH]; intros w Hl.
  - exists []. cbn. split; [now rewrite app_nil_r|constructor].
  - inversion Hl as [|r' l' Hr Hrest]; subst.
    destruct (report_recovery_quiet r w Hr) as (lines1 & E1 & F1).
    cbn [each]. unfold and_then.
    destruct (report_recovery r w) as [[[]| |] w1]; cbn [snd] in *.
    + destruct (IH w1 Hrest) as (lines2 & E2 & F2).
      exists (lines1 ++ lines2). rewrite E2, E1, app_assoc.
      split; [reflexivity|]. apply Forall_app. split; assumption.
    + exists lines1. split; assumption.
    + exists lines1. split; assumption.
Qed.

(** The first index at which a test holds. *)
Lemma find_seq_first (p : nat -> bool) n : forall a j,
  j < n ->
  (forall i, i < j -> p (a + i) = false) ->
  p (a + j) = true ->
  find p (seq a n) = Some (a + j).
Proof.
  induction n as [|n IH]; intros a j Hj Hbefore Hat; [lia|].
  cbn [seq find]. destruct j as [|j].
  - rewrite Nat.add_0_r in *. rewrite Hat. reflexivity.
  - pose proof (Hbefore 0 ltac:(lia)) as H0. rewrite Nat.add_0_r in H0.
    rewrite H0. replace (a + S j) with (S a + j) in * by lia.
    apply IH; [lia| |exact Hat].
    intros i Hi. replace (S a + i) with (a + S i) by lia.
    apply Hbefore. lia.
Qed.

Lemma find_seq_none (p : nat -> bool) n : forall a,
  (forall i, i < n -> p (a + i) = false) ->
  find p (seq a n) = None.
Proof.
  induction n as [|n IH]; intros a Hall; [reflexivity|].
  cbn [seq find].
  pose proof (Hall 0 ltac:(lia)) as H0. rewrite Nat.add_0_r in H0.
  rewrite H0. apply IH.
  intros i Hi. replace (S a + i) with (a + S i) by lia. apply Hall. lia.
Qed.

Lemma failed_not_succeeded b : failed b = true -> succeeded b = false.
Proof.
  unfold failed, succeeded. destruct (latency b), (result b);
    trivial; discriminate.
Qed.

Lemma enumerate_In {X} (l : list X) : forall a i x,
  In (i, x) (enumerate a l) -> a <= i /\ nth_error l (i - a) = Some x.
Proof.
  unfold enumerate.
  induction l as [|y l IH]; intros a i x; cbn; [intros []|].
  intros [[= <- <-]|Hin].
  - rewrite Nat.sub_diag. split; [lia|reflexivity].
  - destruct (IH (S a) i x Hin) as (Hle & Hn). split; [lia|].
    replace (i - a) with (S (i - S a)) by lia. exact Hn.
Qed.

(** What a retry gives when its attempts complete and fail with errors
    derived from [Exception] until one is answered: the dict of a
    success on the first attempt answered, or the dict of a failure
    after [max_retries] attempts. *)
Lemma recovery_task_retried replies max_retries iq s :
  (1 <= max_retries)%Z ->
  (forall k, k < Z.to_nat max_retries ->
             latency (replies (fst iq) k (snd iq)) <> None) ->
  (forall k e, k < Z.to_nat max_retries ->
               result (replies (fst iq) k (snd iq)) = Raises e ->
               is_Exception e = true) ->
  retried replies max_retries iq
          (fst (recovery_task replies max_retries iq s)).
Proof.
  intros Hmax Hlat Hexc. destruct iq as [i q]. cbn [fst snd] in *.
  unfold recovery_task, own_calls, retried, first_answer. cbn [fst snd].
  set (ex := fun n input => replies i (n - st_calls s) input).
  assert (Hex : forall k, ex (st_calls s + k) q = replies i k q).
  { intros k. unfold ex. f_equal. lia. }
  destruct (search_with_retry_trace ex q max_retries s Hmax)
    as (j & Hj & Hf & _ & _ & _ & _ & _ & _ & Ho).
  assert (Hbefore : forall k, k < j ->
                              succeeded (replies i (0 + k) q) = false).
  { intros k Hk. cbn [Nat.add]. rewrite <- Hex.
    apply failed_not_succeeded, Hf. exact Hk. }
  rewrite Hex in Ho.
  destruct Ho as [(r & Hv & ->)|[(e' & He' & Hx & Hn & ->)
                 |[(e' & He' & Hx & _)|(Hn & _)]]].
  - rewrite (find_seq_first (fun k => succeeded (replies i k q))
               (Z.to_nat max_retries) 0 j Hj Hbefore).
    + exists r. reflexivity.
    + cbn [Nat.add]. unfold value_of in Hv. unfold succeeded.
      destruct (latency (replies i j q)), (result (replies i j q));
        trivial; discriminate.
  - rewrite find_seq_none.
    + exists e'. replace (Z.of_nat j + 1)%Z with max_retries by lia.
      reflexivity.
    + intros k Hk. destruct (Nat.eq_dec k j) as [->|Hne].
      * cbn [Nat.add]. unfold error_of in He'. unfold succeeded.
        destruct (latency (replies i j q)), (result (replies i j q));
          trivial; discriminate.
      * apply Hbefore. lia.
  - exfalso. unfold error_of in He'.
    destruct (latency (replies i j q)) eqn:Hl; [|discriminate].
    destruct (result (replies i j q)) as [r|e0] eqn:Hr; [discriminate|].
    injection He' as ->.
    rewrite (Hexc j e' Hj Hr) in Hx. discriminate.
  - exfalso. exact (Hlat j Hj Hn).
Qed.

Lemma each_recovery_lines replies max_retries iqs l :
  Forall2 (fun iq r => retried replies max_retries iq (collected r))
          iqs l ->
  forall w,
    each l report_recovery w
    = (Ret tt,
       mkConsole (co_state w)
                 (co_reports w
                    ++ map (recovery_line replies max_retries) iqs)).
Proof.
  induction 1 as [|iq r iqs l Hr _ IH]; intros w.
  - cbn. rewrite app_nil_r. destruct w; reflexivity.
  - cbn [each map]. unfold and_then.
    unfold retried in Hr. unfold recovery_line at 1.
    destruct (first_answer _ _ _) as [k|].
    + destruct Hr as (r0 & Hr). destruct r as [e'|[d|]]; cbn in Hr;
        try discriminate. injection Hr as ->.
      change (report_recovery
                (inr (Some (retry_success (snd iq) r0 (Z.of_nat k + 1)))) w)
        with (say (SaySuccess (VStr (snd iq)) (VInt (Z.of_nat k + 1))) w).
      unfold say. rewrite IH. cbn [co_state co_reports].
      rewrite <- app_assoc. reflexivity.
    + destruct Hr as (e & Hr). destruct r as [e'|[d|]]; cbn in Hr;
        try discriminate. injection Hr as ->.
      change (report_recovery
                (inr (Some (retry_failure (snd iq) e max_retries))) w)
        with (say (SayFailed (VStr (snd iq)) (VInt max_retries)) w).
      unfold say. rewrite IH. cbn [co_state co_reports].
      rewrite <- app_assoc. reflexivity.
Qed.

Lemma Forall2_right {X Y} (R : X -> Y -> Prop) (P : Y -> Prop) l1 l2 :
  (forall x y, R x y -> P y) -> Forall2 R l1 l2 -> Forall P l2.
Proof.
  intros H. induction 1; constructor; eauto.
Qed.

(** The driver, once its first lines are printed. *)
Lemma with_error_recovery_eq replies queries max_retries w :
  with_error_recovery replies queries max_retries w
  = match gather_all (map (recovery_task replies max_retries)
                          (enumerate 0 queries)) (co_state w)
    with
    | (Ret results, s') =>
        match each results report_recovery
                   (mkConsole s' (co_reports w ++ recovery_banner queries
                                    ++ [SayResults]))
        with
        | (Ret _, w') =>
            (Ret tt, mkConsole (co_state w') (co_reports w' ++ [SayBlank]))
        | (Exc e, w') => (Exc e, w')
        | (Hang, w') => (Hang, w')
        end
    | (Exc e, s') =>
        (Exc e, mkConsole s' (co_reports w ++ recovery_banner queries))
    | (Hang, s') =>
        (Hang, mkConsole s' (co_reports w ++ recovery_banner queries))
    end.
Proof.
  unfold with_error_recovery, recovery_banner.
  unfold and_then at 1, say at 1. unfold and_then at 1, say at 1.
  cbn [co_state co_reports]. rewrite <- !app_assoc. cbn [app].
  unfold and_then at 1, run. cbn [co_state co_reports].
  change (map (fun iq : nat * string =>
                 own_calls (replies (fst iq))
                           (fun ex => search_with_retry ex (snd iq)
                                                        max_retries))
              (enumerate 0 queries))
    with (map (recovery_task replies max_retries) (enumerate 0 queries)).
  destruct (gather_all _ (co_state w)) as [[results|e|] s']; try reflexivity.
  unfold and_then at 1, say at 1. cbn [co_state co_reports].
  rewrite <- ?app_assoc. cbn [app].
  unfold and_then.
  destruct (each results report_recovery _) as [[[]|e|] w']; reflexivity.
Qed.

(** X16: the error-recovery driver turns failures into data.  What the
    retries obtain is given retry by retry, the order in which concurrent
    retries make their invocations being left open.  When every attempt
    completes and raises only errors derived from [Exception], with at
    least one attempt allowed, the fan-out of retries returns, whatever
    fails, and between the heading lines and a closing empty line one
    line is printed per query, in the order of the queries: success with
    the number of the first attempt of that query that was answered, or
    failure after [max_retries] attempts when none was. *)
Theorem with_error_recovery_reports
        (replies : nat -> Executor) (queries : list string)
        (max_retries : Z) (w : console) :
  (1 <= max_retries)%Z ->
  (forall i q k,
     nth_error queries i = Some q -> k < Z.to_nat max_retries ->
     latency (replies i k q) <> None) ->
  (forall i q k e,
     nth_error queries i = Some q -> k < Z.to_nat max_retries ->
     result (replies i k q) = Raises e -> is_Exception e = true) ->
  exists s',
    with_error_recovery replies queries max_retries w
    = (Ret tt,
       mkConsole s' (co_reports w ++ recovery_banner queries
                       ++ [SayResults]
                       ++ map (recovery_line replies max_retries)
                              (enumerate 0 queries)
                       ++ [SayBlank])).
Proof.
  intros Hmax Hlat Hexc.
  rewrite with_error_recovery_eq. unfold gather_all, bind.
  destruct (create_tasks_Forall2 (retried replies max_retries)
              (recovery_task replies max_retries) (enumerate 0 queries))
    with (s := co_state w) as (ts & s1 & E1 & K1 & Hall).
  { intros [i q] s Hin. destruct (enumerate_In _ _ _ _ Hin) as (_ & Hq).
    rewrite Nat.sub_0_r in Hq.
    apply recovery_task_retried; trivial; cbn [fst snd].
    - intros k Hk. exact (Hlat i q k Hq Hk).
    - intros k e Hk. exact (Hexc i q k e Hq Hk). }
  rewrite E1.
  assert (Hnh : forall iq o, retried replies max_retries iq o -> o <> Hang).
  { intros iq o. unfold retried.
    destruct (first_answer _ _ _); intros (x & ->); discriminate. }
  assert (Hdone : Forall (fun c => done_at c <> None) ts).
  { eapply Forall2_right; [|exact Hall].
    intros iq c (HP & Hd) Hn. apply Hd in Hn. exact (Hnh _ _ HP Hn). }
  destruct (gather_all_tasks_done ts s1) as (t & Eg).
  { apply Forall_forall. exact Hdone. }
  rewrite Eg.
  destruct (results_or_exceptions_Forall2 (retried replies max_retries)
              (enumerate 0 queries) ts) as (l & Hl & Hrel).
  { eapply Forall2_impl; [|exact Hall].
    intros iq c (HP & _). split; [exact HP|exact (Hnh _ _ HP)]. }
  rewrite Hl, (each_recovery_lines replies max_retries _ l Hrel).
  cbn [co_state co_reports]. eexists.
  rewrite <- !app_assoc. reflexivity.
Qed.

(** Three retries of three attempts: the first is answered on its third
    attempt, the second at once, the third never. *)
Lemma with_error_recovery_reports_witness :
  exists s',
    with_error_recovery sample_replies ["a"; "b"; "c"] 3
                        (mkConsole initial_state [])
    = (Ret tt,
       mkConsole s' ([] ++ recovery_banner ["a"; "b"; "c"]
                       ++ [SayResults]
                       ++ map (recovery_line sample_replies 3)
                              (enumerate 0 ["a"; "b"; "c"])
                       ++ [SayBlank])).
Proof.
  apply (with_error_recovery_reports sample_replies ["a"; "b"; "c"] 3
           (mkConsole initial_state [])).
  - lia.
  - intros i q k _ _. unfold sample_replies.
    destruct i as [|[|i]]; try discriminate.
    destruct (k <? 2)%nat; discriminate.
  - intros i q k e _ _. unfold sample_replies.
    destruct i as [|[|i]]; try destruct (k <? 2)%nat;
      cbn; intros [= <-]; reflexivity.
Defined.

(** The lines of that run. *)
Example with_error_recovery_run :
  co_reports (snd (with_error_recovery sample_replies ["a"; "b"; "c"] 3
                                       (mkConsole initial_state [])))
  = [ SayBanner "Pattern 4: Parallel Searches with Error Recovery";
      SayExecuting 3 "with retry logic";
      SayResults;
      SaySuccess (VStr "a") (VInt 3);
      SaySuccess (VStr "b") (VInt 1);
      SayFailed (VStr "c") (VInt 3);
      SayBlank ].
Proof. reflexivity. Qed.

Lemma Forall2_with_Forall {X Y} (R R' : X -> Y -> Prop) (P : Y -> Prop)
      l1 l2 :
  (forall x y, R x y -> P y -> R' x y) ->
  Forall2 R l1 l2 -> Forall P l2 -> Forall2 R' l1 l2.
Proof.
  intros H. induction 1 as [|x y l1 l2 Hxy _ IH]; intros HP;
    constructor; inversion HP; subst; eauto.
Qed.

Lemma recovery_task_raises replies max_retries iq s e :
  fst (recovery_task replies max_retries iq s) = Exc e ->
  is_Exception e = false.
Proof.
  unfold recovery_task, own_calls. apply search_with_retry_raises.
Qed.

Lemma recovery_task_completes replies max_retries iq s :
  (forall k, latency (replies (fst iq) k (snd iq)) <> None) ->
  fst (recovery_task replies max_retries iq s) <> Hang.
Proof.
  intros Hl. unfold recovery_task, own_calls.
  apply search_with_retry_completes. intros n. apply Hl.
Qed.

(** X17: the branch of the error-recovery driver that reports an
    exception found among the results is never taken:
    [search_with_retry] lets through only errors outside [Exception], so
    no error line is ever printed, whatever the retries obtain.  Such an
    error (a cancellation) among the results makes the report raise
    instead: when the first invocation for the first query raises one and
    every invocation completes, the driver raises the [TypeError] of the
    membership test after the heading lines, and no line is printed for
    any query. *)
Theorem with_error_recovery_error_branch
        (replies : nat -> Executor) (queries : list string)
        (max_retries : Z) (w : console) :
  (exists lines,
     co_reports (snd (with_error_recovery replies queries max_retries w))
     = co_reports w ++ lines
     /\ Forall (fun l => is_error_line l = false) lines)
  /\
  (forall q rest e,
     queries = q :: rest ->
     (1 <= max_retries)%Z ->
     error_of (replies 0 0 q) = Some e ->
     is_Exception e = false ->
     (forall i k q', latency (replies i k q') <> None) ->
     exists s',
       with_error_recovery replies queries max_retries w
       = (Exc (not_iterable "CancelledError"),
          mkConsole s' (co_reports w ++ recovery_banner queries
                          ++ [SayResults]))).
Proof.
  assert (Hbanner : Forall (fun l => is_error_line l = false)
                           (recovery_banner queries)).
  { repeat constructor. }
  split.
  - rewrite with_error_recovery_eq. unfold gather_all, bind.
    destruct (create_tasks_Forall2
                (fun (_ : nat * string) (o : outcome (option dict)) =>
                   forall e, o = Exc e -> is_Exception e = false)
                (recovery_task replies max_retries) (enumerate 0 queries))
      with (s := co_state w) as (ts & s1 & E1 & K1 & Hall).
    { intros iq s _ e He. eapply recovery_task_raises. exact He. }
    rewrite E1.
    destruct (hanging_child_dec ts) as [(c & Hc & Hd)|Hdone].
    + rewrite (gather_all_tasks_hangs ts s1 c Hc Hd). cbn [snd co_reports].
      eexists. split; [reflexivity|exact Hbanner].
    + destruct (gather_all_tasks_done ts s1 Hdone) as (t & Eg).
      rewrite Eg.
      destruct (results_or_exceptions_Forall2
                  (fun (_ : nat * string) (o : outcome (option dict)) =>
                     forall e, o = Exc e -> is_Exception e = false)
                  (enumerate 0 queries) ts) as (l & Hl & Hrel).
      { apply (Forall2_with_Forall _ _ (fun c => done_at c <> None)
                 _ _ (fun q c (H : _ /\ _) Hd =>
                        conj (proj1 H) (fun Hh => Hd (proj2 (proj2 H) Hh)))
                 Hall).
        apply Forall_forall. exact Hdone. }
      rewrite Hl.
      match goal with
      | |- context [each l report_recovery ?w0] =>
          destruct (each_recovery_quiet l w0) as (lines & E & F)
      end.
      { eapply Forall2_right; [|exact Hrel].
        intros q r HP e ->. apply HP. reflexivity. }
      cbn [co_reports] in E.
      destruct (each l report_recovery _) as [[[]|e|] w'];
        cbn [snd co_reports] in E |- *; rewrite E.
      * exists (recovery_banner queries ++ [SayResults] ++ lines
                  ++ [SayBlank]).
        split; [now rewrite <- !app_assoc|].
        repeat (apply Forall_app; split); trivial; repeat constructor.
      * exists (recovery_banner queries ++ [SayResults] ++ lines).
        split; [now rewrite <- !app_assoc|].
        repeat (apply Forall_app; split); trivial; repeat constructor.
      * exists (recovery_banner queries ++ [SayResults] ++ lines).
        split; [now rewrite <- !app_assoc|].
        repeat (apply Forall_app; split); trivial; repeat constructor.
  - intros q rest e -> Hmax He Hx Hlat.
    rewrite with_error_recovery_eq. unfold gather_all, bind.
    unfold enumerate. cbn [List.length seq combine map create_tasks].
    unfold bind.
    assert (Hhead : exists t0 s1,
               create_task (recovery_task replies max_retries (0, q))
                           (co_state w)
               = (Ret t0, s1)
               /\ task_result t0 = Exc e /\ done_at t0 <> None).
    { unfold create_task, recovery_task, own_calls, search_with_retry,
        range1. cbn [fst snd st_calls].
      replace (Z.to_nat max_retries) with (S (Z.to_nat max_retries - 1))
        by lia.
      cbn [seq].
      match goal with
      | |- context [retry_loop ?ex q max_retries (0 :: ?rest) ?s0] =>
          destruct (retry_loop_step_uncaught ex q max_retries 0 rest s0 e)
            as (s2 & E & _)
      end; trivial.
      { cbn [st_calls]. rewrite Nat.sub_diag. exact He. }
      rewrite E. eexists. eexists. split; [reflexivity|].
      cbn. split; [reflexivity|discriminate]. }
    destruct Hhead as (t0 & s1 & E0 & Hr0 & Hd0). rewrite E0.
    destruct (create_tasks_Forall2
                (fun (_ : nat * string) (o : outcome (option dict)) =>
                   o <> Hang)
                (recovery_task replies max_retries)
                (combine (seq 1 (List.length rest)) rest))
      with (s := s1) as (ts & s2 & E1 & K1 & Hall).
    { intros iq s _. apply recovery_task_completes.
      intros k. apply Hlat. }
    rewrite E1. cbn [ret].
    assert (Hdone : Forall (fun c => done_at c <> None) ts).
    { eapply Forall2_right; [|exact Hall].
      intros q' c (HP & Hd) Hn. apply Hd in Hn. exact (HP Hn). }
    destruct (gather_all_tasks_done (t0 :: ts) s2) as (t & Eg).
    { intros c [<-|Hc]; [exact Hd0|].
      rewrite Forall_forall in Hdone. apply Hdone. exact Hc. }
    rewrite Eg.
    destruct (results_or_exceptions_Forall2
                (fun (_ : nat * string) (o : outcome (option dict)) =>
                   o <> Hang)
                (combine (seq 1 (List.length rest)) rest) ts)
      as (l & Hl & _).
    { eapply Forall2_impl; [|exact Hall].
      intros q' c (HP & _). split; exact HP. }
    cbn [results_or_exceptions]. rewrite Hr0, Hl.
    cbn [each]. unfold and_then. cbn [report_recovery]. rewrite Hx.
    unfold run, raise. cbn [co_state co_reports].
    eexists. reflexivity.
Qed.

(** A cancellation raised by the first invocation: the report raises. *)
Lemma with_error_recovery_error_branch_witness :
  exists s',
    with_error_recovery cancelled_first ["a"; "b"; "c"] 3
                        (mkConsole initial_state [])
    = (Exc (not_iterable "CancelledError"),
       mkConsole s' ([] ++ recovery_banner ["a"; "b"; "c"]
                       ++ [SayResults])).
Proof.
  apply (proj2 (with_error_recovery_error_branch
                  cancelled_first ["a"; "b"; "c"] 3
                  (mkConsole initial_state []))
           "a" ["b"; "c"] (mkExn CancelledError "boom")).
  - reflexivity.
  - lia.
  - reflexivity.
  - reflexivity.
  - intros i k q'. unfold cancelled_first.
    destruct i as [|i], k as [|k]; discriminate.
Defined.

(** ** A race that nobody wins *)

Lemma wait_first_completed_hangs {X} (set_order : list (M X) -> list (M X))
      (coros : list (M X)) s ts s1 :
  coros <> [] ->
  create_tasks (set_order coros) s = (Ret ts, s1) ->
  completion_order ts = [] ->
  wait_first_completed Python_3_10 set_order coros s = (Hang, s1).
Proof.
  intros Hne Ec Ho. unfold wait_first_completed.
  destruct coros as [|c0 coros']; [contradiction|].
  unfold bind. rewrite Ec, Ho. reflexivity.
Qed.

Lemma race_tasks_never_done ex q clock agents : forall k id c,
  (forall i, i < List.length agents -> latency (ex (c + i) q) = None) ->
  finishing k (race_tasks ex q clock id c agents) = [].
Proof.
  induction agents as [|a agents IH]; intros k id c Hl; [reflexivity|].
  cbn [race_tasks finishing]. unfold race_task at 1. cbn [done_at].
  pose proof (Hl 0 ltac:(cbn; lia)) as H0. rewrite Nat.add_0_r in H0.
  rewrite H0. cbn [option_map]. apply IH.
  intros i Hi. replace (S c + i) with (c + S i) by lia.
  apply Hl. cbn. lia.
Qed.

(** X18: the race has no deadline.  Up to Python 3.10, where
    [asyncio.wait] wraps the coroutines of the race in tasks in the order
    [agents] in which the set lists them, when no agent's invocation ever
    completes [race_to_answer] never returns: every agent has been
    started, no cancellation is requested, and after the two lines
    printed before the wait neither a winner nor a number of cancelled
    tasks is printed. *)
Theorem race_hangs
        (ex : Executor)
        (set_order : list (M dict) -> list (M dict))
        (set_list : list (task dict) -> list (task dict))
        (q : string) (num_agents : Z) (s : state) (agents : list nat) :
  (1 <= num_agents)%Z ->
  set_order (racers ex q (range1 num_agents)) = racers ex q agents ->
  Permutation agents (range1 num_agents) ->
  (forall i, i < Z.to_nat num_agents ->
             latency (ex (st_calls s + i) q) = None) ->
  let r := race ex Python_3_10 set_order set_list q num_agents s in
  fst r = Hang
  /\ st_calls (snd r) = st_calls s + Z.to_nat num_agents
  /\ st_cancelled (snd r) = st_cancelled s
  /\ st_stdout (snd r) = st_stdout s ++ race_banner q num_agents.
Proof.
  intros Hn Horder Hagents Hl. cbv zeta. rewrite race_eq. unfold bind.
  destruct (create_tasks_race ex q agents (racing q num_agents s))
    as (s1 & Ec & _ & Hc & _ & _ & Hx & Ho).
  cbn [racing st_clock st_calls st_next_task st_sleeps st_cancelled
       st_stdout] in Ec, Hc, Hx, Ho.
  fold (racers ex q agents) in Ec. rewrite <- Horder in Ec.
  assert (Hlen : List.length agents = Z.to_nat num_agents).
  { rewrite (Permutation_length Hagents). unfold range1. apply length_seq. }
  rewrite Hlen in Hc.
  rewrite (wait_first_completed_hangs set_order _ _ _ s1
             (racers_nonempty ex q _ Hn) Ec).
  - cbn [fst snd]. repeat split; assumption.
  - unfold completion_order. rewrite race_tasks_never_done; [reflexivity|].
    rewrite Hlen. exact Hl.
Qed.

(** Three agents on an executor that never answers. *)
Lemma race_hangs_witness :
  fst (race (fun _ _ => mkBehaviour None (Returns (mkRunResult "")))
            Python_3_10 (@rev (M dict)) in_list_order "q" 3 initial_state)
  = Hang
  /\ st_calls (snd (race (fun _ _ => mkBehaviour None
                                       (Returns (mkRunResult "")))
                         Python_3_10 (@rev (M dict)) in_list_order "q" 3
                         initial_state))
     = 0 + Z.to_nat 3
  /\ st_cancelled (snd (race (fun _ _ => mkBehaviour None
                                           (Returns (mkRunResult "")))
                             Python_3_10 (@rev (M dict)) in_list_order "q" 3
                             initial_state)) = []
  /\ st_stdout (snd (race (fun _ _ => mkBehaviour None
                                        (Returns (mkRunResult "")))
                          Python_3_10 (@rev (M dict)) in_list_order "q" 3
                          initial_state))
     = [] ++ race_banner "q" 3.
Proof.
  apply (race_hangs (fun _ _ => mkBehaviour None (Returns (mkRunResult "")))
           (@rev (M dict)) in_list_order "q" 3 initial_state [2; 1; 0]).
  - lia.
  - reflexivity.
  - exact (Permutation_rev [2; 1; 0]).
  - intros i _. reflexivity.
Defined.

(** ** Searches one after the other *)

Lemma answer_lines_length ex queries : forall c,
  List.length (answer_lines ex c queries) <= List.length queries.
Proof.
  induction queries as [|q queries IH]; intros c; cbn; [lia|].
  destruct (value_of (ex c q)); cbn; [|lia].
  specialize (IH (S c)). lia.
Qed.

Lemma search_each_cons create_search_agent q queries w :
  search_each create_search_agent (q :: queries) w
  = match Runner_run (create_search_agent "low") q (co_state w) with
    | (Ret r, s') =>
        search_each create_search_agent queries
          (mkConsole s' (co_reports w ++ [SayAnswer q (final_output r)]))
    | (Exc e, s') => (Exc e, mkConsole s' (co_reports w))
    | (Hang, s') => (Hang, mkConsole s' (co_reports w))
    end.
Proof.
  unfold search_each. cbn [each].
  unfold and_then, run, simple_search, bind.
  destruct (Runner_run (create_search_agent "low") q (co_state w))
    as [[r| |] s']; reflexivity.
Qed.

(** X19: [multiple_searches] runs its searches one at a time, each one
    after the previous one has returned.  Whatever the executor does, it
    prints the answers of the queries in order up to the first invocation
    that does not return, makes no invocation after that one, and the
    time taken is the sum of the latencies of the invocations made; it
    returns exactly when every query was answered. *)
Theorem search_each_sequential
        (create_search_agent : string -> Executor) (queries : list string)
        (w : console) :
  let ex := create_search_agent "low" in
  let c := st_calls (co_state w) in
  let r := search_each create_search_agent queries w in
  let answered := List.length (answer_lines ex c queries) in
  co_reports (snd r) = co_reports w ++ answer_lines ex c queries
  /\ st_calls (co_state (snd r))
     = c + Nat.min (List.length queries) (S answered)
  /\ st_clock (co_state (snd r))
     = st_clock (co_state w)
       + list_sum (map duration (firstn (S answered)
                                        (behaviours ex c queries)))
  /\ (fst r = Ret tt <-> answered = List.length queries).
Proof.
  cbv zeta. revert w.
  induction queries as [|q queries IH]; intros w.
  - cbn. rewrite app_nil_r. repeat split; lia.
  - rewrite search_each_cons. cbn [answer_lines behaviours].
    unfold Runner_run, value_of, set_clock.
    cbn [st_clock st_calls st_next_task st_sleeps st_cancelled st_stdout].
    destruct (create_search_agent "low" (st_calls (co_state w)) q)
      as [[d|] [r0|e]] eqn:Hb; cbn [latency result].
    + match goal with
      | |- context [search_each create_search_agent queries ?w0] =>
          destruct (IH w0) as (H1 & H2 & H3 & H4)
      end.
      rewrite H1, H2, H3.
      cbn [co_state co_reports st_calls st_clock] in H4 |- *.
      cbn [List.length firstn map].
      change (duration {| latency := Some d; result := Returns r0 |}) with d.
      change (list_sum (d :: ?l)) with (d + list_sum l).
      rewrite <- app_assoc. repeat split; try lia.
      * intros H. apply H4 in H. lia.
      * intros H. apply H4. lia.
    + cbn [fst snd co_state co_reports st_calls st_clock List.length
           firstn map].
      rewrite app_nil_r. unfold duration at 1. cbn [latency].
      change (list_sum [d]) with (d + 0).
      repeat split; try lia; discriminate.
    + cbn [fst snd co_state co_reports st_calls st_clock List.length
           firstn map].
      rewrite app_nil_r. unfold duration at 1. cbn [latency].
      change (list_sum [0]) with (0 + 0).
      repeat split; try lia; discriminate.
    + cbn [fst snd co_state co_reports st_calls st_clock List.length
           firstn map].
      rewrite app_nil_r. unfold duration at 1. cbn [latency].
      change (list_sum [0]) with (0 + 0).
      repeat split; try lia; discriminate.
Qed.

(** Three searches of latencies 10, 9 and 8: twenty-seven ticks. *)
Example multiple_searches_run :
  st_clock (co_state (snd (multiple_searches (fun _ => ex_echo)
                             (mkConsole initial_state [])))) = 27.
Proof. reflexivity. Qed.
